(** * Ticketmaster monitor: change detection and alert pipeline

    A shallow embedding of the Python sources

      - [app/monitor/parse.py]  (SectorParser)
      - [app/monitor/diff.py]   (SnapshotComparator)
      - [app/storage/db.py]     (the five tables)
      - [app/alerts/sms.py]     (SMSAlertService)
      - [app/main.py]           (TicketmasterMonitor.monitor_single_event)

    followed by the properties of the pipeline.

    Conventions.  A Python [str] is a Rocq [string] whose characters are the
    code points 0..255 (Latin-1); the character classes, [str.lower] and
    [str.strip] below are Python's on that range.  Phone numbers are also
    validated on text of any code points ([Unicode]), where the digits of
    [\d] go beyond 0-9.  A [dict] read with [.get]
    is a [gmap string string]; a [set] of sector ids is a [gset string].
    A [datetime] is an integer number of microseconds.  The database, the
    clock and the SMS carrier are outside the program: what they do during
    one call is given by an [Env], and every stateful function returns its
    result together with the new database and the list of events it
    performed. *)

From Stdlib Require Import ZArith Ascii String List Lia Bool.
From stdpp Require Import gmap strings list fin_maps.

Open Scope string_scope.
Open Scope list_scope.

(* ===================================================================== *)
(** * Text: Python string operations on Latin-1 text                     *)
(* ===================================================================== *)

Module Text.

Definition code (c : ascii) : nat := nat_of_ascii c.

Definition between (lo hi : nat) (c : ascii) : bool :=
  Nat.leb lo (code c) && Nat.leb (code c) hi.

Definition is_char (k : nat) (c : ascii) : bool := Nat.eqb (code c) k.

(** [\d]: Unicode decimal digits; below 256 these are 0-9 only. *)
Definition is_decimal (c : ascii) : bool := between 48 57 c.

(** [str.isalpha] below 256: A-Z, a-z, U+00AA, U+00B5, U+00BA,
    U+00C0-U+00D6, U+00D8-U+00F6, U+00F8-U+00FF. *)
Definition is_alpha (c : ascii) : bool :=
  between 65 90 c || between 97 122 c
  || is_char 170 c || is_char 181 c || is_char 186 c
  || between 192 214 c || between 216 246 c || between 248 255 c.

(** [str.isnumeric] below 256: 0-9, superscripts U+00B2 U+00B3 U+00B9 and
    the fractions U+00BC-U+00BE. *)
Definition is_numeric (c : ascii) : bool :=
  between 48 57 c || is_char 178 c || is_char 179 c || is_char 185 c
  || between 188 190 c.

(** [\w]: alphanumeric (alpha, decimal, digit or numeric) or underscore. *)
Definition is_word (c : ascii) : bool :=
  is_alpha c || is_numeric c || is_char 95 c.

(** [\s] and [str.isspace] below 256: U+0009-U+000D, U+001C-U+001F,
    space, U+0085 and U+00A0. *)
Definition is_space (c : ascii) : bool :=
  between 9 13 c || between 28 31 c || is_char 32 c
  || is_char 133 c || is_char 160 c.

Definition is_hyphen (c : ascii) : bool := is_char 45 c.
Definition is_plus (c : ascii) : bool := is_char 43 c.
Definition is_newline (c : ascii) : bool := is_char 10 c.

(** [str.lower] on one character: A-Z and the Latin-1 capitals
    U+00C0-U+00DE (without the multiplication sign U+00D7) move up by 32.
    (Beyond Latin-1 [str.lower] need not keep the length: U+0130 becomes
    [i] followed by U+0307, which is not a word character.) *)
Definition lower_char (c : ascii) : ascii :=
  if between 65 90 c || between 192 214 c || between 216 222 c
  then ascii_of_nat (code c + 32) else c.

Fixpoint lower (s : string) : string :=
  match s with
  | EmptyString => EmptyString
  | String c s' => String (lower_char c) (lower s')
  end.

Fixpoint filter (keep : ascii -> bool) (s : string) : string :=
  match s with
  | EmptyString => EmptyString
  | String c s' => if keep c then String c (filter keep s') else filter keep s'
  end.

Fixpoint forallb (p : ascii -> bool) (s : string) : bool :=
  match s with
  | EmptyString => true
  | String c s' => p c && forallb p s'
  end.

Definition is_empty (s : string) : bool :=
  match s with EmptyString => true | String _ _ => false end.

(** [str.strip()]: leading and trailing whitespace removed. *)
Fixpoint lstrip (s : string) : string :=
  match s with
  | EmptyString => EmptyString
  | String c s' => if is_space c then lstrip s' else s
  end.

Fixpoint rstrip (s : string) : string :=
  match s with
  | EmptyString => EmptyString
  | String c s' =>
      let t := rstrip s' in
      if is_space c && is_empty t then EmptyString else String c t
  end.

Definition strip (s : string) : string := rstrip (lstrip s).

(** [needle in hay] on strings: substring test. *)
Fixpoint contains (needle hay : string) : bool :=
  String.prefix needle hay
  || match hay with
     | EmptyString => false
     | String _ hay' => contains needle hay'
     end.

(** [x in [a, b, c]] on a list of strings. *)
Definition member (x : string) (l : list string) : bool :=
  existsb (String.eqb x) l.

(** ** Regular expressions

    The patterns of the program use character classes, concatenation and
    bounded repetition.  Matching is by Brzozowski derivatives. *)

Inductive regex : Type :=
| Void
| Eps
| Cls (p : ascii -> bool)
| Cat (r1 r2 : regex)
| Alt (r1 r2 : regex)
| Star (r : regex).

Fixpoint nullable (r : regex) : bool :=
  match r with
  | Void => false
  | Eps => true
  | Cls _ => false
  | Cat r1 r2 => nullable r1 && nullable r2
  | Alt r1 r2 => nullable r1 || nullable r2
  | Star _ => true
  end.

Fixpoint deriv (c : ascii) (r : regex) : regex :=
  match r with
  | Void => Void
  | Eps => Void
  | Cls p => if p c then Eps else Void
  | Cat r1 r2 =>
      if nullable r1
      then Alt (Cat (deriv c r1) r2) (deriv c r2)
      else Cat (deriv c r1) r2
  | Alt r1 r2 => Alt (deriv c r1) (deriv c r2)
  | Star r' => Cat (deriv c r') (Star r')
  end.

Fixpoint matches (r : regex) (s : string) : bool :=
  match s with
  | EmptyString => nullable r
  | String c s' => matches (deriv c r) s'
  end.

(** [r{n}] *)
Fixpoint power (n : nat) (r : regex) : regex :=
  match n with
  | O => Eps
  | S n' => Cat r (power n' r)
  end.

(** [r{0,n}] *)
Fixpoint upto (n : nat) (r : regex) : regex :=
  match n with
  | O => Eps
  | S n' => Alt Eps (Cat r (upto n' r))
  end.

(** [r{lo,hi}] *)
Definition Rep (lo hi : nat) (r : regex) : regex :=
  Cat (power lo r) (upto (hi - lo) r).

(** [re.match('^' r '$', s) is not None].  [re.match] anchors at the start;
    [$] matches at the end of the string and also just before a newline
    that ends the string. *)
Definition re_match_line (r : regex) (s : string) : bool :=
  matches (Cat r (Alt Eps (Cls is_newline))) s.

(** [re.sub(cls, repl, s)] for a pattern that is one character class:
    every character of the class is replaced by [repl]. *)
Fixpoint re_sub_class (cls : ascii -> bool) (repl : string) (s : string)
  : string :=
  match s with
  | EmptyString => EmptyString
  | String c s' =>
      if cls c then repl +:+ re_sub_class cls repl s'
      else String c (re_sub_class cls repl s')
  end.

(** [re.sub(cls+, repl, s)]: every maximal run of characters of the class
    is replaced by one [repl].  [in_run] tells whether the character just
    before [s] belonged to the run being replaced. *)
Fixpoint re_sub_run (cls : ascii -> bool) (repl : string) (in_run : bool)
  (s : string) : string :=
  match s with
  | EmptyString => EmptyString
  | String c s' =>
      if cls c
      then if in_run then re_sub_run cls repl true s'
           else repl +:+ re_sub_run cls repl true s'
      else String c (re_sub_run cls repl false s')
  end.

Definition re_sub_class_plus (cls : ascii -> bool) (repl s : string)
  : string :=
  re_sub_run cls repl false s.

End Text.

(* ===================================================================== *)
(** * Text: phone numbers on any Python string                           *)
(* ===================================================================== *)

(** The pattern [\d] matches every decimal digit of Unicode, not only
    0-9, so what [validate_phone_number] accepts cannot be read off Latin-1
    text.  Here a [str] is the list of its code points, and the function is
    embedded once more on such lists; on Latin-1 text it is the function
    of [Sms] below. *)

Module Unicode.

(** A number above U+10FFFF stands for no character; no class holds it. *)
Definition text : Type := list N.

(** Latin-1 text, and so every literal of the program, as a [str]. *)
Definition of_string (s : string) : text :=
  map N_of_ascii (list_ascii_of_string s).

(** The decimal digits (category Nd) come in runs of ten, 0 to 9 in
    order; these are the code points of the zeros (Unicode 14.0, the
    database of CPython 3.11): ASCII, Arabic-Indic U+0660, Extended
    Arabic-Indic U+06F0, NKo, Devanagari, ... *)
Definition decimal_zeros : list N :=
  [
    48; 1632; 1776; 1984; 2406; 2534; 2662; 2790; 2918; 3046; 3174;
    3302; 3430; 3558; 3664; 3792; 3872; 4160; 4240; 6112; 6160; 6470;
    6608; 6784; 6800; 6992; 7088; 7232; 7248; 42528; 43216; 43264;
    43472; 43504; 43600; 44016; 65296; 66720; 68912; 69734; 69872;
    69942; 70096; 70384; 70736; 70864; 71248; 71360; 71472; 71904;
    72016; 72784; 73040; 73120; 92768; 92864; 93008; 120782; 120792;
    120802; 120812; 120822; 123200; 123632; 125264; 130032
  ]%N.

(** [\d] *)
Definition is_decimal (c : N) : bool :=
  existsb (fun zero => (zero <=? c)%N && (c <=? zero + 9)%N) decimal_zeros.

Definition is_plus (c : N) : bool := (c =? 43)%N.
Definition is_newline (c : N) : bool := (c =? 10)%N.

(** Regular expressions over code points, matched by derivatives. *)
Inductive regex : Type :=
| Void
| Eps
| Cls (p : N -> bool)
| Cat (r1 r2 : regex)
| Alt (r1 r2 : regex)
| Star (r : regex).

Fixpoint nullable (r : regex) : bool :=
  match r with
  | Void => false
  | Eps => true
  | Cls _ => false
  | Cat r1 r2 => nullable r1 && nullable r2
  | Alt r1 r2 => nullable r1 || nullable r2
  | Star _ => true
  end.

Fixpoint deriv (c : N) (r : regex) : regex :=
  match r with
  | Void => Void
  | Eps => Void
  | Cls p => if p c then Eps else Void
  | Cat r1 r2 =>
      if nullable r1
      then Alt (Cat (deriv c r1) r2) (deriv c r2)
      else Cat (deriv c r1) r2
  | Alt r1 r2 => Alt (deriv c r1) (deriv c r2)
  | Star r' => Cat (deriv c r') (Star r')
  end.

Fixpoint matches (r : regex) (s : text) : bool :=
  match s with
  | [] => nullable r
  | c :: s' => matches (deriv c r) s'
  end.

(** [r{n}] *)
Fixpoint power (n : nat) (r : regex) : regex :=
  match n with
  | O => Eps
  | S n' => Cat r (power n' r)
  end.

(** [r{0,n}] *)
Fixpoint upto (n : nat) (r : regex) : regex :=
  match n with
  | O => Eps
  | S n' => Alt Eps (Cat r (upto n' r))
  end.

(** [r{lo,hi}] *)
Definition Rep (lo hi : nat) (r : regex) : regex :=
  Cat (power lo r) (upto (hi - lo) r).

(** [re.match('^' r '$', s) is not None]: anchored at the start; [$]
    matches at the end and just before a newline that ends the string. *)
Definition re_match_line (r : regex) (s : text) : bool :=
  matches (Cat r (Alt Eps (Cls is_newline))) s.

(** [re.sub(cls, repl, s)] for a pattern that is one character class. *)
Fixpoint re_sub_class (cls : N -> bool) (repl s : text) : text :=
  match s with
  | [] => []
  | c :: s' =>
      if cls c then repl ++ re_sub_class cls repl s'
      else c :: re_sub_class cls repl s'
  end.

(** [[^\d+]] *)
Definition not_digit_or_plus (c : N) : bool :=
  negb (is_decimal c || is_plus c).

(** [\+\d{10,15}] *)
Definition international_pattern : regex :=
  Cat (Cls is_plus) (Rep 10 15 (Cls is_decimal)).

(** [\d{10}] *)
Definition local_pattern : regex := Rep 10 10 (Cls is_decimal).

(** [SMSAlertService.validate_phone_number] *)
Definition validate_phone_number (phone : text) : bool * text :=
  let cleaned := re_sub_class not_digit_or_plus [] phone in
  if re_match_line international_pattern cleaned then (true, cleaned)
  else if re_match_line local_pattern cleaned
  then (true, of_string "+57" ++ cleaned)
  else (false, phone).

End Unicode.

(* ===================================================================== *)
(** * app/monitor/parse.py: SectorParser                                 *)
(* ===================================================================== *)

Module Parse.
Import Text.

(** A raw sector is the attribute bag built by the page script: a [dict]
    from attribute names to strings. *)
Abbreviation Sector := (gmap string string).

Definition available_indicators : list string :=
  ["disponible"; "available"; "selectable"; "enabled"].

Definition unavailable_indicators : list string :=
  ["no disponible"; "unavailable"; "disabled"; "sold out"; "agotado"].

(** [sector.get(key, dflt)] *)
Definition get (sector : Sector) (key dflt : string) : string :=
  default dflt (sector !! key).

(** [any(indicator in text for indicator in indicators)] *)
Definition any_in (indicators : list string) (text : string) : bool :=
  existsb (fun indicator => contains indicator text) indicators.

Definition _is_sector_available (sector : Sector) : bool :=
  (* Check aria-label *)
  let aria_label := lower (get sector "aria_label" "") in
  if any_in available_indicators aria_label then true
  else if any_in unavailable_indicators aria_label then false
  else
  (* Check class names *)
  let class_names := lower (get sector "class_names" "") in
  if contains "available" class_names || contains "selectable" class_names
  then true
  else if contains "disabled" class_names || contains "unavailable" class_names
  then false
  else
  (* Check data attributes *)
  let data_status := lower (get sector "data_status" "") in
  if member data_status ["available"; "enabled"; "selectable"] then true
  else if member data_status ["unavailable"; "disabled"; "sold-out"] then false
  else
  (* Check styles (color-based detection) *)
  let style := lower (get sector "style" "") in
  let fill := lower (get sector "fill" "") in
  if existsb (fun color => contains color style || contains color fill)
       ["blue"; "#0066cc"; "#007bff"]
  then true
  else if existsb (fun color => contains color style || contains color fill)
            ["gray"; "grey"; "#cccccc"; "#999999"]
  then false
  else false.

(** Truth value of an optional string: [None] and [''] are false. *)
Definition truthy (v : option string) : bool :=
  match v with
  | Some s => negb (is_empty s)
  | None => false
  end.

(** [a or b] *)
Definition py_or (a b : option string) : option string :=
  if truthy a then a else b.

(** The chain of [or] that picks the raw identifier. *)
Definition id_source (sector : Sector) : option string :=
  py_or (sector !! "id")
    (py_or (sector !! "data_sector_id")
       (py_or (sector !! "data_section")
          (py_or (sector !! "aria_label")
             (py_or (sector !! "title")
                (Some (strip (get sector "text_content" ""))))))).

(** [[^\w\s-]] *)
Definition not_word_space_hyphen (c : ascii) : bool :=
  negb (is_word c || is_space c || is_hyphen c).

(** The clean-up of a chosen raw identifier (the body of [if sector_id:]). *)
Definition clean_id (raw : string) : string :=
  let sector_id := re_sub_class not_word_space_hyphen "" raw in
  let sector_id := re_sub_class_plus is_space "_" (strip sector_id) in
  lower sector_id.

(** Returns [None] where the Python returns [None]. *)
Definition _extract_sector_id (sector : Sector) : option string :=
  let sector_id := id_source sector in
  if truthy sector_id
  then match sector_id with
       | Some raw => Some (clean_id raw)
       | None => None
       end
  else None.

(** One iteration of the loop of [normalize_sectors]. *)
Definition normalize_step (available_sectors : gset string) (sector : Sector)
  : gset string :=
  if _is_sector_available sector
  then let sector_id := _extract_sector_id sector in
       if truthy sector_id
       then match sector_id with
            | Some i => available_sectors ∪ {[ i ]}
            | None => available_sectors
            end
       else available_sectors
  else available_sectors.

Definition normalize_sectors (raw_sectors : list Sector) : gset string :=
  fold_left normalize_step raw_sectors ∅.

End Parse.

(* ===================================================================== *)
(** * app/monitor/diff.py: SnapshotComparator                            *)
(* ===================================================================== *)

Module Diff.

Record ChangeInfo : Type := {
  has_changes : bool;
  new_sectors : list string;
  removed_sectors : list string;
  unchanged_sectors : list string;
  total_previous : nat;
  total_current : nat;
  timestamp : Z
}.

(** [now] is the reading of [datetime.utcnow()]. *)
Definition detect_changes (now : Z) (previous_sectors current_sectors : gset string)
  : ChangeInfo :=
  let new_sectors := current_sectors ∖ previous_sectors in
  let removed_sectors := previous_sectors ∖ current_sectors in
  let unchanged_sectors := current_sectors ∩ previous_sectors in
  {| has_changes := Nat.ltb 0 (size new_sectors) || Nat.ltb 0 (size removed_sectors);
     new_sectors := elements new_sectors;
     removed_sectors := elements removed_sectors;
     unchanged_sectors := elements unchanged_sectors;
     total_previous := size previous_sectors;
     total_current := size current_sectors;
     timestamp := now |}.

Definition should_send_alert (change_info : ChangeInfo) : bool :=
  Nat.ltb 0 (length (new_sectors change_info)).

End Diff.

(* ===================================================================== *)
(** * app/storage/db.py: the tables                                      *)
(* ===================================================================== *)

Module Storage.

Record Event : Type := {
  ev_event_id : string;
  ev_url : string;
  ev_name : string;
  ev_last_checked : Z;
  ev_created_at : Z
}.

(** [sectors_data] holds the JSON text of a list of strings; the row keeps
    the list that [set_sectors] dumps and [get_sectors] loads. *)
Record Snapshot : Type := {
  sn_event_id : string;
  sn_sectors_data : list string;
  sn_timestamp : Z
}.

Definition get_sectors (s : Snapshot) : list string := sn_sectors_data s.

Record ChangeLog : Type := {
  cl_event_id : string;
  cl_new_sectors : list string;
  cl_timestamp : Z;
  cl_sms_sent : bool
}.

Record PhoneNumber : Type := {
  ph_phone : string;
  ph_registered_at : Z;
  ph_active : bool
}.

Record SMSLog : Type := {
  sl_phone : string;
  sl_message : string;
  sl_timestamp : Z;
  sl_success : bool;
  sl_error_message : option string
}.

(** The rows of each table, oldest first. *)
Record Database : Type := {
  events : list Event;
  snapshots : list Snapshot;
  change_logs : list ChangeLog;
  phone_numbers : list PhoneNumber;
  sms_logs : list SMSLog
}.

Definition set_events (v : list Event) (db : Database) : Database :=
  {| events := v; snapshots := snapshots db; change_logs := change_logs db;
     phone_numbers := phone_numbers db; sms_logs := sms_logs db |}.

Definition set_snapshots (v : list Snapshot) (db : Database) : Database :=
  {| events := events db; snapshots := v; change_logs := change_logs db;
     phone_numbers := phone_numbers db; sms_logs := sms_logs db |}.

Definition set_change_logs (v : list ChangeLog) (db : Database) : Database :=
  {| events := events db; snapshots := snapshots db; change_logs := v;
     phone_numbers := phone_numbers db; sms_logs := sms_logs db |}.

Definition set_phone_numbers (v : list PhoneNumber) (db : Database) : Database :=
  {| events := events db; snapshots := snapshots db;
     change_logs := change_logs db; phone_numbers := v; sms_logs := sms_logs db |}.

Definition set_sms_logs (v : list SMSLog) (db : Database) : Database :=
  {| events := events db; snapshots := snapshots db;
     change_logs := change_logs db; phone_numbers := phone_numbers db;
     sms_logs := v |}.

(** [query.filter(p).first()] *)
Definition first {A : Type} (p : A -> bool) (rows : list A) : option A :=
  List.find p rows.

(** Assignment to the attributes of the row that [first p] returned. *)
Fixpoint update_first {A : Type} (p : A -> bool) (f : A -> A) (rows : list A)
  : list A :=
  match rows with
  | [] => []
  | r :: rows' => if p r then f r :: rows' else r :: update_first p f rows'
  end.

End Storage.

(* ===================================================================== *)
(** * The outside world during one call                                  *)
(* ===================================================================== *)

Module World.
Import Storage.

(** What [client.messages.create] does: it returns a message, or raises
    a [TwilioException] that has the attribute [msg] (a
    [TwilioRestException]), or one of class [cls] that has no such
    attribute (the base class), or another exception whose [str] is
    [msg]. *)
Inductive CarrierOutcome : Type :=
| Accepted
| RaisesTwilio (msg : string)
| RaisesTwilioNoMsg (cls : string)
| RaisesOther (msg : string).

(** How a call ends: with a value, or with an exception whose [str] is
    [text]. *)
Inductive Outcome (A : Type) : Type :=
| Returns (a : A)
| Raises (text : string).

Arguments Returns {A} a.
Arguments Raises {A} text.

(** The places where the program talks to the database or reads the
    clock.  The number in [LogSmsAttempt] is the position of the recipient
    in the fan-out loop. *)
Inductive Site : Type :=
| GetPreviousSnapshot
| DetectChanges
| SaveSnapshot
| UpdateEventTimestamp
| LogChange
| Deduplication
| ActivePhones
| LogSmsAttempt (i : nat)
| PhoneLookup
| PhoneCommit.

Record Env : Type := {
  (** the reading of [datetime.utcnow()] taken at a site *)
  utcnow : Site -> Z;
  (** whether the database access at a site raises *)
  db_raises : Site -> bool;
  (** the carrier's answer to the i-th recipient of the loop *)
  carrier : nat -> string -> string -> CarrierOutcome;
  (** [Some msg] when starting the browser raises *)
  browser_start : option string;
  (** the raw sectors found at a url; [None] when the scrape raises *)
  page : string -> option (list Parse.Sector)
}.

(** What the program does, in the order it does it. *)
Inductive Action : Type :=
| ActObserve (event_id : string)
| ActNormalize (event_id : string)
| ActReadPrevious (event_id : string)
| ActDetect (event_id : string)
| ActSaveSnapshot (event_id : string)
| ActUpdateTimestamp (event_id : string)
| ActLogChange (event_id : string)
| ActDispatchAlert (event_id : string)
| ActCarrierSend (to body : string)
| ActLogAttempt (phone : string) (success : bool).

#[export] Instance Action_eq_dec : EqDecision Action.
Proof. solve_decision. Defined.

(** Computations over the database that record their actions. *)
Definition M (A : Type) : Type := Database -> A * Database * list Action.

Definition ret {A : Type} (a : A) : M A := fun db => (a, db, []).

Definition bind {A B : Type} (m : M A) (k : A -> M B) : M B :=
  fun db =>
    let '(a, db1, t1) := m db in
    let '(b, db2, t2) := k a db1 in
    (b, db2, t1 ++ t2).

Definition emit (a : Action) : M unit := fun db => (tt, db, [a]).
Definition read : M Database := fun db => (db, db, []).
Definition write (db' : Database) : M unit := fun _ => (tt, db', []).

Definition value {A : Type} (out : A * Database * list Action) : A := out.1.1.
Definition final {A : Type} (out : A * Database * list Action) : Database := out.1.2.
Definition trace {A : Type} (out : A * Database * list Action) : list Action := out.2.

End World.

Notation "x <- m ;; k" := (World.bind m (fun x => k))
  (at level 100, m at next level, right associativity).
Notation "m ;;; k" := (World.bind m (fun _ => k))
  (at level 100, right associativity).

(* ===================================================================== *)
(** * app/alerts/sms.py: SMSAlertService                                 *)
(* ===================================================================== *)

Module Sms.
Import Text Storage World.

Definition ALERT_MESSAGE : string := "Hay cambios en la plataforma".
Definition DEDUPLICATION_WINDOW_MINUTES : Z := 5.

(** [timedelta(minutes=m)] in microseconds *)
Definition timedelta_minutes (m : Z) : Z := (m * 60 * 1000000)%Z.

Inductive Client : Type := TwilioClient.

Record SMSAlertService : Type := { client : option Client }.

Definition is_configured (self : SMSAlertService) : bool :=
  match client self with Some _ => true | None => false end.

(** The [results] dict of a batch. *)
Record BatchResults : Type := {
  b_success : bool;
  total_phones : nat;
  sent_count : nat;
  failed_count : nat;
  errors : list string;
  b_dry_run : bool
}.

(** The three shapes of the dict that [send_change_alert] returns:
    [{"success": False, "error": e}],
    [{"success": True, "skipped": True, "reason": r}] and the batch. *)
Inductive AlertResult : Type :=
| Failure (error : string)
| Skipped (reason : string)
| Batch (results : BatchResults).

(** [result.get("success", False)] *)
Definition get_success (r : AlertResult) : bool :=
  match r with
  | Failure _ => false
  | Skipped _ => true
  | Batch b => b_success b
  end.

(** [result.get("skipped", False)] *)
Definition get_skipped (r : AlertResult) : bool :=
  match r with
  | Skipped _ => true
  | _ => false
  end.

(** [result.get("reason")] *)
Definition get_reason (r : AlertResult) : option string :=
  match r with
  | Skipped reason => Some reason
  | _ => None
  end.

Definition _log_sms_attempt (env : Env) (i : nat) (phone message : string)
  (success : bool) (error_message : option string) : M unit :=
  emit (ActLogAttempt phone success) ;;;
  if db_raises env (LogSmsAttempt i) then ret tt
  else
    db <- read ;;
    let sms_log := {| sl_phone := phone; sl_message := message;
                      sl_timestamp := utcnow env (LogSmsAttempt i);
                      sl_success := success;
                      sl_error_message := error_message |} in
    write (set_sms_logs (sms_logs db ++ [sms_log]) db).

(** [str] of the [AttributeError] raised by [e.msg] on an object of class
    [cls]. *)
Definition no_attribute (cls attr : string) : string :=
  "'" +:+ cls +:+ "' object has no attribute '" +:+ attr +:+ "'".

(** In the handler of [TwilioException] the text is built from [e.msg]
    before the attempt is logged; when the exception has no [msg] the
    [AttributeError] leaves the function there. *)
Definition _send_sms_to_phone (env : Env) (i : nat) (phone message : string)
  : M (Outcome (bool * option string)) :=
  emit (ActCarrierSend phone message) ;;;
  match carrier env i phone message with
  | Accepted =>
      _log_sms_attempt env i phone message true None ;;;
      ret (Returns (true, None))
  | RaisesTwilio msg =>
      let error_msg := "Twilio error: " +:+ msg in
      _log_sms_attempt env i phone message false (Some error_msg) ;;;
      ret (Returns (false, Some error_msg))
  | RaisesTwilioNoMsg cls =>
      ret (Raises (no_attribute cls "msg"))
  | RaisesOther msg =>
      let error_msg := "Unexpected error: " +:+ msg in
      _log_sms_attempt env i phone message false (Some error_msg) ;;;
      ret (Returns (false, Some error_msg))
  end.

Definition _get_active_phone_numbers (env : Env) : M (list string) :=
  if db_raises env ActivePhones then ret []
  else
    db <- read ;;
    ret (map ph_phone (List.filter ph_active (phone_numbers db))).

(** The filter of the deduplication query. *)
Definition recent_alert (cutoff_time : Z) (row : SMSLog) : bool :=
  Z.ltb cutoff_time (sl_timestamp row)
  && sl_success row
  && String.eqb (sl_message row) ALERT_MESSAGE.

Definition _should_skip_due_to_deduplication (env : Env) (event_id : string)
  : M bool :=
  if db_raises env Deduplication then ret false
  else
    db <- read ;;
    let cutoff_time :=
      (utcnow env Deduplication
       - timedelta_minutes DEDUPLICATION_WINDOW_MINUTES)%Z in
    let recent_logs := first (recent_alert cutoff_time) (sms_logs db) in
    ret (match recent_logs with Some _ => true | None => false end).

(** [f"{phone}: {error}"] *)
Definition format_error (phone : string) (error : option string) : string :=
  phone +:+ ": " +:+ default "None" error.

Definition add_sent (r : BatchResults) : BatchResults :=
  {| b_success := b_success r; total_phones := total_phones r;
     sent_count := S (sent_count r); failed_count := failed_count r;
     errors := errors r; b_dry_run := b_dry_run r |}.

Definition add_failed (e : string) (r : BatchResults) : BatchResults :=
  {| b_success := b_success r; total_phones := total_phones r;
     sent_count := sent_count r; failed_count := S (failed_count r);
     errors := errors r ++ [e]; b_dry_run := b_dry_run r |}.

(** The body of the loop [for phone in active_phones], at position [i],
    with its handler [except Exception as e]. *)
Definition fan_out_step (env : Env) (dry_run : bool) (i : nat)
  (phone : string) (results : BatchResults) : M BatchResults :=
  if dry_run
  then _log_sms_attempt env i phone ALERT_MESSAGE true None ;;;
       ret (add_sent results)
  else r <- _send_sms_to_phone env i phone ALERT_MESSAGE ;;
       match r with
       | Returns (success, error) =>
           if success then ret (add_sent results)
           else ret (add_failed (format_error phone error) results)
       | Raises e =>
           ret (add_failed (phone +:+ ": " +:+ e) results)
       end.

(** The loop [for phone in active_phones], from position [i] on. *)
Fixpoint fan_out (env : Env) (dry_run : bool) (i : nat)
  (active_phones : list string) (results : BatchResults) : M BatchResults :=
  match active_phones with
  | [] => ret results
  | phone :: rest =>
      results' <- fan_out_step env dry_run i phone results ;;
      fan_out env dry_run (S i) rest results'
  end.

Definition send_change_alert (env : Env) (self : SMSAlertService)
  (event_id : string) (new_sectors : list string) (dry_run : bool)
  : M AlertResult :=
  if negb (is_configured self)
  then ret (Failure "SMS service not configured")
  else
    skip <- _should_skip_due_to_deduplication env event_id ;;
    if skip then ret (Skipped "deduplication")
    else
      active_phones <- _get_active_phone_numbers env ;;
      match active_phones with
      | [] => ret (Skipped "no_phones")
      | _ =>
          let results := {| b_success := true;
                            total_phones := length active_phones;
                            sent_count := 0;
                            failed_count := 0;
                            errors := [];
                            b_dry_run := dry_run |} in
          results <- fan_out env dry_run 0 active_phones results ;;
          ret (Batch results)
      end.

(** [[^\d+]] *)
Definition not_digit_or_plus (c : ascii) : bool :=
  negb (is_decimal c || is_plus c).

(** [\+\d{10,15}] *)
Definition e164_pattern : regex :=
  Cat (Cls is_plus) (Rep 10 15 (Cls is_decimal)).

(** [\d{10}] *)
Definition local_pattern : regex := Rep 10 10 (Cls is_decimal).

Definition validate_phone_number (phone : string) : bool * string :=
  let cleaned := re_sub_class not_digit_or_plus "" phone in
  if re_match_line e164_pattern cleaned then (true, cleaned)
  else if re_match_line local_pattern cleaned
  then (true, "+57" +:+ cleaned)
  else (false, phone).

(** The dicts returned by [register_phone_number] and
    [unregister_phone_number]:
    [{"success": False, "error": e}] and
    [{"success": True, "message": m, "phone": p}] (no ["phone"] key when
    unregistering). *)
Inductive PhoneResult : Type :=
| Rejected (error : string)
| Done (message : string) (phone : option string).

Definition has_phone (normalized_phone : string) (row : PhoneNumber) : bool :=
  String.eqb (ph_phone row) normalized_phone.

Definition reactivate (now : Z) (row : PhoneNumber) : PhoneNumber :=
  {| ph_phone := ph_phone row; ph_registered_at := now; ph_active := true |}.

Definition deactivate (row : PhoneNumber) : PhoneNumber :=
  {| ph_phone := ph_phone row; ph_registered_at := ph_registered_at row;
     ph_active := false |}.

Definition register_phone_number (env : Env) (phone : string) : M PhoneResult :=
  let '(is_valid, normalized_phone) := validate_phone_number phone in
  if negb is_valid
  then ret (Rejected "Invalid phone number format. Use E.164 format (+573001234567)")
  else
    if db_raises env PhoneLookup then ret (Rejected "Database error occurred")
    else
      db <- read ;;
      match first (has_phone normalized_phone) (phone_numbers db) with
      | Some existing =>
          if ph_active existing
          then ret (Rejected "Phone number already registered and active")
          else
            if db_raises env PhoneCommit
            then ret (Rejected "Database error occurred")
            else
              write (set_phone_numbers
                       (update_first (has_phone normalized_phone)
                          (reactivate (utcnow env PhoneCommit))
                          (phone_numbers db)) db) ;;;
              ret (Done "Phone number reactivated successfully"
                     (Some normalized_phone))
      | None =>
          if db_raises env PhoneCommit
          then ret (Rejected "Database error occurred")
          else
            let new_phone := {| ph_phone := normalized_phone;
                                ph_registered_at := utcnow env PhoneCommit;
                                ph_active := true |} in
            write (set_phone_numbers (phone_numbers db ++ [new_phone]) db) ;;;
            ret (Done "Phone number registered successfully"
                   (Some normalized_phone))
      end.

Definition unregister_phone_number (env : Env) (phone : string) : M PhoneResult :=
  let '(is_valid, normalized_phone) := validate_phone_number phone in
  if negb is_valid then ret (Rejected "Invalid phone number format")
  else
    if db_raises env PhoneLookup then ret (Rejected "Database error occurred")
    else
      db <- read ;;
      match first (has_phone normalized_phone) (phone_numbers db) with
      | None => ret (Rejected "Phone number not found")
      | Some _ =>
          if db_raises env PhoneCommit
          then ret (Rejected "Database error occurred")
          else
            write (set_phone_numbers
                     (update_first (has_phone normalized_phone) deactivate
                        (phone_numbers db)) db) ;;;
            ret (Done "Phone number unregistered successfully" None)
      end.

(** [session.query(PhoneNumber).filter(PhoneNumber.active == True).count()];
    0 when the query raises. *)
Definition get_registered_phones_count (env : Env) : M nat :=
  if db_raises env ActivePhones then ret 0
  else
    db <- read ;;
    ret (length (List.filter ph_active (phone_numbers db))).

End Sms.

(* ===================================================================== *)
(** * app/monitor/fetch.py and app/main.py: one monitoring cycle         *)
(* ===================================================================== *)

Module Monitor.
Import Storage World.

(** [TicketmasterScraper.scrape_event]: the page is observed, and when
    that works its raw sectors are normalized; any exception gives
    [None]. *)
Definition scrape_event (env : Env) (event_url event_id : string)
  : M (option (list string)) :=
  emit (ActObserve event_id) ;;;
  match page env event_url with
  | Some sectors_data =>
      emit (ActNormalize event_id) ;;;
      let available_sectors := Parse.normalize_sectors sectors_data in
      ret (Some (elements available_sectors))
  | None => ret None
  end.

Record CycleResult : Type := {
  event_id : string;
  success : bool;
  sectors_found : nat;
  changes_detected : bool;
  new_sectors : list string;
  sms_sent : bool;
  error : option string
}.

Record TicketmasterMonitor : Type := {
  sms_service : Sms.SMSAlertService;
  dry_run : bool
}.

(** [order_by(Snapshot.timestamp.desc()).first()]: a row with the greatest
    timestamp (the oldest such row when several share it). *)
Definition newer (best : option Snapshot) (row : Snapshot) : option Snapshot :=
  match best with
  | None => Some row
  | Some b => if Z.ltb (sn_timestamp b) (sn_timestamp row) then Some row else Some b
  end.

Definition latest (rows : list Snapshot) : option Snapshot :=
  fold_left newer rows None.

Definition of_event (event_id : string) (row : Snapshot) : bool :=
  String.eqb (sn_event_id row) event_id.

Definition _get_previous_snapshot (env : Env) (event_id : string)
  : M (gset string) :=
  emit (ActReadPrevious event_id) ;;;
  if db_raises env GetPreviousSnapshot then ret ∅
  else
    db <- read ;;
    match latest (List.filter (of_event event_id) (snapshots db)) with
    | Some latest_snapshot => ret (list_to_set (get_sectors latest_snapshot))
    | None => ret ∅
    end.

Definition _save_snapshot (env : Env) (event_id : string) (sectors : list string)
  : M unit :=
  emit (ActSaveSnapshot event_id) ;;;
  if db_raises env SaveSnapshot then ret tt
  else
    db <- read ;;
    let snapshot := {| sn_event_id := event_id;
                       sn_sectors_data := sectors;
                       sn_timestamp := utcnow env SaveSnapshot |} in
    write (set_snapshots (snapshots db ++ [snapshot]) db).

Definition _log_change (env : Env) (self : TicketmasterMonitor)
  (event_id : string) (new_sectors : list string) : M unit :=
  emit (ActLogChange event_id) ;;;
  if db_raises env LogChange then ret tt
  else
    db <- read ;;
    let change_log := {| cl_event_id := event_id;
                         cl_new_sectors := new_sectors;
                         cl_timestamp := utcnow env LogChange;
                         cl_sms_sent := negb (dry_run self) |} in
    write (set_change_logs (change_logs db ++ [change_log]) db).

Definition is_event (event_id : string) (row : Event) : bool :=
  String.eqb (ev_event_id row) event_id.

Definition touch (now : Z) (row : Event) : Event :=
  {| ev_event_id := ev_event_id row; ev_url := ev_url row;
     ev_name := ev_name row; ev_last_checked := now;
     ev_created_at := ev_created_at row |}.

Definition _update_event_timestamp (env : Env) (event_id : string) : M unit :=
  emit (ActUpdateTimestamp event_id) ;;;
  if db_raises env UpdateEventTimestamp then ret tt
  else
    db <- read ;;
    write (set_events
             (update_first (is_event event_id)
                (touch (utcnow env UpdateEventTimestamp)) (events db)) db).

Definition initial_result (event_id : string) : CycleResult :=
  {| event_id := event_id; success := false; sectors_found := 0;
     changes_detected := false; new_sectors := []; sms_sent := false;
     error := None |}.

Definition with_error (e : string) (r : CycleResult) : CycleResult :=
  {| event_id := event_id r; success := success r;
     sectors_found := sectors_found r;
     changes_detected := changes_detected r; new_sectors := new_sectors r;
     sms_sent := sms_sent r; error := Some e |}.

Definition with_sectors_found (n : nat) (r : CycleResult) : CycleResult :=
  {| event_id := event_id r; success := success r; sectors_found := n;
     changes_detected := changes_detected r; new_sectors := new_sectors r;
     sms_sent := sms_sent r; error := error r |}.

Definition with_changes (c : bool) (ns : list string) (r : CycleResult)
  : CycleResult :=
  {| event_id := event_id r; success := success r;
     sectors_found := sectors_found r;
     changes_detected := c; new_sectors := ns;
     sms_sent := sms_sent r; error := error r |}.

Definition with_sms_sent (b : bool) (r : CycleResult) : CycleResult :=
  {| event_id := event_id r; success := success r;
     sectors_found := sectors_found r;
     changes_detected := changes_detected r; new_sectors := new_sectors r;
     sms_sent := b; error := error r |}.

Definition with_success (b : bool) (r : CycleResult) : CycleResult :=
  {| event_id := event_id r; success := b;
     sectors_found := sectors_found r;
     changes_detected := changes_detected r; new_sectors := new_sectors r;
     sms_sent := sms_sent r; error := error r |}.

Definition monitor_single_event (env : Env) (self : TicketmasterMonitor)
  (event_id event_url : string) : M CycleResult :=
  let result := initial_result event_id in
  match browser_start env with
  | Some e =>
      (* [async with TicketmasterScraper()] raises: the outer handler *)
      ret (with_error e result)
  | None =>
      (* Scrape current sectors *)
      current_sectors <- scrape_event env event_url event_id ;;
      match current_sectors with
      | None => ret (with_error "Failed to scrape event" result)
      | Some current_sectors =>
          let result := with_sectors_found (length current_sectors) result in
          let current_sectors_set : gset string := list_to_set current_sectors in
          (* Get previous snapshot *)
          previous_sectors_set <- _get_previous_snapshot env event_id ;;
          (* Compare snapshots *)
          emit (ActDetect event_id) ;;;
          let change_info :=
            Diff.detect_changes (utcnow env DetectChanges)
              previous_sectors_set current_sectors_set in
          let result :=
            with_changes (Diff.has_changes change_info)
              (Diff.new_sectors change_info) result in
          (* Save new snapshot *)
          _save_snapshot env event_id current_sectors ;;;
          (* Update event last_checked timestamp *)
          _update_event_timestamp env event_id ;;;
          (* Send alerts if new sectors detected *)
          result <-
            (if Diff.should_send_alert change_info
             then
               (* Log the change *)
               _log_change env self event_id (Diff.new_sectors change_info) ;;;
               (* Send SMS alerts *)
               emit (ActDispatchAlert event_id) ;;;
               sms_result <-
                 Sms.send_change_alert env (sms_service self) event_id
                   (Diff.new_sectors change_info) (dry_run self) ;;
               ret (with_sms_sent (Sms.get_success sms_result) result)
             else ret result) ;;
          ret (with_success true result)
      end
  end.

(** An entry of [config.EVENTS]. *)
Record EventConfig : Type := {
  ec_id : string;
  ec_url : string
}.

(** [config.EVENTS] *)
Definition EVENTS : list EventConfig :=
  [ {| ec_id := "pq23";
       ec_url := "https://www.ticketmaster.co/event/bad-bunny-pq23" |};
    {| ec_id := "pq24";
       ec_url := "https://www.ticketmaster.co/event/bad-bunny-pq24" |};
    {| ec_id := "pq25";
       ec_url := "https://www.ticketmaster.co/event/bad-bunny-pq25" |} ].

(** The loop [for event_config in config.EVENTS] of [monitor_all_events],
    from position [i] on; [envs i] is the outside world during the cycle of
    the i-th event.  [monitor_single_event] lets no exception out, so the
    handler of the loop body is never entered; the random delay between two
    events is a sleep and changes nothing. *)
Fixpoint monitor_events (envs : nat -> Env) (self : TicketmasterMonitor)
  (i : nat) (events : list EventConfig) : M (list CycleResult) :=
  match events with
  | [] => ret []
  | event_config :: rest =>
      result <- monitor_single_event (envs i) self
                  (ec_id event_config) (ec_url event_config) ;;
      results <- monitor_events envs self (S i) rest ;;
      ret (result :: results)
  end.

Definition monitor_all_events (envs : nat -> Env) (self : TicketmasterMonitor)
  : M (list CycleResult) :=
  monitor_events envs self 0 EVENTS.

(** The summary that [monitor_all_events] logs:
    successful cycles, cycles with changes, cycles with [sms_sent]. *)
Definition summary (results : list CycleResult) : nat * nat * nat :=
  (length (List.filter success results),
   length (List.filter changes_detected results),
   length (List.filter sms_sent results)).

End Monitor.

(* ===================================================================== *)
(** * Notions used to state the properties                               *)
(* ===================================================================== *)

Module Spec.
Import Text Storage World.

(** ** Sector identifiers *)

(** The words of a text: its maximal runs of characters that are not
    whitespace.  [scan s] returns the run that starts [s] and the words
    after it. *)
Definition push_word (w : string) (ws : list string) : list string :=
  if is_empty w then ws else w :: ws.

Fixpoint scan (s : string) : string * list string :=
  match s with
  | EmptyString => (EmptyString, [])
  | String c s' =>
      let '(w, ws) := scan s' in
      if is_space c then (EmptyString, push_word w ws) else (String c w, ws)
  end.

Definition words (s : string) : list string :=
  let '(w, ws) := scan s in push_word w ws.

Fixpoint join (sep : string) (ws : list string) : string :=
  match ws with
  | [] => EmptyString
  | [w] => w
  | w :: ws' => w +:+ sep +:+ join sep ws'
  end.

(** Letters, digits, underscore, whitespace and hyphen. *)
Definition kept_in_id (c : ascii) : bool :=
  is_alpha c || is_numeric c || is_char 95 c || is_space c || is_hyphen c.

(** What [scan] has gathered, written out: the leading run, then an
    underscore and the later words if there are any. *)
Definition spelled (w : string) (ws : list string) : string :=
  w +:+ match ws with [] => "" | _ :: _ => "_" +:+ join "_" ws end.

(** The canonical identifier of a raw identifier: only the characters of
    [kept_in_id] are kept, the words of what remains are joined by single
    underscores (so whitespace at either end disappears), and the result
    is lower-cased. *)
Definition canonical_id (raw : string) : string :=
  lower (join "_" (words (Text.filter kept_in_id raw))).

(** The identifier that one raw sector contributes to the output set:
    the sector is classified available, and the canonical identifier of
    its first non-empty source is not empty. *)
Definition contributes (sector : Parse.Sector) (cid : string) : Prop :=
  exists raw, Parse._is_sector_available sector = true
              /\ Parse.id_source sector = Some raw /\ raw <> ""
              /\ cid = canonical_id raw /\ cid <> "".



(** ** Order of actions *)

(** [a] occurs in the trace and [b] occurs later. *)
Fixpoint precedes (a b : Action) (tr : list Action) : bool :=
  match tr with
  | [] => false
  | x :: tr' =>
      (bool_decide (x = a) && bool_decide (b ∈ tr')) || precedes a b tr'
  end.

(** The order: observe, normalize, detect, persist the change record,
    dispatch the alert, persist the snapshot, update the timestamp. *)
Definition change_record_first (event_id : string) (tr : list Action) : bool :=
  precedes (ActObserve event_id) (ActNormalize event_id) tr
  && precedes (ActNormalize event_id) (ActDetect event_id) tr
  && precedes (ActDetect event_id) (ActLogChange event_id) tr
  && precedes (ActLogChange event_id) (ActDispatchAlert event_id) tr
  && precedes (ActDispatchAlert event_id) (ActSaveSnapshot event_id) tr
  && precedes (ActSaveSnapshot event_id) (ActUpdateTimestamp event_id) tr.

(** The order: observe, normalize, detect, persist the snapshot, update
    the timestamp, persist the change record, dispatch the alert. *)
Definition snapshot_first (event_id : string) (tr : list Action) : bool :=
  precedes (ActObserve event_id) (ActNormalize event_id) tr
  && precedes (ActNormalize event_id) (ActDetect event_id) tr
  && precedes (ActDetect event_id) (ActSaveSnapshot event_id) tr
  && precedes (ActSaveSnapshot event_id) (ActUpdateTimestamp event_id) tr
  && precedes (ActUpdateTimestamp event_id) (ActLogChange event_id) tr
  && precedes (ActLogChange event_id) (ActDispatchAlert event_id) tr.

(** ** Recipients *)

(** At most one row per address. *)
Definition unique_phones (db : Database) : Prop :=
  NoDup (map ph_phone (phone_numbers db)).

(** Only the delivery log differs between two databases. *)
Definition only_logs_differ (db db' : Database) : Prop :=
  events db' = events db /\ snapshots db' = snapshots db
  /\ change_logs db' = change_logs db
  /\ phone_numbers db' = phone_numbers db.

(** ** Outcome of the fan-out, read off the carrier *)

(** An error entry names its recipient. *)
Definition names_recipient (entry phone : string) : Prop :=
  exists reason, entry = phone +:+ ": " +:+ reason.


Definition accepted (o : CarrierOutcome) : bool :=
  match o with Accepted => true | _ => false end.

(** Whether the attempt for the i-th recipient counts as sent. *)
Definition attempt_ok (env : Env) (dry_run : bool) (i : nat) (phone : string)
  : bool :=
  dry_run || accepted (carrier env i phone Sms.ALERT_MESSAGE).

Fixpoint successes (env : Env) (dry_run : bool) (i : nat) (phones : list string)
  : nat :=
  match phones with
  | [] => 0
  | phone :: rest =>
      (if attempt_ok env dry_run i phone then 1 else 0)
      + successes env dry_run (S i) rest
  end.

Fixpoint failures (env : Env) (dry_run : bool) (i : nat) (phones : list string)
  : nat :=
  match phones with
  | [] => 0
  | phone :: rest =>
      (if attempt_ok env dry_run i phone then 0 else 1)
      + failures env dry_run (S i) rest
  end.

(** The recipients whose attempt failed, in the order of the loop. *)
Fixpoint failed_recipients (env : Env) (dry_run : bool) (i : nat)
  (phones : list string) : list string :=
  match phones with
  | [] => []
  | phone :: rest =>
      if attempt_ok env dry_run i phone
      then failed_recipients env dry_run (S i) rest
      else phone :: failed_recipients env dry_run (S i) rest
  end.

End Spec.



(* ===================================================================== *)
(** * Notions for phone numbers on any text                              *)
(* ===================================================================== *)

Module UnicodeSpec.
Import Unicode.

Inductive lang : regex -> text -> Prop :=
| lang_eps : lang Eps []
| lang_cls p c : p c = true -> lang (Cls p) [c]
| lang_cat r1 r2 s1 s2 :
    lang r1 s1 -> lang r2 s2 -> lang (Cat r1 r2) (s1 ++ s2)
| lang_alt_l r1 r2 s : lang r1 s -> lang (Alt r1 r2) s
| lang_alt_r r1 r2 s : lang r2 s -> lang (Alt r1 r2) s
| lang_star_nil r : lang (Star r) []
| lang_star_app r s1 s2 :
    lang r s1 -> lang (Star r) s2 -> lang (Star r) (s1 ++ s2).

(** Every character is a decimal digit, of any script. *)
Definition all_digits (s : text) : Prop := forallb is_decimal s = true.

(** The characters that the clean-up of a phone number keeps. *)
Definition digit_or_plus (c : N) : bool := is_decimal c || is_plus c.

(** The international form: [+] followed by 10 to 15 digits. *)
Definition is_international (s : text) : Prop :=
  exists ds, s = of_string "+" ++ ds /\ all_digits ds
             /\ 10 <= length ds <= 15.

(** The local form: exactly 10 digits. *)
Definition is_local (s : text) : Prop :=
  all_digits s /\ length s = 10.

(** One of 0-9. *)
Definition is_ascii_digit (c : N) : bool := (48 <=? c)%N && (c <=? 57)%N.

(** No digit of the text is outside 0-9. *)
Definition digits_are_ascii (s : text) : Prop :=
  forallb (fun c => implb (is_decimal c) (is_ascii_digit c)) s = true.

(** A pattern on Latin-1 text and a pattern on any text that have the same
    shape and whose classes hold the same Latin-1 characters. *)
Fixpoint same_on_latin1 (r : Text.regex) (u : regex) : Prop :=
  match r, u with
  | Text.Void, Void => True
  | Text.Eps, Eps => True
  | Text.Cls p, Cls q => forall c, q (N_of_ascii c) = p c
  | Text.Cat r1 r2, Cat u1 u2 => same_on_latin1 r1 u1 /\ same_on_latin1 r2 u2
  | Text.Alt r1 r2, Alt u1 u2 => same_on_latin1 r1 u1 /\ same_on_latin1 r2 u2
  | Text.Star r1, Star u1 => same_on_latin1 r1 u1
  | _, _ => False
  end.

End UnicodeSpec.

(* ===================================================================== *)
(** * app/web/server.py: the endpoints                                   *)
(* ===================================================================== *)

Module Web.
Import Storage World.

(** The dict of [/metrics]: the counts, or [{"error": e}]. *)
Inductive MetricsResult : Type :=
| MetricsError (error : string)
| Metrics (active_phones total_sms_sent total_changes_detected
           total_snapshots : nat) (sms_service_configured : bool).

(** [raises] tells whether one of the four count queries raises. *)
Definition metrics (raises : bool) (sms_service : Sms.SMSAlertService)
  : M MetricsResult :=
  if raises then ret (MetricsError "Failed to get metrics")
  else
    db <- read ;;
    let phone_count := length (List.filter ph_active (phone_numbers db)) in
    let total_sms_sent := length (List.filter sl_success (sms_logs db)) in
    let total_changes := length (change_logs db) in
    let total_snapshots := length (snapshots db) in
    ret (Metrics phone_count total_sms_sent total_changes total_snapshots
           (Sms.is_configured sms_service)).

(** A [JSONResponse]: the status code and the keys of its content. *)
Record JSONResponse : Type := {
  status_code : nat;
  js_success : bool;
  js_message : option string;
  js_phone : option string;
  js_error : option string
}.

(** [POST /register].  [register_phone_number] lets no exception out and
    its dict always has the keys read here, so the handler that answers 500
    is never entered. *)
Definition register_phone (env : Env) (phone : string) : M JSONResponse :=
  result <- Sms.register_phone_number env phone ;;
  match result with
  | Sms.Done message normalized =>
      ret {| status_code := 200; js_success := true;
             js_message := Some message;
             js_phone := Some (default phone normalized);
             js_error := None |}
  | Sms.Rejected error =>
      ret {| status_code := 400; js_success := false;
             js_message := None; js_phone := None;
             js_error := Some error |}
  end.

(** [POST /unregister] *)
Definition unregister_phone (env : Env) (phone : string) : M JSONResponse :=
  result <- Sms.unregister_phone_number env phone ;;
  match result with
  | Sms.Done message _ =>
      ret {| status_code := 200; js_success := true;
             js_message := Some message; js_phone := None;
             js_error := None |}
  | Sms.Rejected error =>
      ret {| status_code := 400; js_success := false;
             js_message := None; js_phone := None;
             js_error := Some error |}
  end.

End Web.

(* ===================================================================== *)
(** * Further notions used to state properties                           *)
(* ===================================================================== *)

Module Notions.
Import Text Storage World.

(** The 256 characters. *)
Definition all_chars : list ascii := map ascii_of_nat (seq 0 256).

(** A character of a canonical identifier of Latin-1 text: a word
    character or a hyphen, not whitespace, and left alone by lower-casing. *)
Definition id_char (c : ascii) : bool :=
  (is_word c || is_hyphen c) && negb (is_space c)
  && Ascii.eqb (lower_char c) c.

(** One of a-z, 0-9, [_] and [-]. *)
Definition is_plain_id_char (c : ascii) : bool :=
  between 97 122 c || between 48 57 c || is_char 95 c || is_hyphen c.

Definition is_ascii (c : ascii) : bool := Nat.ltb (code c) 128.

(** What holds of every character of a sector identifier, on text of any
    script: it is not whitespace, lower-casing leaves it alone, and if it
    is an ASCII character it is one of a-z, 0-9, [_] and [-]. *)
Definition sector_id_char (c : ascii) : bool :=
  negb (is_space c)
  && Ascii.eqb (lower_char c) c
  && implb (is_ascii c) (is_plain_id_char c).

(** The addresses of the active recipients, in table order. *)
Definition active_phones (db : Database) : list string :=
  map ph_phone (List.filter ph_active (phone_numbers db)).

(** The database answers at every site. *)
Definition answers (env : Env) : Prop :=
  forall site, db_raises env site = false.

(** The calls of the carrier in a trace: recipient and text, in order. *)
Fixpoint carrier_sends (tr : list Action) : list (string * string) :=
  match tr with
  | [] => []
  | ActCarrierSend to body :: tr' => (to, body) :: carrier_sends tr'
  | _ :: tr' => carrier_sends tr'
  end.

(** The recipients of the logged attempts in a trace, in order. *)
Fixpoint logged_attempts (tr : list Action) : list string :=
  match tr with
  | [] => []
  | ActLogAttempt phone _ :: tr' => phone :: logged_attempts tr'
  | _ :: tr' => logged_attempts tr'
  end.

(** Whether the attempt for the i-th recipient reaches [_log_sms_attempt]:
    always in a dry run, and otherwise unless the carrier raised a
    [TwilioException] that has no [msg]. *)
Definition reaches_log (env : Env) (dry_run : bool) (i : nat) (phone : string)
  : bool :=
  dry_run
  || match carrier env i phone Sms.ALERT_MESSAGE with
     | RaisesTwilioNoMsg _ => false
     | _ => true
     end.

(** The recipients whose attempt reaches the log, in the order of the
    loop that starts at position [i]. *)
Fixpoint logged_recipients (env : Env) (dry_run : bool) (i : nat)
  (phones : list string) : list string :=
  match phones with
  | [] => []
  | phone :: rest =>
      if reaches_log env dry_run i phone
      then phone :: logged_recipients env dry_run (S i) rest
      else logged_recipients env dry_run (S i) rest
  end.

(** The [sent_count] of a result; 0 for a result that is not a batch. *)
Definition sent_of (r : Sms.AlertResult) : nat :=
  match r with
  | Sms.Batch b => Sms.sent_count b
  | _ => 0
  end.

(** The observation of a page succeeds: the browser starts and the scrape
    returns raw sectors. *)
Definition observed (env : Env) (event_url : string) : Prop :=
  browser_start env = None /\ page env event_url <> None.

End Notions.

(* ===================================================================== *)
(** * Concrete databases and environments                                *)
(* ===================================================================== *)

Module Examples.
Import Storage World.

Definition service : Sms.SMSAlertService :=
  {| Sms.client := Some Sms.TwilioClient |}.

Definition monitor : Monitor.TicketmasterMonitor :=
  {| Monitor.sms_service := service; Monitor.dry_run := false |}.

Definition url_pq23 : string :=
  "https://www.ticketmaster.co/event/bad-bunny-pq23".

Definition recipient (phone : string) (active : bool) : PhoneNumber :=
  {| ph_phone := phone; ph_registered_at := 0; ph_active := active |}.

(** One event, three active recipients, nothing observed or sent yet. *)
Definition db_three : Database :=
  {| events := [ {| ev_event_id := "pq23"; ev_url := url_pq23;
                    ev_name := "Bad Bunny - PQ23"; ev_last_checked := 0;
                    ev_created_at := 0 |} ];
     snapshots := [];
     change_logs := [];
     phone_numbers := [ recipient "+573001234567" true;
                        recipient "+573001234568" true;
                        recipient "+573001234569" true ];
     sms_logs := [] |}.

(** One recipient who has unregistered. *)
Definition db_inactive : Database :=
  {| events := []; snapshots := []; change_logs := [];
     phone_numbers := [ recipient "+573001234567" false ];
     sms_logs := [] |}.

(** A successful alert was logged at second 1000. *)
Definition alert_row : SMSLog :=
  {| sl_phone := "+573009999999"; sl_message := Sms.ALERT_MESSAGE;
     sl_timestamp := 1000000000; sl_success := true;
     sl_error_message := None |}.

Definition db_alerted : Database :=
  {| events := []; snapshots := []; change_logs := [];
     phone_numbers := [ recipient "+573001234567" true ];
     sms_logs := [ alert_row ] |}.

Definition sector_1 : Parse.Sector :=
  <["id" := "sector_1"]> {[ "class_names" := "sector available" ]}.

(** The page shows one available sector; the database answers; the
    carrier refuses the second recipient; the clock stands at second
    1120. *)
Definition env_second_fails : Env :=
  {| utcnow := fun _ => 1120000000%Z;
     db_raises := fun _ => false;
     carrier := fun i _ _ =>
                  if Nat.eqb i 1 then RaisesTwilio "unreachable" else Accepted;
     browser_start := None;
     page := fun _ => Some [sector_1] |}.

(** The same, but the write of the snapshot raises. *)
Definition env_snapshot_fails : Env :=
  {| utcnow := fun _ => 1120000000%Z;
     db_raises := fun site =>
                    match site with SaveSnapshot => true | _ => false end;
     carrier := fun _ _ _ => Accepted;
     browser_start := None;
     page := fun _ => Some [sector_1] |}.


(** The clock stands at second 1120 and the look-up of the
    deduplication raises. *)
Definition env_lookup_fails : Env :=
  {| utcnow := fun _ => 1120000000%Z;
     db_raises := fun site =>
                    match site with Deduplication => true | _ => false end;
     carrier := fun _ _ _ => Accepted;
     browser_start := None;
     page := fun _ => Some [sector_1] |}.

End Examples.


(* ===================================================================== *)
(** * Further concrete environments                                      *)
(* ===================================================================== *)

Module Scenarios.
Import Storage World.

(** The page cannot be scraped. *)
Definition env_page_fails : Env :=
  {| utcnow := fun _ => 1120000000%Z;
     db_raises := fun _ => false;
     carrier := fun _ _ _ => Accepted;
     browser_start := None;
     page := fun _ => None |}.

(** The page shows one available sector and the carrier refuses every
    recipient. *)
Definition env_carrier_down : Env :=
  {| utcnow := fun _ => 1120000000%Z;
     db_raises := fun _ => false;
     carrier := fun _ _ _ => RaisesTwilio "unreachable";
     browser_start := None;
     page := fun _ => Some [Examples.sector_1] |}.

(** The same page one minute later, with a carrier that accepts. *)
Definition env_minute_later : Env :=
  {| utcnow := fun _ => 1180000000%Z;
     db_raises := fun _ => false;
     carrier := fun _ _ _ => Accepted;
     browser_start := None;
     page := fun _ => Some [Examples.sector_1] |}.

(** The carrier answers the second recipient with a [TwilioException]
    that has no [msg]. *)
Definition env_no_msg : Env :=
  {| utcnow := fun _ => 1120000000%Z;
     db_raises := fun _ => false;
     carrier := fun i _ _ =>
                  if Nat.eqb i 1 then RaisesTwilioNoMsg "TwilioException"
                  else Accepted;
     browser_start := None;
     page := fun _ => Some [Examples.sector_1] |}.

(** The world of the i-th event of a round: the second page cannot be
    scraped, the other pages show one available sector. *)
Definition round_envs (i : nat) : Env :=
  if Nat.eqb i 1 then env_page_fails else Examples.env_second_fails.

End Scenarios.

(* ===================================================================== *)
(** * Properties of the text operations                                  *)
(* ===================================================================== *)

#[local] Arguments String.append : simpl nomatch.

Section TextFacts.
Import Text.

Lemma app_nil_r_str (s : string) : s +:+ "" = s.
Proof. induction s as [|c s IH]; simpl; [reflexivity | by rewrite IH]. Qed.

Lemma app_assoc_str (a b c : string) : (a +:+ b) +:+ c = a +:+ (b +:+ c).
Proof. induction a as [|x a IH]; simpl; [reflexivity | by rewrite IH]. Qed.

Lemma length_app_str (a b : string) :
  String.length (a +:+ b) = String.length a + String.length b.
Proof. induction a as [|x a IH]; simpl; [reflexivity | by rewrite IH]. Qed.

Lemma prefix_app (n h : string) :
  String.prefix n h = true <-> exists b, h = n +:+ b.
Proof.
  revert h. induction n as [|c n IH]; intros h.
  - split; [intros _; by exists h | intros _; by destruct h].
  - destruct h as [|d h]; simpl.
    { split; [discriminate | intros [b Hb]; discriminate]. }
    destruct (Ascii.ascii_dec c d) as [-> | Hne].
    + rewrite IH. split; intros [b Hb]; exists b; simpl in *; congruence.
    + split; [discriminate|]. intros [b Hb]. simpl in Hb. congruence.
Qed.

Lemma contains_app (n h : string) :
  contains n h = true <-> exists a b, h = a +:+ n +:+ b.
Proof.
  induction h as [|d h IH].
  - cbn [contains]. rewrite orb_false_r, prefix_app. split.
    + intros [b Hb]. by exists "", b.
    + intros [a [b Hb]]. destruct a; [by exists b | discriminate].
  - cbn [contains]. rewrite orb_true_iff, prefix_app, IH. split.
    + intros [[b Hb] | [a [b Hb]]].
      * by exists "", b.
      * exists (String d a), b. simpl. by rewrite Hb.
    + intros [a [b Hb]]. destruct a as [|x a]; simpl in Hb.
      * left. by exists b.
      * right. exists a, b. congruence.
Qed.

Lemma lower_app (a b : string) : lower (a +:+ b) = lower a +:+ lower b.
Proof. induction a as [|x a IH]; simpl; [reflexivity | by rewrite IH]. Qed.

(** A needle that lower-casing leaves alone is still found after
    lower-casing the text. *)
Lemma contains_lower (n h : string) :
  lower n = n -> contains n h = true -> contains n (lower h) = true.
Proof.
  intros Hn. rewrite !contains_app. intros [a [b ->]].
  exists (lower a), (lower b). by rewrite !lower_app, Hn.
Qed.

Lemma contains_longer (pre n post h : string) :
  contains (pre +:+ n +:+ post) h = true -> contains n h = true.
Proof.
  rewrite !contains_app. intros [a [b ->]].
  exists (a +:+ pre), (post +:+ b). by rewrite !app_assoc_str.
Qed.

End TextFacts.

Section ParseFacts.
Import Text Parse.

(** C10.  A label that contains "no disponible" (as written, or once
    lower-cased) also contains the available synonym "disponible"; the check
    of the available synonyms comes first, so the sector is classified
    available although the label matches an unavailable synonym too. *)
Theorem no_disponible_is_available (sector : Sector) :
  contains "no disponible" (get sector "aria_label" "") = true
  \/ contains "no disponible" (lower (get sector "aria_label" "")) = true ->
  any_in unavailable_indicators (lower (get sector "aria_label" "")) = true
  /\ any_in available_indicators (lower (get sector "aria_label" "")) = true
  /\ _is_sector_available sector = true.
Proof.
  intros H.
  assert (Hlow : contains "no disponible" (lower (get sector "aria_label" "")) = true).
  { destruct H as [H|H]; [|exact H]. by apply contains_lower. }
  assert (Hdisp : contains "disponible" (lower (get sector "aria_label" "")) = true).
  { by apply (contains_longer "no " "disponible" ""). }
  assert (Hav : any_in available_indicators (lower (get sector "aria_label" "")) = true).
  { unfold any_in, available_indicators. cbn [existsb]. by rewrite Hdisp. }
  split; [|split; [exact Hav|]].
  - unfold any_in, unavailable_indicators. cbn [existsb]. by rewrite Hlow.
  - unfold _is_sector_available. by rewrite Hav.
Qed.

Lemma no_disponible_is_available_witness :
  _is_sector_available
    (<["id" := "sector_2"]>
       (<["aria_label" := "Sector B - No disponible"]>
          (<["class_names" := "sector-element"]> ∅))) = true.
Proof.
  apply (no_disponible_is_available
           (<["id" := "sector_2"]>
              (<["aria_label" := "Sector B - No disponible"]>
                 (<["class_names" := "sector-element"]> ∅)))).
  right. vm_compute. reflexivity.
Defined.

End ParseFacts.

(* ===================================================================== *)
(** * Substitution of a character class                                  *)
(* ===================================================================== *)

Section SubstitutionFacts.
Import Text Spec.

Lemma re_sub_class_delete cls keep s :
  (forall c, keep c = negb (cls c)) ->
  re_sub_class cls "" s = Text.filter keep s.
Proof.
  intros Hk. induction s as [|c s IH]; simpl; [reflexivity|].
  rewrite Hk. destruct (cls c); simpl; by rewrite IH.
Qed.

Lemma forallb_filter_str p s : forallb p (Text.filter p s) = true.
Proof.
  induction s as [|c s IH]; simpl; [reflexivity|].
  destruct (p c) eqn:Hp; simpl; [by rewrite Hp|assumption].
Qed.

Lemma forallb_impl_str (p q : ascii -> bool) s :
  (forall c, p c = true -> q c = true) ->
  forallb p s = true -> forallb q s = true.
Proof.
  intros Hpq. induction s as [|c s IH]; simpl; [reflexivity|].
  intros [Hc Hs]%andb_true_iff. by rewrite (Hpq c Hc), IH.
Qed.

End SubstitutionFacts.

(* ===================================================================== *)
(** * The matcher decides the language of a regular expression           *)
(* ===================================================================== *)

Section RegexFacts.
Import Unicode UnicodeSpec.

Lemma lang_nil_nullable r s : lang r s -> s = [] -> nullable r = true.
Proof.
  induction 1 as [ | p c Hp | r1 r2 s1 s2 H1 IH1 H2 IH2 | r1 r2 s H IH
                 | r1 r2 s H IH | r | r s1 s2 H1 IH1 H2 IH2 ];
    intros Hs; simpl; try reflexivity; try discriminate.
  - apply app_eq_nil in Hs as [-> ->]. by rewrite IH1, IH2.
  - by rewrite IH.
  - rewrite IH by assumption. apply orb_true_r.
Qed.

Lemma nullable_lang r : nullable r = true <-> lang r [].
Proof.
  split; [|intros H; by apply (lang_nil_nullable r [])].
  induction r as [ | | p | r1 IH1 r2 IH2 | r1 IH1 r2 IH2 | r IH ]; simpl;
    intros H; try discriminate.
  - constructor.
  - apply andb_true_iff in H as [H1 H2].
    apply (lang_cat r1 r2 [] []); auto.
  - apply orb_true_iff in H as [H|H];
      [apply lang_alt_l | apply lang_alt_r]; auto.
  - constructor.
Qed.

Lemma deriv_sound c r : forall s, lang (deriv c r) s -> lang r (c :: s).
Proof.
  induction r as [ | | p | r1 IH1 r2 IH2 | r1 IH1 r2 IH2 | r IH ]; simpl;
    intros s H.
  - inversion H.
  - inversion H.
  - destruct (p c) eqn:Hp; inversion H; subst. by constructor.
  - destruct (nullable r1) eqn:Hn.
    + inversion H as [ | | | ? ? ? Hl | ? ? ? Hr | | ]; subst.
      * inversion Hl as [ | | ? ? s1 s2 Ha Hb | | | | ]; subst.
        apply (lang_cat r1 r2 (c :: s1) s2); auto.
      * apply (lang_cat r1 r2 [] (c :: s)); auto.
        by apply nullable_lang.
    + inversion H as [ | | ? ? s1 s2 Ha Hb | | | | ]; subst.
      apply (lang_cat r1 r2 (c :: s1) s2); auto.
  - inversion H; subst; [apply lang_alt_l | apply lang_alt_r]; auto.
  - inversion H as [ | | ? ? s1 s2 Ha Hb | | | | ]; subst.
    apply (lang_star_app r (c :: s1) s2); auto.
Qed.

Lemma deriv_complete r t :
  lang r t -> forall c s, t = c :: s -> lang (deriv c r) s.
Proof.
  induction 1 as [ | p c0 Hp | r1 r2 s1 s2 H1 IH1 H2 IH2 | r1 r2 s0 H IH
                 | r1 r2 s0 H IH | r | r s1 s2 H1 IH1 H2 IH2 ];
    intros c s Ht; simpl; try discriminate.
  - injection Ht as -> <-. rewrite Hp. constructor.
  - destruct s1 as [|x s1]; simpl in Ht.
    + subst s2. rewrite (lang_nil_nullable r1 [] H1 eq_refl).
      apply lang_alt_r. by apply IH2.
    + injection Ht as -> <-.
      assert (Hc : lang (Cat (deriv c r1) r2) (s1 ++ s2)).
      { constructor; [by apply IH1 | assumption]. }
      destruct (nullable r1); [by apply lang_alt_l | assumption].
  - apply lang_alt_l. by apply IH.
  - apply lang_alt_r. by apply IH.
  - destruct s1 as [|x s1]; simpl in Ht.
    + subst s2. by apply (IH2 c s).
    + injection Ht as -> <-. constructor; [by apply IH1 | assumption].
Qed.

Lemma matches_lang s : forall r, matches r s = true <-> lang r s.
Proof.
  induction s as [|c s IH]; intros r; simpl.
  - apply nullable_lang.
  - rewrite IH. split; [apply deriv_sound|].
    intros H. by apply (deriv_complete r (c :: s)).
Qed.

Lemma lang_power_cls p n : forall s,
  lang (power n (Cls p)) s <-> length s = n /\ forallb p s = true.
Proof.
  induction n as [|n IH]; intros s; simpl.
  - split.
    + intros H. inversion H; subst. auto.
    + intros [Hl _]. destruct s; [constructor | discriminate].
  - split.
    + intros H. inversion H as [ | | ? ? s1 s2 Ha Hb | | | | ]; subst.
      inversion Ha; subst. apply IH in Hb as [Hl Hf]. simpl.
      split; [by rewrite Hl | by rewrite Hf, andb_true_r].
    + intros [Hl Hf]. destruct s as [|c s]; [discriminate|].
      simpl in *. apply andb_true_iff in Hf as [Hc Hf].
      apply (lang_cat (Cls p) _ [c] s); [by constructor|].
      apply IH. split; [lia | assumption].
Qed.

Lemma lang_upto_cls p n : forall s,
  lang (upto n (Cls p)) s <-> length s <= n /\ forallb p s = true.
Proof.
  induction n as [|n IH]; intros s; simpl.
  - split.
    + intros H. inversion H; subst. simpl. auto.
    + intros [Hl _]. destruct s; [constructor | simpl in Hl; lia].
  - split.
    + intros H. inversion H as [ | | | ? ? ? Hl | ? ? ? Hr | | ]; subst.
      * inversion Hl; subst. simpl. split; [lia | reflexivity].
      * inversion Hr as [ | | ? ? s1 s2 Ha Hb | | | | ]; subst.
        inversion Ha; subst. apply IH in Hb as [Hl Hf]. simpl.
        split; [lia | by rewrite Hf, andb_true_r].
    + intros [Hl Hf]. destruct s as [|c s]; [apply lang_alt_l; constructor|].
      simpl in *. apply andb_true_iff in Hf as [Hc Hf].
      apply lang_alt_r.
      apply (lang_cat (Cls p) _ [c] s); [by constructor|].
      apply IH. split; [lia | assumption].
Qed.

(** [cls{lo,hi}] matches the texts of [lo] to [hi] characters of the
    class. *)
Lemma lang_rep_cls p lo hi s :
  lo <= hi ->
  lang (Rep lo hi (Cls p)) s
  <-> lo <= length s <= hi /\ forallb p s = true.
Proof.
  intros Hle. unfold Rep. split.
  - intros H. inversion H as [ | | ? ? s1 s2 Ha Hb | | | | ]; subst.
    apply lang_power_cls in Ha as [Hl1 Hf1].
    apply lang_upto_cls in Hb as [Hl2 Hf2].
    rewrite length_app, forallb_app, Hf1, Hf2. split; [lia | reflexivity].
  - intros [Hl Hf].
    rewrite <- (firstn_skipn lo s) in Hf |- *.
    rewrite forallb_app in Hf. apply andb_true_iff in Hf as [Hf1 Hf2].
    constructor; [apply lang_power_cls | apply lang_upto_cls]; split;
      auto; [rewrite length_firstn | rewrite length_skipn]; lia.
Qed.

(** On a text without newline, [^r$] matches exactly the language of [r]. *)
Lemma re_match_line_lang r s :
  forallb (fun c => negb (is_newline c)) s = true ->
  re_match_line r s = true <-> lang r s.
Proof.
  intros Hnl. unfold re_match_line. rewrite matches_lang. split.
  - intros H. inversion H as [ | | ? ? s1 s2 Ha Hb | | | | ]; subst.
    inversion Hb as [ | | | ? ? ? Hl | ? ? ? Hr | | ]; subst.
    + inversion Hl; subst. by rewrite app_nil_r.
    + inversion Hr as [ | ? c Hc | | | | | ]; subst.
      rewrite forallb_app in Hnl. simpl in Hnl. rewrite Hc in Hnl.
      simpl in Hnl. rewrite andb_false_r in Hnl. discriminate.
  - intros H. rewrite <- (app_nil_r s).
    constructor; [assumption | apply lang_alt_l; constructor].
Qed.

Lemma re_sub_class_filter cls keep s :
  (forall c, keep c = negb (cls c)) ->
  re_sub_class cls [] s = List.filter keep s.
Proof.
  intros Hk. induction s as [|c s IH]; simpl; [reflexivity|].
  rewrite Hk. destruct (cls c); simpl; by rewrite IH.
Qed.

End RegexFacts.

(* ===================================================================== *)
(** * Phone numbers                                                      *)
(* ===================================================================== *)

Section PhoneFacts.
Import Unicode UnicodeSpec.

Lemma digit_or_plus_not_newline c :
  digit_or_plus c = true -> negb (is_newline c) = true.
Proof.
  intros H. unfold is_newline. destruct (N.eqb c 10) eqn:E; [|reflexivity].
  apply N.eqb_eq in E. subst c. vm_compute in H. discriminate H.
Qed.

Lemma cleaned_is_filter phone :
  re_sub_class not_digit_or_plus [] phone = List.filter digit_or_plus phone.
Proof.
  apply re_sub_class_filter. intros c.
  unfold not_digit_or_plus, digit_or_plus. by rewrite negb_involutive.
Qed.

Lemma forallb_filter_same {T : Type} (p : T -> bool) s :
  forallb p (List.filter p s) = true.
Proof.
  induction s as [|c s IH]; simpl; [reflexivity|].
  destruct (p c) eqn:Hp; simpl; [by rewrite Hp|assumption].
Qed.

Lemma forallb_weaken {T : Type} (p q : T -> bool) s :
  (forall c, p c = true -> q c = true) ->
  forallb p s = true -> forallb q s = true.
Proof.
  intros Hpq. induction s as [|c s IH]; simpl; [reflexivity|].
  intros [Hc Hs]%andb_true_iff. by rewrite (Hpq c Hc), IH.
Qed.

Lemma cleaned_no_newline phone :
  forallb (fun c => negb (is_newline c)) (List.filter digit_or_plus phone)
  = true.
Proof.
  apply (forallb_weaken digit_or_plus); [apply digit_or_plus_not_newline|].
  apply forallb_filter_same.
Qed.

Lemma international_lang s : lang international_pattern s <-> is_international s.
Proof.
  unfold international_pattern, is_international, all_digits. split.
  - intros H. inversion H as [ | | ? ? s1 s2 Ha Hb | | | | ]; subst.
    inversion Ha as [ | ? c Hc | | | | | ]; subst.
    apply N.eqb_eq in Hc. subst c.
    apply lang_rep_cls in Hb as [Hl Hf]; [|lia].
    exists s2. auto.
  - intros [ds [-> [Hf Hl]]].
    apply (lang_cat (Cls is_plus) _ [43%N] ds); [by constructor|].
    apply lang_rep_cls; [lia | auto].
Qed.

Lemma local_lang s : lang local_pattern s <-> is_local s.
Proof.
  unfold local_pattern, is_local, all_digits.
  rewrite lang_rep_cls by lia. split; intros [H1 H2]; split; auto; lia.
Qed.

Lemma local_not_international s : is_local s -> ~ is_international s.
Proof.
  intros [Hd _] [ds [-> _]]. unfold all_digits in Hd. simpl in Hd.
  discriminate Hd.
Qed.

(** The three ways [validate_phone_number] can end. *)
Lemma validate_cases phone :
  let cleaned := List.filter digit_or_plus phone in
  (is_international cleaned /\ validate_phone_number phone = (true, cleaned))
  \/ (is_local cleaned /\ ~ is_international cleaned
      /\ validate_phone_number phone = (true, of_string "+57" ++ cleaned))
  \/ (~ is_international cleaned /\ ~ is_local cleaned
      /\ validate_phone_number phone = (false, phone)).
Proof.
  intros cleaned. unfold validate_phone_number.
  rewrite cleaned_is_filter. fold cleaned.
  pose proof (re_match_line_lang international_pattern cleaned
                (cleaned_no_newline phone)) as He.
  pose proof (re_match_line_lang local_pattern cleaned
                (cleaned_no_newline phone)) as Hl.
  rewrite international_lang in He. rewrite local_lang in Hl.
  destruct (re_match_line international_pattern cleaned) eqn:E1;
    [|destruct (re_match_line local_pattern cleaned) eqn:E2].
  - left. split; [by apply He | reflexivity].
  - right. left. assert (H2 : is_local cleaned) by (by apply Hl).
    split; [exact H2|]. split; [by apply local_not_international | reflexivity].
  - right. right. split; [intros H%He; discriminate|].
    split; [intros H%Hl; discriminate | reflexivity].
Qed.



End PhoneFacts.

(* ===================================================================== *)
(** * Sector identifiers                                                 *)
(* ===================================================================== *)

Section IdentifierFacts.
Import Text Spec Parse.

Lemma spelled_cons c w ws : spelled (String c w) ws = String c (spelled w ws).
Proof. reflexivity. Qed.

Lemma words_cons c s :
  words (String c s)
  = if is_space c then words s
    else String c (fst (scan s)) :: snd (scan s).
Proof.
  unfold words. simpl. destruct (scan s) as [w ws].
  destruct (is_space c); reflexivity.
Qed.

Lemma rstrip_empty_words s :
  is_empty (rstrip s) = match words s with [] => true | _ :: _ => false end.
Proof.
  induction s as [|c s IH]; [reflexivity|].
  rewrite words_cons. simpl.
  destruct (is_space c); simpl; [|reflexivity].
  rewrite IH. destruct (words s); reflexivity.
Qed.

Lemma join_cons w ws : join "_" (w :: ws) = spelled w ws.
Proof.
  unfold spelled. destruct ws as [|x ws]; simpl; [by rewrite app_nil_r_str|].
  reflexivity.
Qed.

Lemma collapse_rstrip s :
  re_sub_run is_space "_" false (rstrip s) = spelled (fst (scan s)) (snd (scan s))
  /\ re_sub_run is_space "_" true (rstrip s) = join "_" (words s).
Proof.
  induction s as [|c s [IH1 IH2]]; [split; reflexivity|].
  rewrite words_cons. simpl.
  pose proof (rstrip_empty_words s) as He. unfold words in *.
  destruct (scan s) as [w ws]. simpl in *.
  destruct (is_space c) eqn:Hc; simpl.
  - destruct (is_empty (rstrip s)) eqn:Hr; simpl.
    + destruct (push_word w ws); [split; reflexivity | discriminate].
    + rewrite Hc, IH2.
      destruct (push_word w ws) as [|x xs]; [discriminate|].
      split; reflexivity.
  - rewrite Hc, IH1. unfold spelled.
    destruct ws; simpl; rewrite ?app_nil_r_str; split; reflexivity.
Qed.

Lemma words_lstrip s : words (lstrip s) = words s.
Proof.
  induction s as [|c s IH]; [reflexivity|].
  rewrite words_cons. simpl. destruct (is_space c) eqn:Hc; [assumption|].
  rewrite words_cons, Hc. reflexivity.
Qed.

(** [re.sub(r'\s+', '_', s.strip())] joins the words of [s] by
    underscores. *)
Lemma collapse_strip_join s :
  re_sub_class_plus is_space "_" (strip s) = join "_" (words s).
Proof.
  unfold re_sub_class_plus, strip. rewrite <- words_lstrip.
  destruct (lstrip s) as [|c t] eqn:Hl; [reflexivity|].
  assert (Hc : is_space c = false).
  { clear -Hl. induction s as [|d s IH]; simpl in Hl; [discriminate|].
    destruct (is_space d) eqn:Hd; [auto|]. congruence. }
  destruct (collapse_rstrip t) as [H1 _].
  rewrite words_cons, Hc, join_cons, spelled_cons, <- H1.
  simpl. rewrite Hc. simpl. by rewrite Hc.
Qed.

Lemma kept_in_id_class c : kept_in_id c = negb (not_word_space_hyphen c).
Proof.
  unfold kept_in_id, not_word_space_hyphen, is_word.
  rewrite negb_involutive. reflexivity.
Qed.

(** The clean-up of the program computes the canonical identifier. *)
Lemma clean_id_canonical raw : clean_id raw = canonical_id raw.
Proof.
  unfold clean_id, canonical_id.
  rewrite (re_sub_class_delete _ kept_in_id) by apply kept_in_id_class.
  by rewrite collapse_strip_join.
Qed.

Lemma truthy_Some_iff (v : option string) :
  truthy v = true <-> exists s, v = Some s /\ s <> "".
Proof.
  destruct v as [[|c s]|]; simpl; split; intros H; try discriminate H.
  - destruct H as [t [[= <-] Ht]]. by destruct Ht.
  - by exists (String c s).
  - reflexivity.
  - destruct H as [t [Ht _]]. discriminate Ht.
Qed.

Lemma extract_of_source sector raw :
  id_source sector = Some raw -> raw <> "" ->
  _extract_sector_id sector = Some (canonical_id raw).
Proof.
  intros Hsrc Hne. unfold _extract_sector_id. rewrite Hsrc.
  destruct raw; [by destruct Hne|]. simpl truthy. cbv iota.
  by rewrite clean_id_canonical.
Qed.

Lemma extract_Some_source sector cid :
  _extract_sector_id sector = Some cid ->
  exists raw, id_source sector = Some raw /\ raw <> "" /\ cid = canonical_id raw.
Proof.
  unfold _extract_sector_id. destruct (truthy (id_source sector)) eqn:Ht;
    [|discriminate].
  apply truthy_Some_iff in Ht as [raw [Hsrc Hne]]. rewrite Hsrc.
  intros [= <-]. exists raw. by rewrite clean_id_canonical.
Qed.

Lemma normalize_step_elem acc sector cid :
  cid ∈ normalize_step acc sector <-> cid ∈ acc \/ contributes sector cid.
Proof.
  unfold normalize_step, contributes.
  destruct (_is_sector_available sector) eqn:Ha.
  2:{ split; [auto|]. intros [H|[raw [H _]]]; [assumption | discriminate]. }
  destruct (truthy (_extract_sector_id sector)) eqn:Ht.
  - apply truthy_Some_iff in Ht as [i [Hi Hne]]. rewrite Hi.
    destruct (extract_Some_source _ _ Hi) as [raw [Hsrc [Hraw ->]]].
    rewrite elem_of_union, elem_of_singleton. split.
    + intros [H | ->]; [by left|]. right. exists raw. auto.
    + intros [H|[raw' [_ [Hsrc' [_ [-> _]]]]]]; [by left|]. right.
      congruence.
  - split; [destruct (_extract_sector_id sector); auto|].
    intros [H|[raw [_ [Hsrc [Hraw [-> Hne]]]]]].
    { destruct (_extract_sector_id sector); auto. }
    rewrite (extract_of_source _ _ Hsrc Hraw) in Ht.
    simpl in Ht. destruct (canonical_id raw); [by destruct Hne | discriminate].
Qed.

Lemma normalize_fold_elem raws : forall acc cid,
  cid ∈ fold_left normalize_step raws acc
  <-> cid ∈ acc \/ exists sector, sector ∈ raws /\ contributes sector cid.
Proof.
  induction raws as [|r raws IH]; intros acc cid; simpl.
  - split; [auto|]. intros [H|[s [Hs _]]]; [assumption|].
    by apply not_elem_of_nil in Hs.
  - rewrite IH, normalize_step_elem. split.
    + intros [[H|H]|[s [Hs Hc]]]; [by left | |].
      * right. exists r. split; [apply list_elem_of_here | assumption].
      * right. exists s. split; [by apply list_elem_of_further | assumption].
    + intros [H|[s [Hs Hc]]]; [by left; left|].
      apply elem_of_cons in Hs as [-> | Hs]; [by left; right|].
      right. by exists s.
Qed.




End IdentifierFacts.

(* ===================================================================== *)
(** * The change detector                                                *)
(* ===================================================================== *)

Section DiffFacts.
Import Diff.
Implicit Types A B : gset string.

Lemma ltb_size_nonempty (X : gset string) : Nat.ltb 0 (size X) = true ↔ X ≠ ∅.
Proof.
  rewrite Nat.ltb_lt. split.
  - intros H ->. rewrite size_empty in H. lia.
  - intros H. destruct (size X) eqn:E; [|lia].
    apply size_empty_iff in E. exfalso. apply H. by apply leibniz_equiv.
Qed.

Lemma ltb_length_elements (X : gset string) :
  Nat.ltb 0 (length (elements X)) = Nat.ltb 0 (size X).
Proof. reflexivity. Qed.

(** C2.  [detect_changes] lists, each without repetition, the members of
    [B - A] as new, of [A - B] as removed and of [A] and [B] both as
    unchanged; it counts [A] and [B]; and [has_changes] holds exactly when
    one of the two differences is not empty. *)
Theorem detect_changes_sets (now : Z) A B :
  let ci := detect_changes now A B in
  (list_to_set (new_sectors ci) = B ∖ A ∧ NoDup (new_sectors ci))
  ∧ (list_to_set (removed_sectors ci) = A ∖ B ∧ NoDup (removed_sectors ci))
  ∧ (list_to_set (unchanged_sectors ci) = A ∩ B ∧ NoDup (unchanged_sectors ci))
  ∧ total_previous ci = size A
  ∧ total_current ci = size B
  ∧ (has_changes ci = true ↔ B ∖ A ≠ ∅ ∨ A ∖ B ≠ ∅).
Proof.
  cbn. split; [|split; [|split; [|split; [|split]]]].
  - split; [apply list_to_set_elements_L | apply NoDup_elements].
  - split; [apply list_to_set_elements_L | apply NoDup_elements].
  - split; [|apply NoDup_elements].
    rewrite list_to_set_elements_L. apply (comm_L (∩)).
  - reflexivity.
  - reflexivity.
  - change (Nat.ltb 0 (size (B ∖ A)) || Nat.ltb 0 (size (A ∖ B)) = true
            ↔ B ∖ A ≠ ∅ ∨ A ∖ B ≠ ∅).
    rewrite orb_true_iff, !ltb_size_nonempty. tauto.
Qed.

Lemma should_send_alert_detect (now : Z) A B :
  should_send_alert (detect_changes now A B) = Nat.ltb 0 (size (B ∖ A)).
Proof. reflexivity. Qed.

(** C3.  An alert is due exactly when [B - A] is not empty.  A current set
    obtained from the previous one by removals only never alerts (so
    previous a, b, c and current a: a change, no alert), and comparing a set
    with itself shows no change and no alert. *)
Theorem should_send_alert_only_new (now : Z) A B (R : gset string) :
  (should_send_alert (detect_changes now A B) = true ↔ B ∖ A ≠ ∅)
  ∧ should_send_alert (detect_changes now A (A ∖ R)) = false
  ∧ should_send_alert (detect_changes now {[ "a"; "b"; "c" ]} {[ "a" ]}) = false
  ∧ has_changes (detect_changes now {[ "a"; "b"; "c" ]} {[ "a" ]}) = true
  ∧ has_changes (detect_changes now A A) = false
  ∧ should_send_alert (detect_changes now A A) = false.
Proof.
  assert (Hno : ∀ X Y : gset string, X ⊆ Y → Nat.ltb 0 (size (X ∖ Y)) = false).
  { intros X Y HXY. replace (X ∖ Y) with (∅ : gset string); [reflexivity|].
    symmetry. apply elem_of_equiv_empty_L. intros x.
    rewrite elem_of_difference. intros [Hx Hy]. apply Hy. by apply HXY. }
  split; [|split; [|split; [|split; [|split]]]].
  - rewrite should_send_alert_detect. apply ltb_size_nonempty.
  - rewrite should_send_alert_detect. apply Hno.
    intros x. rewrite elem_of_difference. tauto.
  - vm_compute. reflexivity.
  - vm_compute. reflexivity.
  - change (Nat.ltb 0 (size (A ∖ A)) || Nat.ltb 0 (size (A ∖ A)) = false).
    rewrite Hno by reflexivity. reflexivity.
  - rewrite should_send_alert_detect. by apply Hno.
Qed.

End DiffFacts.

(* ===================================================================== *)
(** * Running a computation                                              *)
(* ===================================================================== *)

Section MonadFacts.
Import Storage World.
Context {A B : Type}.

Lemma run_bind (m : M A) (k : A -> M B) db :
  bind m k db
  = (value (k (value (m db)) (final (m db))),
     final (k (value (m db)) (final (m db))),
     trace (m db) ++ trace (k (value (m db)) (final (m db)))).
Proof.
  unfold bind, value, final, trace.
  destruct (m db) as [[a db1] t1]. simpl.
  destruct (k a db1) as [[b db2] t2]. reflexivity.
Qed.

Lemma value_bind (m : M A) (k : A -> M B) db :
  value (bind m k db) = value (k (value (m db)) (final (m db))).
Proof. by rewrite run_bind. Qed.

Lemma final_bind (m : M A) (k : A -> M B) db :
  final (bind m k db) = final (k (value (m db)) (final (m db))).
Proof. by rewrite run_bind. Qed.

Lemma trace_bind (m : M A) (k : A -> M B) db :
  trace (bind m k db)
  = trace (m db) ++ trace (k (value (m db)) (final (m db))).
Proof. by rewrite run_bind. Qed.

End MonadFacts.

(* ===================================================================== *)
(** * The alert dispatcher                                               *)
(* ===================================================================== *)

Section DispatcherFacts.
Import Storage World Spec Sms.

Lemma first_Some_of_elem {T : Type} (p : T -> bool) (x : T) (rows : list T) :
  In x rows -> p x = true -> exists y, first p rows = Some y.
Proof.
  intros Hin Hp. unfold first. destruct (List.find p rows) as [y|] eqn:E.
  - by exists y.
  - rewrite (find_none _ _ E x Hin) in Hp. discriminate.
Qed.

(** The run of a call that the deduplication gate stops. *)
Lemma dedup_gate_run env self db event_id new_sectors dry_run row :
  is_configured self = true ->
  db_raises env Deduplication = false ->
  In row (sms_logs db) ->
  recent_alert (utcnow env Deduplication
                - timedelta_minutes DEDUPLICATION_WINDOW_MINUTES) row = true ->
  send_change_alert env self event_id new_sectors dry_run db
  = (Skipped "deduplication", db, []).
Proof.
  intros Hconf Hdb Hin Hrecent.
  destruct (first_Some_of_elem _ _ _ Hin Hrecent) as [y Hy].
  unfold send_change_alert, _should_skip_due_to_deduplication.
  rewrite Hconf, Hdb. unfold bind, read, ret. simpl. rewrite Hy. reflexivity.
Qed.

(** C1, as the code has it.  With the transport configured and the look-up
    answering, a
    successful row of the log that carries the alert text and is younger
    than the cutoff (the clock reading minus five minutes) makes the call
    return the skip for deduplication, whatever the event id, the new
    sectors, the dry-run flag and the phone of the row; the database is
    left as it was and nothing is attempted. *)
Theorem send_change_alert_deduplicates
  (env : Env) (self : SMSAlertService) (db : Database)
  (event_id : string) (new_sectors : list string) (dry_run : bool)
  (row : SMSLog) :
  is_configured self = true ->
  db_raises env Deduplication = false ->
  In row (sms_logs db) ->
  sl_success row = true ->
  sl_message row = ALERT_MESSAGE ->
  (utcnow env Deduplication - timedelta_minutes DEDUPLICATION_WINDOW_MINUTES
   < sl_timestamp row)%Z ->
  let out := send_change_alert env self event_id new_sectors dry_run db in
  value out = Skipped "deduplication"
  /\ get_success (value out) = true
  /\ get_skipped (value out) = true
  /\ get_reason (value out) = Some "deduplication"
  /\ final out = db
  /\ trace out = [].
Proof.
  intros Hconf Hdb Hin Hok Hmsg Hts out. subst out.
  rewrite (dedup_gate_run env self db event_id new_sectors dry_run row);
    [repeat split; reflexivity | assumption.. |].
  unfold recent_alert. rewrite Hok, Hmsg, String.eqb_refl.
  apply Z.ltb_lt in Hts. by rewrite Hts.
Qed.

Lemma send_change_alert_deduplicates_witness :
  value (send_change_alert Examples.env_second_fails Examples.service
           "pq24" ["sector_b2"] false Examples.db_alerted)
  = Skipped "deduplication"
  /\ final (send_change_alert Examples.env_second_fails Examples.service
              "pq24" ["sector_b2"] false Examples.db_alerted)
     = Examples.db_alerted
  /\ trace (send_change_alert Examples.env_second_fails Examples.service
              "pq24" ["sector_b2"] false Examples.db_alerted) = [].
Proof.
  destruct (send_change_alert_deduplicates Examples.env_second_fails
              Examples.service Examples.db_alerted "pq24" ["sector_b2"]
              false Examples.alert_row)
    as [H1 [_ [_ [_ [H2 H3]]]]].
  - reflexivity.
  - reflexivity.
  - simpl. left. reflexivity.
  - reflexivity.
  - reflexivity.
  - vm_compute. reflexivity.
  - split; [exact H1 | split; [exact H2 | exact H3]].
Defined.

(** C1, as claimed: the transport is configured and the log holds a
    successful row with the alert text that is two minutes old, but the
    look-up of the log raises.  The gate then lets the call through: it is
    not skipped, the recipient is contacted and the attempt is logged. *)
Lemma failed_lookup_counterexample :
  let out := send_change_alert Examples.env_lookup_fails Examples.service
               "pq24" ["sector_b2"] false Examples.db_alerted in
  is_configured Examples.service = true
  /\ In Examples.alert_row (sms_logs Examples.db_alerted)
  /\ sl_success Examples.alert_row = true
  /\ sl_message Examples.alert_row = ALERT_MESSAGE
  /\ (utcnow Examples.env_lookup_fails Deduplication
      - timedelta_minutes DEDUPLICATION_WINDOW_MINUTES
      < sl_timestamp Examples.alert_row)%Z
  /\ get_skipped (value out) = false
  /\ get_reason (value out) = None
  /\ trace out = [ActCarrierSend "+573001234567" ALERT_MESSAGE;
                  ActLogAttempt "+573001234567" true]
  /\ length (sms_logs (final out)) = 2.
Proof.
  cbv zeta. repeat split; vm_compute; try reflexivity. by left.
Qed.

End DispatcherFacts.

Section BatchFacts.
Import Storage World Spec Sms.

Lemma fan_out_step_value env dry_run i phone results db :
  exists reason,
    value (fan_out_step env dry_run i phone results db)
    = if attempt_ok env dry_run i phone then add_sent results
      else add_failed (phone +:+ ": " +:+ reason) results.
Proof.
  unfold fan_out_step, _send_sms_to_phone, _log_sms_attempt, attempt_ok,
    bind, emit, ret, read, write, value.
  destruct dry_run; simpl.
  - exists "". by destruct (db_raises env (LogSmsAttempt i)).
  - destruct (carrier env i phone ALERT_MESSAGE) as [|msg|cls|msg]; simpl;
      try destruct (db_raises env (LogSmsAttempt i)); simpl;
      first [ by exists ""
            | by exists ("Twilio error: " +:+ msg)
            | by exists (no_attribute cls "msg")
            | by exists ("Unexpected error: " +:+ msg) ].
Qed.

Lemma fan_out_summary env dry_run phones : forall i results db,
  exists new_errors,
    value (fan_out env dry_run i phones results db)
    = {| b_success := b_success results;
         total_phones := total_phones results;
         sent_count := sent_count results + successes env dry_run i phones;
         failed_count := failed_count results + failures env dry_run i phones;
         errors := errors results ++ new_errors;
         b_dry_run := b_dry_run results |}
    /\ Forall2 names_recipient new_errors
         (failed_recipients env dry_run i phones).
Proof.
  induction phones as [|phone rest IH]; intros i results db.
  - exists []. split; [|constructor]. simpl. unfold ret, value. simpl.
    destruct results. simpl. f_equal; [lia | lia | by rewrite app_nil_r].
  - cbn [fan_out]. rewrite value_bind.
    destruct (fan_out_step_value env dry_run i phone results db)
      as [reason Hstep].
    rewrite Hstep.
    destruct (IH (S i)
                (if attempt_ok env dry_run i phone then add_sent results
                 else add_failed (phone +:+ ": " +:+ reason) results)
                (final (fan_out_step env dry_run i phone results db)))
      as [errs [Hval Hnames]].
    rewrite Hval. cbn [successes failures failed_recipients].
    destruct (attempt_ok env dry_run i phone); simpl.
    + exists errs. split; [f_equal; lia | assumption].
    + exists ((phone +:+ ": " +:+ reason) :: errs).
      split; [f_equal; [lia | by rewrite <- app_assoc]|].
      constructor; [by exists reason | assumption].
Qed.

Lemma successes_failures env dry_run phones : forall i,
  successes env dry_run i phones + failures env dry_run i phones
  = length phones.
Proof.
  induction phones as [|phone rest IH]; intros i; simpl; [reflexivity|].
  specialize (IH (S i)). destruct (attempt_ok env dry_run i phone); lia.
Qed.

Lemma length_failed_recipients env dry_run phones : forall i,
  length (failed_recipients env dry_run i phones)
  = failures env dry_run i phones.
Proof.
  induction phones as [|phone rest IH]; intros i; simpl; [reflexivity|].
  specialize (IH (S i)). destruct (attempt_ok env dry_run i phone); simpl; lia.
Qed.

Lemma dedup_keeps_db env event_id db :
  final (_should_skip_due_to_deduplication env event_id db) = db
  /\ trace (_should_skip_due_to_deduplication env event_id db) = [].
Proof.
  unfold _should_skip_due_to_deduplication.
  destruct (db_raises env Deduplication); [split; reflexivity|].
  rewrite run_bind. split; reflexivity.
Qed.

Lemma active_phones_keeps_db env db :
  final (_get_active_phone_numbers env db) = db
  /\ trace (_get_active_phone_numbers env db) = [].
Proof.
  unfold _get_active_phone_numbers.
  destruct (db_raises env ActivePhones); [split; reflexivity|].
  rewrite run_bind. split; reflexivity.
Qed.

Lemma send_change_alert_success env self event_id new_sectors dry_run db :
  is_configured self = true ->
  get_success (value (send_change_alert env self event_id new_sectors
                        dry_run db)) = true.
Proof.
  intros Hconf. unfold send_change_alert. rewrite Hconf. simpl.
  rewrite value_bind.
  destruct (value (_should_skip_due_to_deduplication env event_id db));
    [reflexivity|].
  rewrite value_bind.
  destruct (value (_get_active_phone_numbers env _)) as [|p ps] eqn:E;
    [reflexivity|].
  rewrite value_bind.
  match goal with
  | |- context [fan_out ?e ?d ?i ?l ?r ?b] =>
      destruct (fan_out_summary e d l i r b) as [errs [Hv _]]
  end.
  rewrite Hv. reflexivity.
Qed.

(** C4.  When the fan-out runs (transport configured, no deduplication skip,
    a non-empty list of active recipients), the batch result has
    [success = true], counts the recipients whose attempt succeeded and the
    ones whose attempt failed, these counts add up to the number of
    recipients, and the errors hold one entry per failed recipient, in
    order, each starting with the recipient.  The result has
    [success = false] exactly when the transport is not configured, and then
    the database is untouched and nothing is attempted. *)
Theorem send_change_alert_batch_summary
  (env : Env) (self : SMSAlertService) (db : Database)
  (event_id : string) (new_sectors : list string) (dry_run : bool) :
  let out := send_change_alert env self event_id new_sectors dry_run db in
  (forall phones,
      is_configured self = true ->
      value (_should_skip_due_to_deduplication env event_id db) = false ->
      value (_get_active_phone_numbers env db) = phones ->
      phones <> [] ->
      exists errs,
        value out
        = Batch {| b_success := true;
                   total_phones := length phones;
                   sent_count := successes env dry_run 0 phones;
                   failed_count := failures env dry_run 0 phones;
                   errors := errs;
                   b_dry_run := dry_run |}
        /\ get_success (value out) = true
        /\ successes env dry_run 0 phones + failures env dry_run 0 phones
           = length phones
        /\ length errs = failures env dry_run 0 phones
        /\ Forall2 names_recipient errs (failed_recipients env dry_run 0 phones))
  /\ (get_success (value out) = false <-> is_configured self = false)
  /\ (is_configured self = false ->
      value out = Failure "SMS service not configured"
      /\ final out = db /\ trace out = []).
Proof.
  intros out. subst out. split; [|split].
  - intros phones Hconf Hskip Hphones Hne.
    unfold send_change_alert. rewrite Hconf. simpl.
    rewrite value_bind, Hskip.
    destruct (dedup_keeps_db env event_id db) as [-> _].
    rewrite value_bind, Hphones.
    destruct (active_phones_keeps_db env db) as [-> _].
    destruct phones as [|p ps]; [by destruct Hne|].
    rewrite value_bind.
    match goal with
    | |- context [fan_out ?e ?d ?i ?l ?r ?b] =>
        destruct (fan_out_summary e d l i r b) as [errs [Hv Hnames]]
    end.
    rewrite Hv. exists errs. simpl.
    split; [reflexivity|]. split; [reflexivity|].
    split; [apply (successes_failures env dry_run (p :: ps) 0)|].
    split; [|exact Hnames].
    rewrite (Forall2_length _ _ _ Hnames).
    apply (length_failed_recipients env dry_run (p :: ps) 0).
  - destruct (is_configured self) eqn:Hconf.
    + rewrite send_change_alert_success by assumption. split; discriminate.
    + unfold send_change_alert. rewrite Hconf. simpl. split; reflexivity.
  - intros Hconf. unfold send_change_alert. rewrite Hconf. simpl.
    repeat split; reflexivity.
Qed.

Lemma send_change_alert_batch_summary_witness :
  exists errs,
    value (send_change_alert Examples.env_second_fails Examples.service
             "pq23" ["sector_1"] false Examples.db_three)
    = Batch {| b_success := true; total_phones := 3; sent_count := 2;
               failed_count := 1; errors := errs; b_dry_run := false |}
    /\ length errs = 1.
Proof.
  destruct (proj1 (send_change_alert_batch_summary Examples.env_second_fails
                     Examples.service Examples.db_three "pq23" ["sector_1"]
                     false)
              ["+573001234567"; "+573001234568"; "+573001234569"])
    as [errs [Hv [_ [_ [Hl _]]]]].
  - reflexivity.
  - reflexivity.
  - reflexivity.
  - discriminate.
  - exists errs. split; [exact Hv | exact Hl].
Defined.

End BatchFacts.

Section SecondAlert.
Import Storage World Spec Sms.

(** The row that a successful attempt at position [i] writes. *)
Lemma fan_out_step_logs env dry_run i phone results db :
  (forall r, In r (sms_logs db) ->
             In r (sms_logs (final (fan_out_step env dry_run i phone results db))))
  /\ (attempt_ok env dry_run i phone = true ->
      db_raises env (LogSmsAttempt i) = false ->
      In {| sl_phone := phone; sl_message := ALERT_MESSAGE;
            sl_timestamp := utcnow env (LogSmsAttempt i);
            sl_success := true; sl_error_message := None |}
         (sms_logs (final (fan_out_step env dry_run i phone results db)))).
Proof.
  unfold fan_out_step, _send_sms_to_phone, _log_sms_attempt, attempt_ok,
    bind, emit, ret, read, write, final.
  destruct dry_run; simpl.
  - destruct (db_raises env (LogSmsAttempt i)); simpl.
    + split; [auto | discriminate].
    + split; [intros r Hr | intros _ _]; apply in_or_app; simpl; auto.
  - destruct (carrier env i phone ALERT_MESSAGE); simpl;
      destruct (db_raises env (LogSmsAttempt i)); simpl;
      (split; [try (intros r Hr; apply in_or_app; simpl); auto |]);
      try discriminate.
    intros _ _. apply in_or_app. simpl. auto.
Qed.

Lemma fan_out_keeps_logs env dry_run phones : forall i results db r,
  In r (sms_logs db) ->
  In r (sms_logs (final (fan_out env dry_run i phones results db))).
Proof.
  induction phones as [|phone rest IH]; intros i results db r Hr;
    [assumption|].
  cbn [fan_out]. rewrite final_bind. apply IH.
  by apply (fan_out_step_logs env dry_run i phone results db).
Qed.

(** If one attempt of the fan-out succeeds and all writes of the log
    answer, the log ends with a successful row for the alert text. *)
Lemma fan_out_logs_success env dry_run phones : forall i results db,
  0 < successes env dry_run i phones ->
  (forall j, db_raises env (LogSmsAttempt j) = false) ->
  exists j phone,
    In {| sl_phone := phone; sl_message := ALERT_MESSAGE;
          sl_timestamp := utcnow env (LogSmsAttempt j);
          sl_success := true; sl_error_message := None |}
       (sms_logs (final (fan_out env dry_run i phones results db))).
Proof.
  induction phones as [|phone rest IH]; intros i results db Hs Hlog;
    simpl in Hs; [lia|].
  cbn [fan_out]. rewrite final_bind.
  destruct (attempt_ok env dry_run i phone) eqn:Hok.
  - exists i, phone. apply fan_out_keeps_logs.
    by apply (fan_out_step_logs env dry_run i phone results db).
  - apply IH; [simpl in Hs; lia | assumption].
Qed.

(** X17.  Two calls in a row: when the first call sent (or simulated) at
    least one alert and logged its attempts, a second call whose look-up
    answers within five minutes of those log rows is skipped, whatever its
    event id and its new sectors. *)
Lemma second_alert_is_skipped
  (env1 env2 : Env) (self : SMSAlertService) (db : Database)
  (event1 event2 : string) (new1 new2 : list string) (dry1 dry2 : bool)
  (results : BatchResults) :
  is_configured self = true ->
  value (send_change_alert env1 self event1 new1 dry1 db) = Batch results ->
  0 < sent_count results ->
  (forall j, db_raises env1 (LogSmsAttempt j) = false) ->
  db_raises env2 Deduplication = false ->
  (forall j, (utcnow env2 Deduplication
              - timedelta_minutes DEDUPLICATION_WINDOW_MINUTES
              < utcnow env1 (LogSmsAttempt j))%Z) ->
  send_change_alert env2 self event2 new2 dry2
    (final (send_change_alert env1 self event1 new1 dry1 db))
  = (Skipped "deduplication",
     final (send_change_alert env1 self event1 new1 dry1 db), []).
Proof.
  intros Hconf Hval Hsent Hlog Hdb Hts.
  assert (Hrow : exists j phone,
             In {| sl_phone := phone; sl_message := ALERT_MESSAGE;
                   sl_timestamp := utcnow env1 (LogSmsAttempt j);
                   sl_success := true; sl_error_message := None |}
                (sms_logs (final (send_change_alert env1 self event1 new1
                                    dry1 db)))).
  { revert Hval. unfold send_change_alert. rewrite Hconf. simpl.
    rewrite value_bind, final_bind.
    destruct (dedup_keeps_db env1 event1 db) as [-> _].
    destruct (value (_should_skip_due_to_deduplication env1 event1 db));
      [discriminate|].
    rewrite value_bind, final_bind.
    destruct (active_phones_keeps_db env1 db) as [-> _].
    destruct (value (_get_active_phone_numbers env1 db)) as [|p ps];
      [discriminate|].
    rewrite value_bind, final_bind.
    match goal with
    | |- context [fan_out ?e ?d ?i ?l ?r ?b] =>
        destruct (fan_out_summary e d l i r b) as [errs [Hv _]];
        set (run := fan_out e d i l r b) in *
    end.
    cbn [value ret fst]. intros [= <-].
    rewrite Hv in Hsent. simpl in Hsent.
    cbn [final ret fst snd]. subst run.
    by apply fan_out_logs_success. }
  destruct Hrow as [j [phone Hin]].
  apply (dedup_gate_run env2 self _ event2 new2 dry2 _ Hconf Hdb Hin).
  unfold recent_alert. cbn [sl_timestamp sl_success sl_message].
  rewrite String.eqb_refl. specialize (Hts j). apply Z.ltb_lt in Hts.
  by rewrite Hts.
Qed.

End SecondAlert.

Section RecipientFacts.
Import Text Storage World Spec Sms.

Lemma map_update_first {T U : Type} (g : T -> U) p f (rows : list T) :
  (forall r, g (f r) = g r) -> map g (update_first p f rows) = map g rows.
Proof.
  intros Hg. induction rows as [|r rows IH]; simpl; [reflexivity|].
  destruct (p r); simpl; [by rewrite Hg | by rewrite IH].
Qed.

Lemma first_update_first {T : Type} p f (rows : list T) r :
  first p rows = Some r -> p (f r) = true ->
  first p (update_first p f rows) = Some (f r).
Proof.
  unfold first. induction rows as [|x rows IH]; simpl; [discriminate|].
  destruct (p x) eqn:Hx; simpl.
  - intros [= ->] Hf. by rewrite Hf.
  - intros Hr Hf. rewrite Hx. by apply IH.
Qed.

(** The rows that the look-up does not select are left alone. *)
Lemma others_update_first {T : Type} p f (rows : list T) :
  (forall r, p r = true -> p (f r) = true) ->
  List.filter (fun r => negb (p r)) (update_first p f rows)
  = List.filter (fun r => negb (p r)) rows.
Proof.
  intros Hp. induction rows as [|x rows IH]; simpl; [reflexivity|].
  destruct (p x) eqn:Hx; simpl.
  - by rewrite (Hp x Hx).
  - by rewrite Hx, IH.
Qed.

Lemma first_None_not_in normalized rows :
  first (has_phone normalized) rows = None ->
  ~ In normalized (map ph_phone rows).
Proof.
  unfold first. intros Hnone Hin. apply in_map_iff in Hin as [r [Hr Hin]].
  pose proof (find_none _ _ Hnone r Hin) as Hf. unfold has_phone in Hf.
  rewrite Hr, String.eqb_refl in Hf. discriminate.
Qed.

Lemma first_Some_has_phone normalized rows r :
  first (has_phone normalized) rows = Some r -> ph_phone r = normalized.
Proof.
  unfold first. intros H. apply find_some in H as [_ H].
  by apply String.eqb_eq in H.
Qed.

Lemma unique_after_insert rows new_phone :
  NoDup (map ph_phone rows) ->
  first (has_phone (ph_phone new_phone)) rows = None ->
  NoDup (map ph_phone (rows ++ [new_phone])).
Proof.
  intros Hnd Hnone. rewrite map_app. simpl.
  apply NoDup_app. split; [assumption|]. split; [|apply NoDup_singleton].
  intros x Hx Hin. apply list_elem_of_singleton in Hin. subst x.
  apply list_elem_of_In in Hx. by apply first_None_not_in in Hnone.
Qed.

Lemma reactivate_keeps_phone now r : ph_phone (reactivate now r) = ph_phone r.
Proof. reflexivity. Qed.

(** C8.  [register_phone_number] keeps the addresses of the recipient table
    free of duplicates.  When the look-up and the commit answer: an address
    whose normalized form has an active row is rejected and the database is
    unchanged; one whose normalized form has an inactive row has that row
    made active with a new registration time, and no row is added or
    otherwise changed; one with no row gets a new active row at the end.
    The table grows only in that last case. *)
Theorem register_phone_number_unique
  (env : Env) (phone : string) (db : Database) :
  let out := register_phone_number env phone db in
  let normalized_phone := snd (validate_phone_number phone) in
  let existing := first (has_phone normalized_phone) (phone_numbers db) in
  (unique_phones db -> unique_phones (final out))
  /\ (forall row,
         fst (validate_phone_number phone) = true ->
         db_raises env PhoneLookup = false ->
         existing = Some row -> ph_active row = true ->
         value out = Rejected "Phone number already registered and active"
         /\ final out = db)
  /\ (forall row,
         fst (validate_phone_number phone) = true ->
         db_raises env PhoneLookup = false ->
         db_raises env PhoneCommit = false ->
         existing = Some row -> ph_active row = false ->
         value out = Done "Phone number reactivated successfully"
                       (Some normalized_phone)
         /\ first (has_phone normalized_phone) (phone_numbers (final out))
            = Some {| ph_phone := normalized_phone;
                      ph_registered_at := utcnow env PhoneCommit;
                      ph_active := true |}
         /\ map ph_phone (phone_numbers (final out))
            = map ph_phone (phone_numbers db)
         /\ List.filter (fun r => negb (has_phone normalized_phone r))
              (phone_numbers (final out))
            = List.filter (fun r => negb (has_phone normalized_phone r))
                (phone_numbers db))
  /\ (fst (validate_phone_number phone) = true ->
      db_raises env PhoneLookup = false ->
      db_raises env PhoneCommit = false ->
      existing = None ->
      value out = Done "Phone number registered successfully"
                    (Some normalized_phone)
      /\ phone_numbers (final out)
         = phone_numbers db
           ++ [ {| ph_phone := normalized_phone;
                   ph_registered_at := utcnow env PhoneCommit;
                   ph_active := true |} ])
  /\ (length (phone_numbers (final out)) <> length (phone_numbers db) ->
      fst (validate_phone_number phone) = true /\ existing = None).
Proof.
  intros out normalized_phone existing. subst out normalized_phone existing.
  unfold register_phone_number.
  destruct (validate_phone_number phone) as [is_valid normalized_phone].
  cbn [fst snd].
  destruct is_valid; cbn [negb];
    [|unfold ret, value, final; simpl;
      repeat split; try discriminate; auto; intros; congruence].
  destruct (db_raises env PhoneLookup);
    [unfold ret, value, final; simpl;
     repeat split; try discriminate; auto; intros; congruence|].
  unfold bind, read, write, ret, value, final. simpl.
  destruct (first (has_phone normalized_phone) (phone_numbers db))
    as [row|] eqn:Hfirst.
  - pose proof (first_Some_has_phone _ _ _ Hfirst) as Hphone.
    destruct (ph_active row) eqn:Hact; simpl.
    { repeat split; try discriminate; auto; intros; congruence. }
    destruct (db_raises env PhoneCommit); simpl.
    { repeat split; try discriminate; auto; intros; congruence. }
    split; [|split; [|split; [|split]]].
    + unfold unique_phones. simpl. by rewrite map_update_first.
    + intros r _ _ [= <-] Hr. congruence.
    + intros r _ _ _ [= <-] _. split; [reflexivity|]. split; [|split].
      * rewrite (first_update_first _ _ _ row Hfirst).
        -- unfold reactivate. by rewrite Hphone.
        -- unfold has_phone, reactivate. simpl.
           by rewrite Hphone, String.eqb_refl.
      * by apply map_update_first.
      * by apply others_update_first.
    + discriminate.
    + intros Hlen. exfalso. apply Hlen.
      rewrite <- (length_map ph_phone), map_update_first by reflexivity.
      apply length_map.
  - destruct (db_raises env PhoneCommit); simpl.
    { repeat split; try discriminate; auto; intros; congruence. }
    split; [|split; [|split; [|split]]].
    + unfold unique_phones. simpl. intros Hnd.
      by apply unique_after_insert.
    + discriminate.
    + discriminate.
    + auto.
    + auto.
Qed.

Lemma register_phone_number_unique_witness :
  value (register_phone_number Examples.env_second_fails "3001234567"
           Examples.db_inactive)
  = Done "Phone number reactivated successfully" (Some "+573001234567")
  /\ unique_phones (final (register_phone_number Examples.env_second_fails
                             "3001234567" Examples.db_inactive)).
Proof.
  destruct (register_phone_number_unique Examples.env_second_fails
              "3001234567" Examples.db_inactive) as [Hu [_ [Hre _]]].
  split.
  - destruct (Hre (Examples.recipient "+573001234567" false)) as [Hv _].
    + vm_compute. reflexivity.
    + reflexivity.
    + reflexivity.
    + vm_compute. reflexivity.
    + reflexivity.
    + exact Hv.
  - apply Hu. unfold unique_phones. simpl. apply NoDup_singleton.
Defined.

End RecipientFacts.

(* ===================================================================== *)
(** * The monitoring cycle                                               *)
(* ===================================================================== *)

Section CycleFacts.
Import Storage World Spec Monitor.

Lemma only_logs_refl db : only_logs_differ db db.
Proof. repeat split. Qed.

Lemma only_logs_trans db1 db2 db3 :
  only_logs_differ db1 db2 -> only_logs_differ db2 db3 ->
  only_logs_differ db1 db3.
Proof.
  intros [? [? [? ?]]] [? [? [? ?]]]. repeat split; congruence.
Qed.

Lemma log_sms_attempt_only_logs env i phone message ok err db :
  only_logs_differ db (final (Sms._log_sms_attempt env i phone message ok err db)).
Proof.
  unfold Sms._log_sms_attempt, bind, emit, ret, read, write, final.
  destruct (db_raises env (LogSmsAttempt i)); simpl; repeat split.
Qed.

Lemma fan_out_step_only_logs env dry_run i phone results db :
  only_logs_differ db (final (Sms.fan_out_step env dry_run i phone results db)).
Proof.
  unfold Sms.fan_out_step, Sms._send_sms_to_phone, Sms._log_sms_attempt,
    bind, emit, ret, read, write, final.
  destruct dry_run; simpl.
  - destruct (db_raises env (LogSmsAttempt i)); simpl; repeat split.
  - destruct (carrier env i phone Sms.ALERT_MESSAGE); simpl;
      destruct (db_raises env (LogSmsAttempt i)); simpl; repeat split.
Qed.

Lemma fan_out_only_logs env dry_run phones : forall i results db,
  only_logs_differ db (final (Sms.fan_out env dry_run i phones results db)).
Proof.
  induction phones as [|phone rest IH]; intros i results db.
  - apply only_logs_refl.
  - cbn [Sms.fan_out]. rewrite final_bind.
    eapply only_logs_trans; [apply fan_out_step_only_logs | apply IH].
Qed.

Lemma send_change_alert_only_logs env svc event_id new_sectors dry_run db :
  only_logs_differ db
    (final (Sms.send_change_alert env svc event_id new_sectors dry_run db)).
Proof.
  unfold Sms.send_change_alert.
  destruct (Sms.is_configured svc); simpl; [|apply only_logs_refl].
  rewrite final_bind.
  destruct (dedup_keeps_db env event_id db) as [-> _].
  destruct (value (Sms._should_skip_due_to_deduplication env event_id db));
    [apply only_logs_refl|].
  rewrite final_bind.
  destruct (active_phones_keeps_db env db) as [-> _].
  destruct (value (Sms._get_active_phone_numbers env db)) as [|p ps];
    [apply only_logs_refl|].
  rewrite final_bind. apply fan_out_only_logs.
Qed.

Lemma scrape_event_run env event_url event_id raw_sectors db :
  page env event_url = Some raw_sectors ->
  scrape_event env event_url event_id db
  = (Some (elements (Parse.normalize_sectors raw_sectors)), db,
     [ActObserve event_id; ActNormalize event_id]).
Proof.
  intros Hpage. unfold scrape_event. rewrite Hpage. reflexivity.
Qed.

Lemma get_previous_run env event_id db :
  final (_get_previous_snapshot env event_id db) = db
  /\ trace (_get_previous_snapshot env event_id db) = [ActReadPrevious event_id].
Proof.
  unfold _get_previous_snapshot, bind, emit, read, ret, final, trace.
  destruct (db_raises env GetPreviousSnapshot); simpl; [split; reflexivity|].
  destruct (latest _); split; reflexivity.
Qed.

Lemma save_snapshot_run env event_id sectors db :
  trace (_save_snapshot env event_id sectors db) = [ActSaveSnapshot event_id]
  /\ final (_save_snapshot env event_id sectors db)
     = if db_raises env SaveSnapshot then db
       else set_snapshots
              (snapshots db
               ++ [ {| sn_event_id := event_id; sn_sectors_data := sectors;
                       sn_timestamp := utcnow env SaveSnapshot |} ]) db.
Proof.
  unfold _save_snapshot, bind, emit, read, write, ret, final, trace.
  destruct (db_raises env SaveSnapshot); split; reflexivity.
Qed.

Lemma update_timestamp_run env event_id db :
  trace (_update_event_timestamp env event_id db) = [ActUpdateTimestamp event_id]
  /\ snapshots (final (_update_event_timestamp env event_id db)) = snapshots db.
Proof.
  unfold _update_event_timestamp, bind, emit, read, write, ret, final, trace.
  destruct (db_raises env UpdateEventTimestamp); split; reflexivity.
Qed.

Lemma log_change_run env self event_id new_sectors db :
  trace (_log_change env self event_id new_sectors db) = [ActLogChange event_id]
  /\ snapshots (final (_log_change env self event_id new_sectors db))
     = snapshots db.
Proof.
  unfold _log_change, bind, emit, read, write, ret, final, trace.
  destruct (db_raises env LogChange); split; reflexivity.
Qed.

(** The run of a cycle whose observation succeeds. *)
Lemma monitor_single_event_run env self event_id event_url db raw_sectors :
  browser_start env = None ->
  page env event_url = Some raw_sectors ->
  let current_sectors := elements (Parse.normalize_sectors raw_sectors) in
  let previous := value (_get_previous_snapshot env event_id db) in
  let change_info :=
    Diff.detect_changes (utcnow env DetectChanges) previous
      (list_to_set current_sectors) in
  let db1 := final (_save_snapshot env event_id current_sectors db) in
  let db2 := final (_update_event_timestamp env event_id db1) in
  let db3 := final (_log_change env self event_id
                      (Diff.new_sectors change_info) db2) in
  let alert := Sms.send_change_alert env (sms_service self) event_id
                 (Diff.new_sectors change_info) (dry_run self) db3 in
  let out := monitor_single_event env self event_id event_url db in
  success (value out) = true
  /\ error (value out) = None
  /\ new_sectors (value out) = Diff.new_sectors change_info
  /\ (if Diff.should_send_alert change_info
      then final out = final alert
           /\ trace out
              = [ActObserve event_id; ActNormalize event_id;
                 ActReadPrevious event_id; ActDetect event_id;
                 ActSaveSnapshot event_id; ActUpdateTimestamp event_id;
                 ActLogChange event_id; ActDispatchAlert event_id]
                ++ trace alert
      else final out = db2
           /\ trace out
              = [ActObserve event_id; ActNormalize event_id;
                 ActReadPrevious event_id; ActDetect event_id;
                 ActSaveSnapshot event_id; ActUpdateTimestamp event_id]).
Proof.
  intros Hb Hpage. cbv zeta. unfold monitor_single_event. rewrite Hb.
  rewrite run_bind, (scrape_event_run _ _ _ _ _ Hpage).
  cbn [value final trace fst snd].
  destruct (get_previous_run env event_id db) as [Hpf Hpt].
  rewrite run_bind, Hpf, Hpt. cbn [value final trace fst snd].
  rewrite run_bind. cbn [value final trace fst snd emit].
  rewrite run_bind.
  destruct (save_snapshot_run env event_id
              (elements (Parse.normalize_sectors raw_sectors)) db) as [Hst _].
  rewrite Hst. cbn [value final trace fst snd].
  rewrite run_bind.
  destruct (update_timestamp_run env event_id
              (final (_save_snapshot env event_id
                        (elements (Parse.normalize_sectors raw_sectors)) db)))
    as [Hut _].
  rewrite Hut. cbn [value final trace fst snd].
  rewrite run_bind.
  destruct (Diff.should_send_alert _) eqn:Halert.
  - rewrite !run_bind.
    match goal with
    | |- context [_log_change ?e ?s ?i ?n ?d] =>
        destruct (log_change_run e s i n d) as [Hlt _]
    end.
    rewrite Hlt. cbn [value final trace fst snd emit ret with_success
                        with_sms_sent with_changes success error new_sectors].
    rewrite !app_nil_r. repeat split; reflexivity.
  - cbn [value final trace fst snd emit ret with_success
           with_sms_sent with_changes success error new_sectors].
    repeat split; reflexivity.
Qed.

End CycleFacts.

Section CycleOrder.
Import Storage World Spec Monitor.

Lemma precedes_intro a b l1 : forall l2 l3,
  precedes a b (l1 ++ a :: l2 ++ b :: l3) = true.
Proof.
  induction l1 as [|x l1 IH]; intros l2 l3; simpl.
  - rewrite bool_decide_eq_true_2 by reflexivity.
    rewrite bool_decide_eq_true_2; [reflexivity|].
    apply elem_of_app. right. apply list_elem_of_here.
  - rewrite IH. apply orb_true_r.
Qed.

(** C5, as the code has it.  In a cycle whose observation succeeds and that
    reports new sectors, the actions are, in this order: observe, normalize,
    read the previous snapshot, detect, persist the new snapshot, update the
    last-checked timestamp, persist the change record, dispatch the alert
    (followed by the actions of the dispatcher). *)
Theorem monitor_single_event_order
  (env : Env) (self : TicketmasterMonitor) (event_id event_url : string)
  (db : Database) (raw_sectors : list Parse.Sector) :
  browser_start env = None ->
  page env event_url = Some raw_sectors ->
  new_sectors (value (monitor_single_event env self event_id event_url db)) <> [] ->
  (exists alert_actions,
      trace (monitor_single_event env self event_id event_url db)
      = [ActObserve event_id; ActNormalize event_id;
         ActReadPrevious event_id; ActDetect event_id;
         ActSaveSnapshot event_id; ActUpdateTimestamp event_id;
         ActLogChange event_id; ActDispatchAlert event_id]
        ++ alert_actions)
  /\ snapshot_first event_id
       (trace (monitor_single_event env self event_id event_url db)) = true.
Proof.
  intros Hb Hpage Hnew.
  destruct (monitor_single_event_run env self event_id event_url db raw_sectors
              Hb Hpage) as [_ [_ [Hns Hrun]]].
  rewrite Hns in Hnew.
  assert (Halert : Diff.should_send_alert
            (Diff.detect_changes (utcnow env DetectChanges)
               (value (_get_previous_snapshot env event_id db))
               (list_to_set (elements (Parse.normalize_sectors raw_sectors))))
          = true).
  { unfold Diff.should_send_alert. apply Nat.ltb_lt.
    destruct (Diff.new_sectors _); [by destruct Hnew | simpl; lia]. }
  rewrite Halert in Hrun. destruct Hrun as [_ Htrace].
  split; [eexists; exact Htrace|].
  rewrite Htrace. unfold snapshot_first.
  set (tail := trace _). rewrite !andb_true_iff. repeat split.
  - exact (precedes_intro _ _ [] [] _).
  - exact (precedes_intro _ _ [_] [_] _).
  - exact (precedes_intro _ _ [_; _; _] [] _).
  - exact (precedes_intro _ _ [_; _; _; _] [] _).
  - exact (precedes_intro _ _ [_; _; _; _; _] [] _).
  - exact (precedes_intro _ _ [_; _; _; _; _; _] [] _).
Qed.

Lemma monitor_single_event_order_witness :
  snapshot_first "pq23"
    (trace (monitor_single_event Examples.env_second_fails Examples.monitor
              "pq23" Examples.url_pq23 Examples.db_three)) = true.
Proof.
  apply (monitor_single_event_order Examples.env_second_fails Examples.monitor
           "pq23" Examples.url_pq23 Examples.db_three [Examples.sector_1]).
  - reflexivity.
  - reflexivity.
  - vm_compute. discriminate.
Defined.

(** C5, as claimed: in this cycle one new sector is found, and the change
    record and the alert do not come before the snapshot and the
    timestamp. *)
Lemma change_record_first_counterexample :
  let out := monitor_single_event Examples.env_second_fails Examples.monitor
               "pq23" Examples.url_pq23 Examples.db_three in
  new_sectors (value out) = ["sector_1"]
  /\ trace out
     = [ActObserve "pq23"; ActNormalize "pq23"; ActReadPrevious "pq23";
        ActDetect "pq23"; ActSaveSnapshot "pq23"; ActUpdateTimestamp "pq23";
        ActLogChange "pq23"; ActDispatchAlert "pq23";
        ActCarrierSend "+573001234567" Sms.ALERT_MESSAGE;
        ActLogAttempt "+573001234567" true;
        ActCarrierSend "+573001234568" Sms.ALERT_MESSAGE;
        ActLogAttempt "+573001234568" false;
        ActCarrierSend "+573001234569" Sms.ALERT_MESSAGE;
        ActLogAttempt "+573001234569" true]
  /\ change_record_first "pq23" (trace out) = false
  /\ precedes (ActLogChange "pq23") (ActSaveSnapshot "pq23") (trace out) = false
  /\ precedes (ActDispatchAlert "pq23") (ActUpdateTimestamp "pq23") (trace out)
     = false.
Proof.
  cbv zeta. repeat split; vm_compute; reflexivity.
Qed.

(** C6, as the code has it.  When the observation succeeds and the write of
    the new snapshot raises, the exception stays inside [_save_snapshot]:
    the cycle goes on and its result has [success = true] and no error,
    while the snapshot table is unchanged. *)
Theorem failed_snapshot_write_reported_success
  (env : Env) (self : TicketmasterMonitor) (event_id event_url : string)
  (db : Database) (raw_sectors : list Parse.Sector) :
  browser_start env = None ->
  page env event_url = Some raw_sectors ->
  db_raises env SaveSnapshot = true ->
  success (value (monitor_single_event env self event_id event_url db)) = true
  /\ error (value (monitor_single_event env self event_id event_url db)) = None
  /\ snapshots (final (monitor_single_event env self event_id event_url db))
     = snapshots db.
Proof.
  intros Hb Hpage Hraise.
  destruct (monitor_single_event_run env self event_id event_url db raw_sectors
              Hb Hpage) as [Hs [He [_ Hrun]]].
  split; [exact Hs|]. split; [exact He|].
  match type of Hrun with
  | context [_save_snapshot ?e ?i ?s ?d] =>
      destruct (save_snapshot_run e i s d) as [_ Hsave]
  end.
  rewrite Hraise in Hsave.
  destruct (Diff.should_send_alert _).
  - destruct Hrun as [-> _].
    match goal with
    | |- context [Sms.send_change_alert ?e ?s ?i ?n ?d ?b] =>
        destruct (send_change_alert_only_logs e s i n d b) as [_ [-> _]]
    end.
    match goal with
    | |- context [_log_change ?e ?s ?i ?n ?d] =>
        destruct (log_change_run e s i n d) as [_ ->]
    end.
    match goal with
    | |- context [_update_event_timestamp ?e ?i ?d] =>
        destruct (update_timestamp_run e i d) as [_ ->]
    end.
    by rewrite Hsave.
  - destruct Hrun as [-> _].
    match goal with
    | |- context [_update_event_timestamp ?e ?i ?d] =>
        destruct (update_timestamp_run e i d) as [_ ->]
    end.
    by rewrite Hsave.
Qed.

Lemma failed_snapshot_write_reported_success_witness :
  success (value (monitor_single_event Examples.env_snapshot_fails
                    Examples.monitor "pq23" Examples.url_pq23
                    Examples.db_three)) = true.
Proof.
  apply (failed_snapshot_write_reported_success Examples.env_snapshot_fails
           Examples.monitor "pq23" Examples.url_pq23 Examples.db_three
           [Examples.sector_1]); reflexivity.
Defined.

(** C6, as claimed: here the write of the snapshot raises, no snapshot is
    stored, and the cycle is reported as successful all the same. *)
Lemma failed_snapshot_write_counterexample :
  let out := monitor_single_event Examples.env_snapshot_fails Examples.monitor
               "pq23" Examples.url_pq23 Examples.db_three in
  db_raises Examples.env_snapshot_fails SaveSnapshot = true
  /\ snapshots (final out) = []
  /\ success (value out) = true
  /\ error (value out) = None.
Proof.
  cbv zeta. repeat split; vm_compute; reflexivity.
Qed.

End CycleOrder.

(* ===================================================================== *)
(** * More on the sector parser                                          *)
(* ===================================================================== *)

Section CharFacts.
Import Text Notions.

(** A property checked on the 256 characters holds of every character. *)
Lemma every_char (P : ascii -> bool) :
  List.forallb P all_chars = true -> forall c, P c = true.
Proof.
  intros H c. rewrite forallb_forall in H. apply H. unfold all_chars.
  apply in_map_iff. exists (nat_of_ascii c).
  split; [apply ascii_nat_embedding|].
  apply in_seq. pose proof (nat_ascii_bounded c). lia.
Qed.

Lemma lower_char_idem c : lower_char (lower_char c) = lower_char c.
Proof.
  apply Ascii.eqb_eq. revert c. apply every_char. vm_compute. reflexivity.
Qed.

Lemma lower_idem s : lower (lower s) = lower s.
Proof.
  induction s as [|c s IH]; simpl; [reflexivity|].
  by rewrite lower_char_idem, IH.
Qed.

Lemma id_char_lower c :
  (is_word c || is_hyphen c) && negb (is_space c) = true ->
  id_char (lower_char c) = true.
Proof.
  revert c.
  assert (H : forall c,
             implb ((is_word c || is_hyphen c) && negb (is_space c))
               (id_char (lower_char c)) = true).
  { apply every_char. vm_compute. reflexivity. }
  intros c Hc. specialize (H c). rewrite Hc in H. exact H.
Qed.

End CharFacts.

Section ClassifierFacts.
Import Text Parse Notions.

Lemma get_lower (sector : Sector) key :
  get (lower <$> sector) key "" = lower (get sector key "").
Proof.
  unfold get. rewrite lookup_fmap. by destruct (sector !! key).
Qed.

(** X1.  The availability of a sector does not depend on the letter case of
    its attributes: lower-casing every attribute value leaves the
    classification unchanged. *)
Theorem is_sector_available_ignores_case (sector : Sector) :
  _is_sector_available (lower <$> sector) = _is_sector_available sector.
Proof.
  unfold _is_sector_available. rewrite !get_lower, !lower_idem. reflexivity.
Qed.

(** X2.  "unavailable" contains "available", and the available words are
    looked for first: a sector whose label contains "unavailable" is
    classified available; and when the label holds none of the words of
    either list, a sector whose class names contain "unavailable" is
    classified available too. *)
Theorem unavailable_is_available (sector : Sector) :
  (contains "unavailable" (lower (get sector "aria_label" "")) = true ->
   _is_sector_available sector = true)
  /\ (any_in available_indicators (lower (get sector "aria_label" "")) = false ->
      any_in unavailable_indicators (lower (get sector "aria_label" "")) = false ->
      contains "unavailable" (lower (get sector "class_names" "")) = true ->
      _is_sector_available sector = true).
Proof.
  split.
  - intros H. apply (contains_longer "un" "available" "") in H.
    unfold _is_sector_available, any_in, available_indicators.
    cbn [existsb]. rewrite H, !orb_true_r. reflexivity.
  - intros Ha Hu H. apply (contains_longer "un" "available" "") in H.
    unfold _is_sector_available. rewrite Ha, Hu, H. reflexivity.
Qed.

Lemma unavailable_is_available_witness :
  _is_sector_available
    (<["id" := "sector_2"]>
       (<["class_names" := "sector disabled unavailable"]>
          {[ "aria_label" := "" ]})) = true.
Proof.
  apply (proj2 (unavailable_is_available
                  (<["id" := "sector_2"]>
                     (<["class_names" := "sector disabled unavailable"]>
                        {[ "aria_label" := "" ]}))));
    vm_compute; reflexivity.
Defined.

End ClassifierFacts.

Section NormalizerFacts.
Import Text Parse Spec Notions.

Lemma normalize_elem raws cid :
  cid ∈ normalize_sectors raws
  <-> exists sector, sector ∈ raws /\ contributes sector cid.
Proof.
  unfold normalize_sectors. rewrite normalize_fold_elem.
  split; [|auto]. intros [H|H]; [|assumption]. by apply not_elem_of_empty in H.
Qed.

Lemma normalize_step_size acc sector :
  size (normalize_step acc sector) <= S (size acc).
Proof.
  unfold normalize_step.
  destruct (_is_sector_available sector); [|lia].
  destruct (truthy (_extract_sector_id sector)); [|lia].
  destruct (_extract_sector_id sector) as [i|]; [|lia].
  etrans; [apply (subseteq_size _ ({[ i ]} ∪ acc))|].
  - intros x. rewrite !elem_of_union. tauto.
  - destruct (decide (i ∈ acc)) as [Hi|Hi].
    + replace ({[ i ]} ∪ acc) with acc; [lia|].
      apply set_eq. intros x. rewrite elem_of_union, elem_of_singleton.
      split; [auto|]. intros [-> | H]; assumption.
    + rewrite size_union, size_singleton; [lia|].
      intros x. rewrite elem_of_singleton. intros -> H. by apply Hi.
Qed.

Lemma normalize_fold_size raws : forall acc,
  size (fold_left normalize_step raws acc) <= size acc + length raws.
Proof.
  induction raws as [|r raws IH]; intros acc; simpl; [lia|].
  specialize (IH (normalize_step acc r)).
  pose proof (normalize_step_size acc r). lia.
Qed.

(** X3.  The output of [normalize_sectors] depends on the raw items as a
    set: the items of two lists give the union of their outputs, so the
    order of the items and repeated items make no difference; and there are
    never more identifiers than raw items. *)
Theorem normalize_sectors_union (raws1 raws2 : list Sector) :
  normalize_sectors (raws1 ++ raws2)
  = normalize_sectors raws1 ∪ normalize_sectors raws2
  /\ normalize_sectors (raws1 ++ raws2) = normalize_sectors (raws2 ++ raws1)
  /\ normalize_sectors (raws1 ++ raws1) = normalize_sectors raws1
  /\ size (normalize_sectors raws1) <= length raws1.
Proof.
  assert (Happ : forall l1 l2 : list Sector,
             normalize_sectors (l1 ++ l2)
             = normalize_sectors l1 ∪ normalize_sectors l2).
  { intros l1 l2. apply set_eq. intros cid.
    rewrite elem_of_union, !normalize_elem. split.
    - intros [s [Hs Hc]]. apply elem_of_app in Hs as [Hs|Hs];
        [left | right]; by exists s.
    - intros [[s [Hs Hc]]|[s [Hs Hc]]]; exists s;
        (split; [apply elem_of_app; auto | assumption]). }
  split; [apply Happ|]. split; [|split].
  - rewrite !Happ. apply (comm_L (∪)).
  - rewrite Happ. apply (idemp_L (∪)).
  - pose proof (normalize_fold_size raws1 ∅) as H.
    rewrite size_empty in H. exact H.
Qed.

Lemma forallb_lstrip p s : forallb p s = true -> forallb p (lstrip s) = true.
Proof.
  induction s as [|c s IH]; simpl; [auto|].
  intros [Hc Hs]%andb_true_iff.
  destruct (is_space c); [auto | simpl; by rewrite Hc, Hs].
Qed.

Lemma forallb_rstrip p s : forallb p s = true -> forallb p (rstrip s) = true.
Proof.
  induction s as [|c s IH]; simpl; [auto|].
  intros [Hc Hs]%andb_true_iff.
  destruct (is_space c && is_empty (rstrip s)); [reflexivity|].
  simpl. by rewrite Hc, IH.
Qed.

(** After the runs of whitespace have been replaced, what is left of a text
    of kept characters are word characters and hyphens. *)
Lemma collapse_chars s : forall in_run,
  forallb kept_in_id s = true ->
  forallb (fun c => (is_word c || is_hyphen c) && negb (is_space c))
    (re_sub_run is_space "_" in_run s) = true.
Proof.
  induction s as [|c s IH]; intros in_run; simpl; [auto|].
  intros [Hc Hs]%andb_true_iff.
  destruct (is_space c) eqn:Hsp.
  - destruct in_run; [by apply IH|]. simpl. by apply IH.
  - simpl. rewrite IH by assumption. rewrite Hsp.
    unfold kept_in_id in Hc. unfold is_word. rewrite Hsp in Hc.
    rewrite orb_false_r in Hc. by rewrite Hc.
Qed.

Lemma forallb_lower p q s :
  (forall c, p c = true -> q (lower_char c) = true) ->
  forallb p s = true -> forallb q (lower s) = true.
Proof.
  intros Hpq. induction s as [|c s IH]; simpl; [auto|].
  intros [Hc Hs]%andb_true_iff. by rewrite (Hpq c Hc), IH.
Qed.

Lemma clean_id_chars raw : forallb id_char (clean_id raw) = true.
Proof.
  unfold clean_id.
  apply (forallb_lower _ _ _ id_char_lower).
  apply collapse_chars. unfold strip.
  apply forallb_rstrip, forallb_lstrip.
  rewrite (re_sub_class_delete _ kept_in_id) by apply kept_in_id_class.
  apply forallb_filter_str.
Qed.

Lemma lower_fixed s :
  forallb (fun c => Ascii.eqb (lower_char c) c) s = true -> lower s = s.
Proof.
  induction s as [|c s IH]; simpl; [auto|].
  intros [Hc%Ascii.eqb_eq Hs]%andb_true_iff. by rewrite Hc, IH.
Qed.

Lemma id_char_sector_id_char c :
  id_char c = true -> sector_id_char c = true.
Proof.
  assert (H : forall c, implb (id_char c) (sector_id_char c) = true).
  { apply every_char. vm_compute. reflexivity. }
  intros Hc. specialize (H c). by rewrite Hc in H.
Qed.

(** X4.  Every identifier in the output of [normalize_sectors] is not
    empty, has no whitespace in it, is left alone by lower-casing, and its
    ASCII characters are among a-z, 0-9, [_] and [-]. *)
Theorem normalized_ids_well_formed (raws : list Sector) (cid : string) :
  cid ∈ normalize_sectors raws ->
  cid <> ""
  /\ forallb sector_id_char cid = true
  /\ lower cid = cid.
Proof.
  intros H. apply normalize_elem in H
    as [s [_ [raw [_ [_ [_ [-> Hne]]]]]]].
  split; [assumption|]. rewrite <- clean_id_canonical.
  pose proof (clean_id_chars raw) as Hid. split.
  - revert Hid. apply forallb_impl_str, id_char_sector_id_char.
  - apply lower_fixed. revert Hid. apply forallb_impl_str.
    intros c. unfold id_char. by intros [_ Hc]%andb_true_iff.
Qed.

Lemma normalized_ids_well_formed_witness :
  "sector_a-1_premium"
    ∈ normalize_sectors
        [ <["id" := "Sector A-1 (Premium)!"]> {[ "data_status" := "enabled" ]} ]
  /\ forallb sector_id_char "sector_a-1_premium" = true.
Proof.
  assert (H : "sector_a-1_premium"
              ∈ normalize_sectors
                  [ <["id" := "Sector A-1 (Premium)!"]>
                      {[ "data_status" := "enabled" ]} ]).
  { vm_compute. reflexivity. }
  split; [exact H|].
  exact (proj1 (proj2 (normalized_ids_well_formed _ _ H))).
Defined.

Lemma filter_all_str p s : forallb p s = true -> Text.filter p s = s.
Proof.
  induction s as [|c s IH]; simpl; [auto|].
  intros [Hc Hs]%andb_true_iff. by rewrite Hc, IH.
Qed.

Lemma lstrip_no_space s :
  forallb (fun c => negb (is_space c)) s = true -> lstrip s = s.
Proof.
  destruct s as [|c s]; simpl; [auto|].
  intros [Hc _]%andb_true_iff. by destruct (is_space c).
Qed.

Lemma rstrip_no_space s :
  forallb (fun c => negb (is_space c)) s = true -> rstrip s = s.
Proof.
  induction s as [|c s IH]; simpl; [auto|].
  intros [Hc Hs]%andb_true_iff. rewrite IH by assumption.
  by destruct (is_space c).
Qed.

Lemma collapse_no_space s :
  forallb (fun c => negb (is_space c)) s = true ->
  re_sub_run is_space "_" false s = s.
Proof.
  induction s as [|c s IH]; simpl; [auto|].
  intros [Hc Hs]%andb_true_iff. rewrite IH by assumption.
  by destruct (is_space c).
Qed.

Lemma forallb_filter_keeps p q s :
  forallb p s = true -> forallb p (Text.filter q s) = true.
Proof.
  induction s as [|c s IH]; simpl; [auto|].
  intros [Hc Hs]%andb_true_iff.
  destruct (q c); simpl; [by rewrite Hc, IH | auto].
Qed.

Lemma forallb_collapse p s : forall in_run,
  p "_"%char = true -> forallb p s = true ->
  forallb p (re_sub_run is_space "_" in_run s) = true.
Proof.
  induction s as [|c s IH]; intros in_run Hu; simpl; [auto|].
  intros [Hc Hs]%andb_true_iff.
  destruct (is_space c); [destruct in_run|]; simpl;
    rewrite ?Hu, ?Hc, IH; auto.
Qed.

Lemma forallb_both p q s :
  forallb p s = true -> forallb q s = true ->
  forallb (fun c => p c && q c) s = true.
Proof.
  induction s as [|c s IH]; simpl; [auto|].
  intros [Hp Hs]%andb_true_iff [Hq Hs']%andb_true_iff.
  by rewrite Hp, Hq, IH.
Qed.

Lemma lower_char_ascii c : is_ascii c = true -> is_ascii (lower_char c) = true.
Proof.
  assert (H : forall c, implb (is_ascii c) (is_ascii (lower_char c)) = true).
  { apply every_char. vm_compute. reflexivity. }
  intros Hc. specialize (H c). by rewrite Hc in H.
Qed.

Lemma ascii_id_char_plain c :
  is_ascii c && id_char c = true -> is_plain_id_char c = true.
Proof.
  assert (H : forall c, implb (is_ascii c && id_char c)
                          (is_plain_id_char c) = true).
  { apply every_char. vm_compute. reflexivity. }
  intros Hc. specialize (H c). by rewrite Hc in H.
Qed.

(** What the clean-up relies on for a character among a-z, 0-9, [_] and
    [-]: it is kept, it is not whitespace and it is in lower case. *)
Lemma plain_id_char_stable c :
  is_plain_id_char c = true ->
  kept_in_id c = true /\ negb (is_space c) = true
  /\ Ascii.eqb (lower_char c) c = true.
Proof.
  assert (H : forall c,
             implb (is_plain_id_char c)
               (kept_in_id c && negb (is_space c)
                && Ascii.eqb (lower_char c) c) = true).
  { apply every_char. vm_compute. reflexivity. }
  intros Hc. specialize (H c). rewrite Hc in H. simpl in H.
  apply andb_true_iff in H as [[H1 H2]%andb_true_iff H3]. auto.
Qed.

(** The clean-up of ASCII text consists of a-z, 0-9, [_] and [-]. *)
Lemma clean_id_plain raw :
  forallb is_ascii raw = true ->
  forallb is_plain_id_char (clean_id raw) = true.
Proof.
  intros Ha.
  apply (forallb_impl_str (fun c => is_ascii c && id_char c));
    [apply ascii_id_char_plain|].
  apply forallb_both; [|apply clean_id_chars].
  unfold clean_id.
  apply (forallb_lower is_ascii); [apply lower_char_ascii|].
  apply forallb_collapse; [reflexivity|]. unfold strip.
  apply forallb_rstrip, forallb_lstrip.
  rewrite (re_sub_class_delete _ kept_in_id) by apply kept_in_id_class.
  by apply forallb_filter_keeps.
Qed.

(** X5.  On a raw identifier of ASCII characters the clean-up is
    idempotent: the cleaned identifier consists of a-z, 0-9, [_] and [-]
    and is its own clean-up.  (Beyond Latin-1, lower-casing can bring in a
    character that a second clean-up removes.) *)
Theorem clean_id_idempotent (raw : string) :
  forallb is_ascii raw = true ->
  forallb is_plain_id_char (clean_id raw) = true
  /\ clean_id (clean_id raw) = clean_id raw.
Proof.
  intros Ha. pose proof (clean_id_plain raw Ha) as H. split; [exact H|].
  set (x := clean_id raw) in *.
  assert (Hk : forallb kept_in_id x = true).
  { revert H. apply forallb_impl_str. intros c Hc.
    by destruct (plain_id_char_stable c Hc) as [? [? ?]]. }
  assert (Hs : forallb (fun c => negb (is_space c)) x = true).
  { revert H. apply forallb_impl_str. intros c Hc.
    by destruct (plain_id_char_stable c Hc) as [? [? ?]]. }
  assert (Hl : forallb (fun c => Ascii.eqb (lower_char c) c) x = true).
  { revert H. apply forallb_impl_str. intros c Hc.
    by destruct (plain_id_char_stable c Hc) as [? [? ?]]. }
  unfold clean_id at 1.
  rewrite (re_sub_class_delete _ kept_in_id) by apply kept_in_id_class.
  rewrite (filter_all_str _ _ Hk). unfold strip, re_sub_class_plus.
  rewrite (lstrip_no_space _ Hs), (rstrip_no_space _ Hs),
    (collapse_no_space _ Hs). by apply lower_fixed.
Qed.

Lemma clean_id_idempotent_witness :
  clean_id (clean_id "Sector A-1 (Premium)!") = clean_id "Sector A-1 (Premium)!".
Proof.
  apply (clean_id_idempotent "Sector A-1 (Premium)!"). reflexivity.
Defined.

End NormalizerFacts.

(* ===================================================================== *)
(** * More on the change detector                                        *)
(* ===================================================================== *)

Section DetectorFacts.
Import Diff.
Implicit Types A B : gset string.

Lemma size_split A B : size B = size (B ∖ A) + size (B ∩ A).
Proof.
  rewrite <- size_union.
  - f_equal. apply set_eq. intros x.
    rewrite elem_of_union, elem_of_difference, elem_of_intersection.
    destruct (decide (x ∈ A)); tauto.
  - intros x. rewrite elem_of_difference, elem_of_intersection. tauto.
Qed.

(** X6.  [has_changes] is false exactly when the two snapshots are the same
    set. *)
Theorem has_changes_false_iff_equal (now : Z) A B :
  has_changes (detect_changes now A B) = false <-> A = B.
Proof.
  change (Nat.ltb 0 (size (B ∖ A)) || Nat.ltb 0 (size (A ∖ B)) = false
          <-> A = B).
  rewrite orb_false_iff, <- !not_true_iff_false, !ltb_size_nonempty.
  split.
  - intros [H1 H2]. apply set_eq. intros x.
    destruct (decide (B ∖ A = ∅)) as [E1|]; [|tauto].
    destruct (decide (A ∖ B = ∅)) as [E2|]; [|tauto].
    split; intros Hx.
    + destruct (decide (x ∈ B)) as [|Hn]; [assumption|].
      assert (Hd : x ∈ A ∖ B) by (apply elem_of_difference; auto).
      rewrite E2 in Hd. by apply not_elem_of_empty in Hd.
    + destruct (decide (x ∈ A)) as [|Hn]; [assumption|].
      assert (Hd : x ∈ B ∖ A) by (apply elem_of_difference; auto).
      rewrite E1 in Hd. by apply not_elem_of_empty in Hd.
  - intros ->. rewrite difference_diag_L. split; intros H; by apply H.
Qed.

(** X7.  The lists of a comparison add up: the new and the unchanged items
    are as many as the current ones, the removed and the unchanged items as
    many as the previous ones; no item is both new and removed; and
    comparing in the other direction exchanges new and removed. *)
Theorem detect_changes_accounts (now : Z) A B :
  let ci := detect_changes now A B in
  length (new_sectors ci) + length (unchanged_sectors ci) = total_current ci
  /\ length (removed_sectors ci) + length (unchanged_sectors ci)
     = total_previous ci
  /\ (forall x, x ∈ new_sectors ci -> x ∉ removed_sectors ci)
  /\ new_sectors (detect_changes now B A) = removed_sectors ci
  /\ removed_sectors (detect_changes now B A) = new_sectors ci.
Proof.
  cbn. split; [|split; [|split; [|split; reflexivity]]].
  - symmetry. apply (size_split A B).
  - change (size (A ∖ B) + size (B ∩ A) = size A).
    rewrite (comm_L (∩) B A). symmetry. apply (size_split B A).
  - intros x. rewrite !elem_of_elements, !elem_of_difference. tauto.
Qed.

End DetectorFacts.
(* ===================================================================== *)
(** * The normal form of a phone number                                  *)
(* ===================================================================== *)

Section NormalFormFacts.
Import Unicode UnicodeSpec.

Lemma filter_all {T : Type} (p : T -> bool) s :
  forallb p s = true -> List.filter p s = s.
Proof.
  induction s as [|c s IH]; simpl; [reflexivity|].
  intros [Hc Hs]%andb_true_iff. by rewrite Hc, IH.
Qed.

Lemma international_chars s : is_international s -> forallb digit_or_plus s = true.
Proof.
  intros [ds [-> [Hd _]]]. simpl. revert Hd. unfold all_digits.
  apply forallb_weaken. intros c Hc. unfold digit_or_plus. by rewrite Hc.
Qed.

Lemma local_to_international s : is_local s -> is_international (of_string "+57" ++ s).
Proof.
  intros [Hd Hl]. exists (of_string "57" ++ s). split; [reflexivity|]. split.
  - unfold all_digits in *. rewrite forallb_app, Hd. reflexivity.
  - rewrite length_app. simpl. lia.
Qed.

Lemma uvalid_is_international phone normalized :
  validate_phone_number phone = (true, normalized) -> is_international normalized.
Proof.
  intros H.
  destruct (validate_cases phone) as [[He E]|[[Hl [_ E]]|[_ [_ E]]]];
    rewrite E in H; try discriminate; injection H as <-;
    [assumption | by apply local_to_international].
Qed.

Lemma validate_international s : is_international s -> validate_phone_number s = (true, s).
Proof.
  intros He. pose proof (international_chars s He) as Hc.
  pose proof (validate_cases s) as H. cbv zeta in H.
  rewrite (filter_all _ _ Hc) in H.
  destruct H as [[_ E]|[[Hl [Hn _]]|[Hn _]]].
  - exact E.
  - by destruct Hn.
  - by destruct Hn.
Qed.

Lemma digits_are_ascii_filter p s :
  digits_are_ascii s -> digits_are_ascii (List.filter p s).
Proof.
  unfold digits_are_ascii. induction s as [|c s IH]; simpl; [auto|].
  intros [Hc Hs]%andb_true_iff. destruct (p c); simpl; [|auto].
  by rewrite Hc, IH.
Qed.

Lemma valid_digits_are_ascii phone normalized :
  validate_phone_number phone = (true, normalized) ->
  digits_are_ascii phone -> digits_are_ascii normalized.
Proof.
  intros H Ha.
  pose proof (digits_are_ascii_filter digit_or_plus phone Ha) as Hf.
  assert (Hn : normalized = snd (validate_phone_number phone))
    by (by rewrite H).
  destruct (validate_cases phone) as [[_ E]|[[_ [_ E]]|[_ [_ E]]]];
    rewrite E in H, Hn; try discriminate; cbn [snd] in Hn; subst normalized;
    [exact Hf|].
  unfold digits_are_ascii in *. rewrite forallb_app, Hf. reflexivity.
Qed.

Lemma ascii_digits_of s :
  all_digits s -> digits_are_ascii s -> forallb is_ascii_digit s = true.
Proof.
  unfold all_digits, digits_are_ascii.
  induction s as [|c s IH]; simpl; [reflexivity|].
  intros [Hd Hs]%andb_true_iff [Ha Hs']%andb_true_iff.
  rewrite Hd in Ha. simpl in Ha. by rewrite Ha, IH.
Qed.

(** X8.  An accepted phone number comes back as [+] and 10 to 15 digits,
    where a digit is what [\d] matches, and that form is a fixed point:
    validating the returned number again accepts it and returns it
    unchanged.  When the input has no digit outside 0-9, the digits of the
    returned number are all 0-9. *)
Theorem validate_phone_number_normal_form (phone normalized : text) :
  validate_phone_number phone = (true, normalized) ->
  is_international normalized
  /\ validate_phone_number normalized = (true, normalized)
  /\ (digits_are_ascii phone ->
      exists ds, normalized = of_string "+" ++ ds
                 /\ forallb is_ascii_digit ds = true
                 /\ 10 <= length ds <= 15).
Proof.
  intros H. pose proof (uvalid_is_international _ _ H) as He.
  split; [exact He|]. split; [by apply validate_international|].
  intros Ha. pose proof (valid_digits_are_ascii _ _ H Ha) as Hn.
  destruct He as [ds [-> [Hd Hl]]]. exists ds.
  split; [reflexivity|]. split; [|exact Hl].
  apply ascii_digits_of; [exact Hd|].
  unfold digits_are_ascii in *. simpl in Hn. exact Hn.
Qed.

Lemma validate_phone_number_normal_form_witness :
  validate_phone_number (of_string "+573001234567")
  = (true, of_string "+573001234567").
Proof.
  apply (validate_phone_number_normal_form (of_string "(300) 123-4567")
           (of_string "+573001234567")).
  vm_compute. reflexivity.
Defined.

End NormalFormFacts.

(* ===================================================================== *)
(** * On Latin-1 text the two embeddings of the validation agree         *)
(* ===================================================================== *)

Section Latin1Facts.
Import Unicode UnicodeSpec.

Lemma is_decimal_latin1 c : is_decimal (N_of_ascii c) = Text.is_decimal c.
Proof. destruct c as [[] [] [] [] [] [] [] []]; reflexivity. Qed.

Lemma is_plus_latin1 c : is_plus (N_of_ascii c) = Text.is_plus c.
Proof. destruct c as [[] [] [] [] [] [] [] []]; reflexivity. Qed.

Lemma is_newline_latin1 c : is_newline (N_of_ascii c) = Text.is_newline c.
Proof. destruct c as [[] [] [] [] [] [] [] []]; reflexivity. Qed.

Lemma of_string_app a b : of_string (a +:+ b) = of_string a ++ of_string b.
Proof.
  unfold of_string. induction a as [|c a IH]; simpl; [reflexivity|].
  by rewrite IH.
Qed.

Lemma same_nullable r : forall u,
  same_on_latin1 r u -> nullable u = Text.nullable r.
Proof.
  induction r as [ | | p | r1 IH1 r2 IH2 | r1 IH1 r2 IH2 | r IH ];
    intros [ | | q | u1 u2 | u1 u2 | u ]; simpl; try tauto.
  - intros [H1 H2]. by rewrite (IH1 _ H1), (IH2 _ H2).
  - intros [H1 H2]. by rewrite (IH1 _ H1), (IH2 _ H2).
Qed.

Lemma same_deriv c r : forall u,
  same_on_latin1 r u ->
  same_on_latin1 (Text.deriv c r) (deriv (N_of_ascii c) u).
Proof.
  induction r as [ | | p | r1 IH1 r2 IH2 | r1 IH1 r2 IH2 | r IH ];
    intros [ | | q | u1 u2 | u1 u2 | u ]; simpl; try tauto.
  - intros H. rewrite H. by destruct (p c).
  - intros [H1 H2]. rewrite (same_nullable _ _ H1).
    destruct (Text.nullable r1); simpl; auto.
  - intros [H1 H2]. auto.
  - intros H. auto.
Qed.

Lemma same_matches s : forall r u,
  same_on_latin1 r u -> matches u (of_string s) = Text.matches r s.
Proof.
  induction s as [|c s IH]; intros r u H; simpl.
  - by apply same_nullable.
  - apply IH. by apply same_deriv.
Qed.

Lemma same_sub_class p q s :
  (forall c, q (N_of_ascii c) = p c) ->
  re_sub_class q [] (of_string s) = of_string (Text.re_sub_class p "" s).
Proof.
  intros H. unfold of_string.
  induction s as [|c s IH]; simpl; [reflexivity|].
  rewrite H. destruct (p c); simpl; by rewrite IH.
Qed.

(** On Latin-1 text, [Unicode.validate_phone_number] is
    [Sms.validate_phone_number]. *)
Lemma validate_phone_number_latin1 (phone : string) :
  validate_phone_number (of_string phone)
  = (fst (Sms.validate_phone_number phone),
     of_string (snd (Sms.validate_phone_number phone))).
Proof.
  unfold validate_phone_number, Sms.validate_phone_number.
  rewrite (same_sub_class Sms.not_digit_or_plus).
  2:{ intros c. unfold not_digit_or_plus, Sms.not_digit_or_plus.
      by rewrite is_decimal_latin1, is_plus_latin1. }
  unfold re_match_line, Text.re_match_line.
  rewrite (same_matches _ (Text.Cat Sms.e164_pattern
             (Text.Alt Text.Eps (Text.Cls Text.is_newline)))).
  2:{ simpl. repeat split; auto using is_decimal_latin1, is_plus_latin1,
        is_newline_latin1. }
  rewrite (same_matches _ (Text.Cat Sms.local_pattern
             (Text.Alt Text.Eps (Text.Cls Text.is_newline)))).
  2:{ simpl. repeat split; auto using is_decimal_latin1, is_plus_latin1,
        is_newline_latin1. }
  destruct (Text.matches _ _); [reflexivity|].
  destruct (Text.matches _ _); [|reflexivity].
  cbn [fst snd]. by rewrite of_string_app.
Qed.

End Latin1Facts.

(* ===================================================================== *)
(** * More on phone numbers and recipients                               *)
(* ===================================================================== *)

Section LifecycleFacts.
Import Text Storage World Spec Sms Notions.

Lemma active_phones_value env db :
  db_raises env ActivePhones = false ->
  value (_get_active_phone_numbers env db) = active_phones db.
Proof.
  intros H. unfold _get_active_phone_numbers. rewrite H. reflexivity.
Qed.

Lemma first_app_None {T : Type} (p : T -> bool) (l l' : list T) :
  first p l = None -> first p (l ++ l') = first p l'.
Proof.
  unfold first. induction l as [|x l IH]; simpl; [auto|].
  destruct (p x); [discriminate | assumption].
Qed.

Lemma first_active_listed n db r :
  first (has_phone n) (phone_numbers db) = Some r ->
  ph_active r = true -> In n (active_phones db).
Proof.
  intros Hf Ha. pose proof (first_Some_has_phone _ _ _ Hf) as <-.
  apply find_some in Hf as [Hin _]. unfold active_phones.
  apply in_map, filter_In. auto.
Qed.

Lemma unique_row (rows : list PhoneNumber) a b :
  NoDup (map ph_phone rows) -> In a rows -> In b rows ->
  ph_phone a = ph_phone b -> a = b.
Proof.
  induction rows as [|x rows IH]; simpl; [intros _ []|].
  intros [Hx Hnd]%NoDup_cons [Ha|Ha] [Hb|Hb] Hab.
  - congruence.
  - subst x. exfalso. apply Hx. rewrite Hab.
    apply list_elem_of_In. by apply in_map.
  - subst x. exfalso. apply Hx. rewrite <- Hab.
    apply list_elem_of_In. by apply in_map.
  - by apply IH.
Qed.

Lemma first_inactive_unlisted n db r :
  unique_phones db ->
  first (has_phone n) (phone_numbers db) = Some r ->
  ph_active r = false -> ~ In n (active_phones db).
Proof.
  intros Hu Hf Ha Hin. pose proof (first_Some_has_phone _ _ _ Hf) as Hn.
  apply find_some in Hf as [Hr _]. unfold active_phones in Hin.
  apply in_map_iff in Hin as [r' [Hn' [Hr' Ha']%filter_In]].
  assert (r' = r).
  { apply (unique_row (phone_numbers db)); [exact Hu | assumption.. |].
    congruence. }
  congruence.
Qed.

(** The run of a registration whose phone is valid, when the database
    answers. *)
Lemma register_run env phone db n :
  validate_phone_number phone = (true, n) ->
  db_raises env PhoneLookup = false ->
  db_raises env PhoneCommit = false ->
  register_phone_number env phone db
  = match first (has_phone n) (phone_numbers db) with
    | Some r =>
        if ph_active r
        then (Rejected "Phone number already registered and active", db, [])
        else (Done "Phone number reactivated successfully" (Some n),
              set_phone_numbers
                (update_first (has_phone n)
                   (reactivate (utcnow env PhoneCommit)) (phone_numbers db))
                db, [])
    | None =>
        (Done "Phone number registered successfully" (Some n),
         set_phone_numbers
           (phone_numbers db
            ++ [ {| ph_phone := n;
                    ph_registered_at := utcnow env PhoneCommit;
                    ph_active := true |} ]) db, [])
    end.
Proof.
  intros Hv Hl Hc. unfold register_phone_number. rewrite Hv, Hl.
  cbn [negb]. unfold bind, read, write, ret. simpl.
  destruct (first (has_phone n) (phone_numbers db)) as [r|];
    [destruct (ph_active r)|]; rewrite ?Hc; reflexivity.
Qed.

Lemma unregister_run env phone db n :
  validate_phone_number phone = (true, n) ->
  db_raises env PhoneLookup = false ->
  db_raises env PhoneCommit = false ->
  unregister_phone_number env phone db
  = match first (has_phone n) (phone_numbers db) with
    | Some r =>
        (Done "Phone number unregistered successfully" None,
         set_phone_numbers
           (update_first (has_phone n) deactivate (phone_numbers db)) db, [])
    | None => (Rejected "Phone number not found", db, [])
    end.
Proof.
  intros Hv Hl Hc. unfold unregister_phone_number. rewrite Hv, Hl.
  cbn [negb]. unfold bind, read, write, ret. simpl.
  destruct (first (has_phone n) (phone_numbers db)) as [r|];
    rewrite ?Hc; reflexivity.
Qed.

(** Every run of a registration: a rejection that changes nothing, a
    reactivation or a new row. *)
Lemma register_cases env phone db :
  (exists e, register_phone_number env phone db = (Rejected e, db, []))
  \/ exists n db',
      validate_phone_number phone = (true, n)
      /\ db_raises env PhoneLookup = false
      /\ db_raises env PhoneCommit = false
      /\ (exists m, register_phone_number env phone db
                    = (Done m (Some n), db', [])).
Proof.
  destruct (validate_phone_number phone) as [[|] n] eqn:Hv.
  2:{ left. unfold register_phone_number. rewrite Hv. by eexists. }
  destruct (db_raises env PhoneLookup) eqn:Hl.
  { left. unfold register_phone_number. rewrite Hv, Hl. by eexists. }
  destruct (db_raises env PhoneCommit) eqn:Hc.
  { left. unfold register_phone_number. rewrite Hv, Hl. cbn [negb].
    unfold bind, read, write, ret. simpl.
    destruct (first (has_phone n) (phone_numbers db)) as [r|];
      [destruct (ph_active r)|]; rewrite ?Hc; by eexists. }
  rewrite (register_run env phone db n Hv Hl Hc).
  destruct (first (has_phone n) (phone_numbers db)) as [r|];
    [destruct (ph_active r)|].
  - left. by eexists.
  - right. exists n. eexists. repeat split; try assumption. by eexists.
  - right. exists n. eexists. repeat split; try assumption. by eexists.
Qed.

Lemma first_after_register env phone db n :
  validate_phone_number phone = (true, n) ->
  db_raises env PhoneLookup = false ->
  db_raises env PhoneCommit = false ->
  exists r,
    first (has_phone n)
      (phone_numbers (final (register_phone_number env phone db))) = Some r
    /\ ph_active r = true.
Proof.
  intros Hv Hl Hc. rewrite (register_run env phone db n Hv Hl Hc).
  destruct (first (has_phone n) (phone_numbers db)) as [r|] eqn:Hf;
    [destruct (ph_active r) eqn:Ha|]; cbn [final fst snd].
  - by exists r.
  - pose proof (first_Some_has_phone _ _ _ Hf) as Hn.
    eexists. split; [|shelve]. simpl.
    apply (first_update_first _ _ _ r Hf).
    unfold has_phone, reactivate. simpl. by rewrite Hn, String.eqb_refl.
    Unshelve. reflexivity.
  - eexists. split.
    + simpl. rewrite (first_app_None _ _ _ Hf). unfold first. simpl.
      unfold has_phone. simpl. by rewrite String.eqb_refl.
    + reflexivity.
Qed.

(** X9.  A registration that is rejected, for whatever reason, leaves the
    database as it was.  A registration that is accepted returns the
    number that [validate_phone_number] made of the input, and that number
    is among the active recipients afterwards.  No carrier or log action is
    performed in either case. *)
Theorem register_phone_number_outcomes
  (env : Env) (phone : string) (db : Database) :
  let out := register_phone_number env phone db in
  (forall e, value out = Rejected e -> final out = db)
  /\ (forall m p, value out = Done m p ->
        exists n, p = Some n /\ validate_phone_number phone = (true, n)
                  /\ In n (active_phones (final out)))
  /\ trace out = [].
Proof.
  intros out. subst out.
  destruct (register_cases env phone db)
    as [[e E]|[n [db' [Hv [Hl [Hc [m E]]]]]]].
  - rewrite E. split; [reflexivity|]. split; [discriminate | reflexivity].
  - destruct (first_after_register env phone db n Hv Hl Hc) as [r [Hf Ha]].
    pose proof (first_active_listed n _ r Hf Ha) as Hin.
    rewrite E in *. split; [discriminate|]. split; [|reflexivity].
    intros m' p [= <- <-]. exists n.
    split; [reflexivity|]. split; [assumption | exact Hin].
Qed.

Lemma register_phone_number_outcomes_witness :
  exists n,
    Some "+573001234567" = Some n
    /\ validate_phone_number "300 123 4567" = (true, n)
    /\ In n (active_phones
               (final (register_phone_number Examples.env_second_fails
                         "300 123 4567" Examples.db_inactive))).
Proof.
  apply (proj1 (proj2 (register_phone_number_outcomes
                         Examples.env_second_fails "300 123 4567"
                         Examples.db_inactive))
           "Phone number reactivated successfully").
  vm_compute. reflexivity.
Defined.

Lemma unregister_cases env phone db :
  (exists e, unregister_phone_number env phone db = (Rejected e, db, []))
  \/ exists n r,
      validate_phone_number phone = (true, n)
      /\ first (has_phone n) (phone_numbers db) = Some r
      /\ unregister_phone_number env phone db
         = (Done "Phone number unregistered successfully" None,
            set_phone_numbers
              (update_first (has_phone n) deactivate (phone_numbers db)) db,
            []).
Proof.
  destruct (validate_phone_number phone) as [[|] n] eqn:Hv.
  2:{ left. unfold unregister_phone_number. rewrite Hv. by eexists. }
  destruct (db_raises env PhoneLookup) eqn:Hl.
  { left. unfold unregister_phone_number. rewrite Hv, Hl. by eexists. }
  destruct (db_raises env PhoneCommit) eqn:Hc.
  { left. unfold unregister_phone_number. rewrite Hv, Hl. cbn [negb].
    unfold bind, read, write, ret. simpl.
    destruct (first (has_phone n) (phone_numbers db)) as [r|];
      rewrite ?Hc; by eexists. }
  rewrite (unregister_run env phone db n Hv Hl Hc).
  destruct (first (has_phone n) (phone_numbers db)) as [r|] eqn:Hf.
  - right. exists n, r. auto.
  - left. by eexists.
Qed.

Lemma deactivated_first n rows r :
  first (has_phone n) rows = Some r ->
  first (has_phone n) (update_first (has_phone n) deactivate rows)
  = Some (deactivate r).
Proof.
  intros Hf. apply (first_update_first _ _ _ r Hf).
  pose proof (first_Some_has_phone _ _ _ Hf) as Hn.
  unfold has_phone, deactivate. simpl. by rewrite Hn, String.eqb_refl.
Qed.

(** X10.  Unregistering never adds or deletes a row and leaves the rows of
    all other numbers as they were; a rejection leaves the whole database as
    it was; and after an accepted unregistration, in a table without
    duplicate addresses, the number is no longer among the active
    recipients.  The table stays free of duplicate addresses. *)
Theorem unregister_phone_number_outcomes
  (env : Env) (phone : string) (db : Database) :
  let out := unregister_phone_number env phone db in
  let n := snd (validate_phone_number phone) in
  map ph_phone (phone_numbers (final out)) = map ph_phone (phone_numbers db)
  /\ List.filter (fun r => negb (has_phone n r)) (phone_numbers (final out))
     = List.filter (fun r => negb (has_phone n r)) (phone_numbers db)
  /\ (unique_phones db -> unique_phones (final out))
  /\ (forall e, value out = Rejected e -> final out = db)
  /\ (forall m p, value out = Done m p -> unique_phones db ->
        ~ In n (active_phones (final out))).
Proof.
  intros out n. subst out n.
  destruct (unregister_cases env phone db) as [[e E]|[n [r [Hv [Hf E]]]]].
  - rewrite E. cbn [final value fst snd].
    split; [reflexivity|]. split; [reflexivity|]. split; [auto|].
    split; [reflexivity | discriminate].
  - rewrite E, Hv. cbn [final value fst snd phone_numbers set_phone_numbers].
    assert (Hmap : map ph_phone
                     (update_first (has_phone n) deactivate (phone_numbers db))
                   = map ph_phone (phone_numbers db))
      by (by apply map_update_first).
    split; [exact Hmap|]. split; [by apply others_update_first|].
    split; [unfold unique_phones; simpl; by rewrite Hmap|].
    split; [discriminate|].
    intros _ _ _ Hu.
    apply (first_inactive_unlisted n _ (deactivate r)).
    + unfold unique_phones. simpl. by rewrite Hmap.
    + simpl. by apply deactivated_first.
    + reflexivity.
Qed.

Lemma unregister_phone_number_outcomes_witness :
  ~ In "+573001234568"
      (active_phones
         (final (unregister_phone_number Examples.env_second_fails
                   "+57 300 123 4568" Examples.db_three))).
Proof.
  apply (proj2 (proj2 (proj2 (proj2
           (unregister_phone_number_outcomes Examples.env_second_fails
              "+57 300 123 4568" Examples.db_three))))
           "Phone number unregistered successfully" None).
  - vm_compute. reflexivity.
  - unfold unique_phones. vm_compute.
    repeat (apply NoDup_cons; split;
            [rewrite ?elem_of_cons, elem_of_nil;
             intros H; repeat destruct H as [H|H]; discriminate || exact H|]).
    apply NoDup_nil_2.
Defined.

(** X11.  Register, unregister, register again, with any three spellings of
    one number and a database that answers: the number is active after the
    first registration, not active after the unregistration and active
    again after the second registration, which reactivates the existing row
    instead of adding one. *)
Theorem recipient_lifecycle
  (env1 env2 env3 : Env) (phone1 phone2 phone3 n : string) (db : Database) :
  validate_phone_number phone1 = (true, n) ->
  validate_phone_number phone2 = (true, n) ->
  validate_phone_number phone3 = (true, n) ->
  answers env1 -> answers env2 -> answers env3 ->
  unique_phones db ->
  let db1 := final (register_phone_number env1 phone1 db) in
  let db2 := final (unregister_phone_number env2 phone2 db1) in
  let db3 := final (register_phone_number env3 phone3 db2) in
  In n (active_phones db1)
  /\ value (unregister_phone_number env2 phone2 db1)
     = Done "Phone number unregistered successfully" None
  /\ ~ In n (active_phones db2)
  /\ value (register_phone_number env3 phone3 db2)
     = Done "Phone number reactivated successfully" (Some n)
  /\ In n (active_phones db3)
  /\ map ph_phone (phone_numbers db3) = map ph_phone (phone_numbers db1).
Proof.
  intros Hv1 Hv2 Hv3 A1 A2 A3 Hu db1 db2 db3.
  destruct (first_after_register env1 phone1 db n Hv1 (A1 _) (A1 _))
    as [r1 [Hf1 Ha1]].
  fold db1 in Hf1.
  assert (Hu1 : unique_phones db1).
  { subst db1. rewrite (register_run env1 phone1 db n Hv1 (A1 _) (A1 _)).
    destruct (first (has_phone n) (phone_numbers db)) as [r|] eqn:Hf;
      [destruct (ph_active r)|]; cbn [final fst snd]; [assumption | |].
    - unfold unique_phones. simpl. by rewrite map_update_first.
    - unfold unique_phones. simpl. by apply unique_after_insert. }
  assert (E2 : unregister_phone_number env2 phone2 db1
               = (Done "Phone number unregistered successfully" None,
                  set_phone_numbers
                    (update_first (has_phone n) deactivate (phone_numbers db1))
                    db1, [])).
  { rewrite (unregister_run env2 phone2 db1 n Hv2 (A2 _) (A2 _)).
    by rewrite Hf1. }
  assert (Hf2 : first (has_phone n) (phone_numbers db2)
                = Some (deactivate r1)).
  { subst db2. rewrite E2. simpl. by apply deactivated_first. }
  assert (Hm2 : map ph_phone (phone_numbers db2)
                = map ph_phone (phone_numbers db1)).
  { subst db2. rewrite E2. simpl. by apply map_update_first. }
  assert (Hu2 : unique_phones db2).
  { unfold unique_phones. by rewrite Hm2. }
  assert (E3 : register_phone_number env3 phone3 db2
               = (Done "Phone number reactivated successfully" (Some n),
                  set_phone_numbers
                    (update_first (has_phone n)
                       (reactivate (utcnow env3 PhoneCommit))
                       (phone_numbers db2)) db2, [])).
  { rewrite (register_run env3 phone3 db2 n Hv3 (A3 _) (A3 _)).
    by rewrite Hf2. }
  split; [by apply (first_active_listed n db1 r1)|].
  split; [by rewrite E2|].
  split; [by apply (first_inactive_unlisted n db2 (deactivate r1))|].
  split; [by rewrite E3|].
  destruct (first_after_register env3 phone3 db2 n Hv3 (A3 _) (A3 _))
    as [r3 [Hf3 Ha3]].
  split; [by apply (first_active_listed n db3 r3)|].
  subst db3. rewrite E3. simpl. rewrite map_update_first by reflexivity.
  exact Hm2.
Qed.

Lemma recipient_lifecycle_witness :
  In "+573001234567"
    (active_phones
       (final (register_phone_number Examples.env_second_fails "3001234567"
                 Examples.db_inactive)))
  /\ ~ In "+573001234567"
        (active_phones
           (final (unregister_phone_number Examples.env_second_fails
                     "+57 300 123 4567"
                     (final (register_phone_number Examples.env_second_fails
                               "3001234567" Examples.db_inactive))))).
Proof.
  destruct (recipient_lifecycle Examples.env_second_fails
              Examples.env_second_fails Examples.env_second_fails
              "3001234567" "+57 300 123 4567" "(300) 123-4567"
              "+573001234567" Examples.db_inactive)
    as [H1 [_ [H2 _]]].
  - vm_compute. reflexivity.
  - vm_compute. reflexivity.
  - vm_compute. reflexivity.
  - intros site. reflexivity.
  - intros site. reflexivity.
  - intros site. reflexivity.
  - unfold unique_phones. simpl. apply NoDup_singleton.
  - split; [exact H1 | exact H2].
Defined.

Lemma count_value env db :
  db_raises env ActivePhones = false ->
  value (get_registered_phones_count env db) = length (active_phones db).
Proof.
  intros H. unfold get_registered_phones_count, active_phones.
  rewrite H. unfold bind, read, ret, value. simpl. by rewrite length_map.
Qed.

Lemma count_after_reactivate p now rows r :
  first p rows = Some r -> ph_active r = false ->
  length (List.filter ph_active (update_first p (reactivate now) rows))
  = S (length (List.filter ph_active rows)).
Proof.
  unfold first. induction rows as [|x rows IH]; simpl; [discriminate|].
  destruct (p x) eqn:Hx.
  - intros [= ->] Ha. simpl. by rewrite Ha.
  - intros Hf Ha. simpl. destruct (ph_active x); simpl; by rewrite IH.
Qed.

Lemma count_after_deactivate p rows r :
  first p rows = Some r ->
  length (List.filter ph_active (update_first p deactivate rows))
  + (if ph_active r then 1 else 0)
  = length (List.filter ph_active rows).
Proof.
  unfold first. induction rows as [|x rows IH]; simpl; [discriminate|].
  destruct (p x) eqn:Hx.
  - intros [= ->]. simpl. destruct (ph_active r); simpl; lia.
  - intros Hf. simpl. destruct (ph_active x); simpl; rewrite <- (IH Hf); lia.
Qed.

(** X12.  The count of registered phones, when its query answers, is the
    number of active recipients.  An accepted registration raises it by
    exactly one and a rejected one leaves it; an accepted unregistration
    lowers it by one when the row found was active and leaves it when that
    row was inactive already. *)
Theorem registered_phones_count_tracks
  (envc env : Env) (phone : string) (db : Database) :
  db_raises envc ActivePhones = false ->
  let count := fun d => value (get_registered_phones_count envc d) in
  let reg := register_phone_number env phone db in
  let unreg := unregister_phone_number env phone db in
  count db = length (value (_get_active_phone_numbers envc db))
  /\ (forall m p, value reg = Done m p -> count (final reg) = S (count db))
  /\ (forall e, value reg = Rejected e -> count (final reg) = count db)
  /\ (forall m p r, value unreg = Done m p ->
        first (has_phone (snd (validate_phone_number phone)))
          (phone_numbers db) = Some r ->
        count (final unreg) + (if ph_active r then 1 else 0) = count db)
  /\ (forall e, value unreg = Rejected e -> count (final unreg) = count db).
Proof.
  intros Hc count reg unreg. subst count reg unreg. cbv beta.
  rewrite !count_value by assumption.
  split; [by rewrite active_phones_value|]. split; [|split; [|split]].
  - intros m p.
    destruct (validate_phone_number phone) as [[|] n] eqn:Hv.
    2:{ unfold register_phone_number. rewrite Hv. discriminate. }
    destruct (db_raises env PhoneLookup) eqn:Hl.
    { unfold register_phone_number. rewrite Hv, Hl. discriminate. }
    destruct (db_raises env PhoneCommit) eqn:Hco.
    { unfold register_phone_number. rewrite Hv, Hl. cbn [negb].
      unfold bind, read, write, ret, value. simpl.
      destruct (first (has_phone n) (phone_numbers db)) as [r|];
        [destruct (ph_active r)|]; rewrite ?Hco; discriminate. }
    rewrite (register_run env phone db n Hv Hl Hco).
    destruct (first (has_phone n) (phone_numbers db)) as [r|] eqn:Hf;
      [destruct (ph_active r) eqn:Ha|]; cbn [value final fst snd];
      [discriminate | |]; intros _; unfold active_phones; simpl;
      rewrite !length_map.
    + by apply (count_after_reactivate _ _ _ r).
    + rewrite List.filter_app, length_app. simpl. lia.
  - intros e H.
    destruct (register_cases env phone db)
      as [[e' E]|[n [db' [_ [_ [_ [m E]]]]]]]; rewrite E in *;
      [reflexivity | discriminate].
  - intros m p r H Hf.
    destruct (unregister_cases env phone db)
      as [[e' E]|[n [r' [Hv [Hf' E]]]]]; rewrite E in *; [discriminate|].
    rewrite Hv in Hf. cbn [snd] in Hf. rewrite Hf in Hf'.
    injection Hf' as <-.
    unfold active_phones. cbn [final fst snd phone_numbers set_phone_numbers].
    rewrite !length_map. by apply count_after_deactivate.
  - intros e H.
    destruct (unregister_cases env phone db)
      as [[e' E]|[n [r' [Hv [Hf' E]]]]]; rewrite E in *;
      [reflexivity | discriminate].
Qed.

Lemma registered_phones_count_tracks_witness :
  value (get_registered_phones_count Examples.env_second_fails
           (final (register_phone_number Examples.env_second_fails
                     "3001234570" Examples.db_three)))
  = S (value (get_registered_phones_count Examples.env_second_fails
                Examples.db_three)).
Proof.
  apply (proj1 (proj2 (registered_phones_count_tracks
                         Examples.env_second_fails Examples.env_second_fails
                         "3001234570" Examples.db_three eq_refl))
           "Phone number registered successfully" (Some "+573001234570")).
  vm_compute. reflexivity.
Defined.

End LifecycleFacts.

(* ===================================================================== *)
(** * More on the alert dispatcher                                       *)
(* ===================================================================== *)

Section GateFacts.
Import Storage World Spec Sms Notions.

Lemma should_skip_true env event_id db :
  value (_should_skip_due_to_deduplication env event_id db) = true
  <-> db_raises env Deduplication = false
      /\ exists row,
           In row (sms_logs db)
           /\ recent_alert (utcnow env Deduplication
                            - timedelta_minutes DEDUPLICATION_WINDOW_MINUTES)
                row = true.
Proof.
  unfold _should_skip_due_to_deduplication.
  destruct (db_raises env Deduplication).
  { split; [discriminate | intros [H _]; discriminate]. }
  unfold bind, read, ret, value, first. simpl.
  destruct (List.find _ (sms_logs db)) as [y|] eqn:E.
  - apply find_some in E. split; [intros _; split; [reflexivity|]; by exists y|auto].
  - split; [discriminate|]. intros [_ [row [Hin Hr]]].
    rewrite (find_none _ _ E row Hin) in Hr. discriminate.
Qed.

Lemma recent_alert_iff cutoff row :
  recent_alert cutoff row = true
  <-> sl_success row = true /\ sl_message row = ALERT_MESSAGE
      /\ (cutoff < sl_timestamp row)%Z.
Proof.
  unfold recent_alert.
  rewrite !andb_true_iff, Z.ltb_lt, String.eqb_eq. tauto.
Qed.

(** X13.  [send_change_alert] returns the skip for deduplication exactly
    when the transport is configured, the look-up answers and the log holds
    a successful row with the alert text whose timestamp is later than the
    clock reading minus five minutes.  Failed rows, rows with another text,
    rows at or before the cutoff and a look-up that raises never cause that
    skip. *)
Theorem deduplication_skip_iff
  (env : Env) (self : SMSAlertService) (db : Database)
  (event_id : string) (new_sectors : list string) (dry_run : bool) :
  value (send_change_alert env self event_id new_sectors dry_run db)
  = Skipped "deduplication"
  <-> is_configured self = true
      /\ db_raises env Deduplication = false
      /\ exists row,
           In row (sms_logs db)
           /\ sl_success row = true
           /\ sl_message row = ALERT_MESSAGE
           /\ (utcnow env Deduplication
               - timedelta_minutes DEDUPLICATION_WINDOW_MINUTES
               < sl_timestamp row)%Z.
Proof.
  split.
  - unfold send_change_alert.
    destruct (is_configured self); cbn [negb]; [|discriminate].
    rewrite value_bind.
    destruct (value (_should_skip_due_to_deduplication env event_id db))
      eqn:Hskip.
    + intros _. apply should_skip_true in Hskip as [Hdb [row [Hin Hr]]].
      apply recent_alert_iff in Hr. split; [reflexivity|].
      split; [assumption|]. by exists row.
    + rewrite value_bind.
      destruct (value (_get_active_phone_numbers env _)); [discriminate|].
      rewrite value_bind. discriminate.
  - intros [Hconf [Hdb [row [Hin Hr]]]].
    rewrite (dedup_gate_run env self db event_id new_sectors dry_run row);
      [reflexivity | assumption.. |].
    apply recent_alert_iff. exact Hr.
Qed.

(** X14.  With the transport configured and no deduplication skip, a call
    finds no recipients when no row of the recipient table is active, and
    also when the query for the active recipients raises: it then returns
    the skip "no_phones" (a success), contacts nobody and writes nothing. *)
Theorem no_recipients_skip
  (env : Env) (self : SMSAlertService) (db : Database)
  (event_id : string) (new_sectors : list string) (dry_run : bool) :
  is_configured self = true ->
  value (_should_skip_due_to_deduplication env event_id db) = false ->
  db_raises env ActivePhones = true
  \/ (forall r, In r (phone_numbers db) -> ph_active r = false) ->
  send_change_alert env self event_id new_sectors dry_run db
  = (Skipped "no_phones", db, [])
  /\ get_success (Skipped "no_phones") = true.
Proof.
  intros Hconf Hskip Hnone. split; [|reflexivity].
  unfold send_change_alert. rewrite Hconf. cbn [negb].
  rewrite run_bind, Hskip.
  destruct (dedup_keeps_db env event_id db) as [-> ->].
  assert (Hact : _get_active_phone_numbers env db = ([], db, [])).
  { unfold _get_active_phone_numbers.
    destruct (db_raises env ActivePhones) eqn:Hr; [reflexivity|].
    destruct Hnone as [Hn|Hn]; [discriminate|].
    unfold bind, read, ret. simpl.
    replace (List.filter ph_active (phone_numbers db)) with (@nil PhoneNumber);
      [reflexivity|].
    symmetry. induction (phone_numbers db) as [|x l IH]; [reflexivity|].
    simpl. rewrite (Hn x) by (by left). apply IH. intros r Hr'. apply Hn.
    by right. }
  rewrite run_bind, Hact. reflexivity.
Qed.

Lemma no_recipients_skip_witness :
  send_change_alert Examples.env_second_fails Examples.service "pq23"
    ["sector_1"] false Examples.db_inactive
  = (Skipped "no_phones", Examples.db_inactive, []).
Proof.
  apply (no_recipients_skip Examples.env_second_fails Examples.service
           Examples.db_inactive "pq23" ["sector_1"] false).
  - reflexivity.
  - reflexivity.
  - right. intros r [<-|[]]. reflexivity.
Defined.

End GateFacts.

Section FanOutFacts.
Import Storage World Spec Sms Notions.

Lemma carrier_sends_app t1 t2 :
  carrier_sends (t1 ++ t2) = carrier_sends t1 ++ carrier_sends t2.
Proof.
  induction t1 as [|a t1 IH]; simpl; [reflexivity|].
  destruct a; simpl; by rewrite IH.
Qed.

Lemma logged_attempts_app t1 t2 :
  logged_attempts (t1 ++ t2) = logged_attempts t1 ++ logged_attempts t2.
Proof.
  induction t1 as [|a t1 IH]; simpl; [reflexivity|].
  destruct a; simpl; by rewrite IH.
Qed.

Lemma fan_out_step_trace env dry_run i phone results db :
  carrier_sends (trace (fan_out_step env dry_run i phone results db))
  = (if dry_run then [] else [(phone, ALERT_MESSAGE)])
  /\ logged_attempts (trace (fan_out_step env dry_run i phone results db))
     = (if reaches_log env dry_run i phone then [phone] else []).
Proof.
  unfold fan_out_step, _send_sms_to_phone, _log_sms_attempt, reaches_log,
    bind, emit, ret, read, write, trace.
  destruct dry_run; simpl.
  - destruct (db_raises env (LogSmsAttempt i)); split; reflexivity.
  - destruct (carrier env i phone ALERT_MESSAGE); simpl;
      try destruct (db_raises env (LogSmsAttempt i)); split; reflexivity.
Qed.

Lemma fan_out_trace env dry_run phones : forall i results db,
  carrier_sends (trace (fan_out env dry_run i phones results db))
  = (if dry_run then [] else map (fun p => (p, ALERT_MESSAGE)) phones)
  /\ logged_attempts (trace (fan_out env dry_run i phones results db))
     = logged_recipients env dry_run i phones.
Proof.
  induction phones as [|phone rest IH]; intros i results db.
  - split; [by destruct dry_run | reflexivity].
  - cbn [fan_out logged_recipients]. rewrite trace_bind, carrier_sends_app,
      logged_attempts_app.
    destruct (fan_out_step_trace env dry_run i phone results db) as [-> ->].
    match goal with
    | |- context [fan_out env dry_run (S i) rest ?r ?d] =>
        destruct (IH (S i) r d) as [-> ->]
    end.
    split; [by destruct dry_run|].
    by destruct (reaches_log env dry_run i phone).
Qed.

Lemma logged_recipients_all env dry_run phones : forall i,
  (forall j p, reaches_log env dry_run j p = true) ->
  logged_recipients env dry_run i phones = phones.
Proof.
  induction phones as [|phone rest IH]; intros i Hall; [reflexivity|].
  cbn [logged_recipients]. by rewrite Hall, IH.
Qed.

(** X15.  With the transport configured and no deduplication skip, every
    active recipient is handed to the carrier exactly once, in table order
    and with the fixed alert text, whatever the carrier answered for the
    recipients before; in a dry run the carrier is not called at all.  The
    attempts sent to the log are, in the same order, those of the
    recipients for whom the carrier did not raise a [TwilioException]
    without [msg]: for such a recipient the handler of the loop counts the
    failure and nothing is logged.  So in a dry run, and whenever no such
    exception occurs, one attempt per active recipient is logged. *)
Theorem fan_out_contacts_every_recipient
  (env : Env) (self : SMSAlertService) (db : Database)
  (event_id : string) (new_sectors : list string) (dry_run : bool) :
  is_configured self = true ->
  value (_should_skip_due_to_deduplication env event_id db) = false ->
  let out := send_change_alert env self event_id new_sectors dry_run db in
  let phones := value (_get_active_phone_numbers env db) in
  carrier_sends (trace out)
  = (if dry_run then [] else map (fun p => (p, ALERT_MESSAGE)) phones)
  /\ logged_attempts (trace out) = logged_recipients env dry_run 0 phones
  /\ ((forall j p, reaches_log env dry_run j p = true) ->
      logged_attempts (trace out) = phones).
Proof.
  intros Hconf Hskip out phones. subst out phones.
  assert (Hmain :
    carrier_sends
      (trace (send_change_alert env self event_id new_sectors dry_run db))
    = (if dry_run then []
       else map (fun p => (p, ALERT_MESSAGE))
              (value (_get_active_phone_numbers env db)))
    /\ logged_attempts
         (trace (send_change_alert env self event_id new_sectors dry_run db))
       = logged_recipients env dry_run 0
           (value (_get_active_phone_numbers env db))).
  { unfold send_change_alert. rewrite Hconf. cbn [negb].
    rewrite trace_bind, Hskip.
    destruct (dedup_keeps_db env event_id db) as [-> ->].
    rewrite trace_bind.
    destruct (active_phones_keeps_db env db) as [-> ->].
    destruct (value (_get_active_phone_numbers env db)) as [|p ps] eqn:E.
    - split; [by destruct dry_run | reflexivity].
    - rewrite trace_bind. cbn [app trace ret snd]. rewrite app_nil_r.
      apply fan_out_trace. }
  destruct Hmain as [Hsend Hlog]. split; [exact Hsend|].
  split; [exact Hlog|]. intros Hall.
  rewrite Hlog. by apply logged_recipients_all.
Qed.

Lemma fan_out_contacts_every_recipient_witness :
  carrier_sends
    (trace (send_change_alert Scenarios.env_no_msg Examples.service
              "pq23" ["sector_1"] false Examples.db_three))
  = [ ("+573001234567", ALERT_MESSAGE); ("+573001234568", ALERT_MESSAGE);
      ("+573001234569", ALERT_MESSAGE) ]
  /\ logged_attempts
       (trace (send_change_alert Scenarios.env_no_msg Examples.service
                 "pq23" ["sector_1"] false Examples.db_three))
     = [ "+573001234567"; "+573001234569" ].
Proof.
  destruct (fan_out_contacts_every_recipient Scenarios.env_no_msg
              Examples.service Examples.db_three "pq23" ["sector_1"] false
              eq_refl eq_refl) as [Hsend [Hlog _]].
  split; [exact Hsend | exact Hlog].
Defined.

(** The rows that the fan-out adds to the log. *)
Lemma fan_out_step_rows env dry_run i phone results db :
  exists rows,
    sms_logs (final (fan_out_step env dry_run i phone results db))
    = sms_logs db ++ rows
    /\ Forall (fun r => sl_message r = ALERT_MESSAGE) rows
    /\ length rows <= 1
    /\ (db_raises env (LogSmsAttempt i) = false ->
        map sl_phone rows
        = (if reaches_log env dry_run i phone then [phone] else [])
        /\ length (List.filter sl_success rows)
           = if attempt_ok env dry_run i phone then 1 else 0).
Proof.
  unfold fan_out_step, _send_sms_to_phone, _log_sms_attempt, attempt_ok,
    reaches_log, bind, emit, ret, read, write, final.
  destruct dry_run; simpl.
  - destruct (db_raises env (LogSmsAttempt i)); simpl.
    + exists []. rewrite app_nil_r. repeat split; auto; discriminate.
    + eexists [_]. repeat split; auto.
  - destruct (carrier env i phone ALERT_MESSAGE); simpl;
      try destruct (db_raises env (LogSmsAttempt i)); simpl;
      first [ exists []; rewrite app_nil_r; repeat split; auto; discriminate
            | eexists [_]; repeat split; auto
            | exists []; rewrite app_nil_r; repeat split; auto ].
Qed.

Lemma fan_out_rows env dry_run phones : forall i results db,
  exists rows,
    sms_logs (final (fan_out env dry_run i phones results db))
    = sms_logs db ++ rows
    /\ Forall (fun r => sl_message r = ALERT_MESSAGE) rows
    /\ length rows <= length phones
    /\ ((forall j, db_raises env (LogSmsAttempt j) = false) ->
        map sl_phone rows = logged_recipients env dry_run i phones
        /\ length (List.filter sl_success rows)
           = successes env dry_run i phones).
Proof.
  induction phones as [|phone rest IH]; intros i results db.
  - exists []. rewrite app_nil_r. repeat split; auto.
  - cbn [fan_out]. rewrite final_bind.
    destruct (fan_out_step_rows env dry_run i phone results db)
      as [rows1 [E1 [F1 [L1 H1]]]].
    match goal with
    | |- context [fan_out env dry_run (S i) rest ?r ?d] =>
        destruct (IH (S i) r d) as [rows2 [E2 [F2 [L2 H2]]]]
    end.
    exists (rows1 ++ rows2). rewrite E2, E1, <- app_assoc.
    split; [reflexivity|]. split; [by apply Forall_app|].
    split; [rewrite length_app; simpl; lia|].
    intros Hlog. destruct (H1 (Hlog i)) as [M1 S1].
    destruct (H2 Hlog) as [M2 S2].
    rewrite map_app, M1, M2, List.filter_app, length_app, S1, S2.
    cbn [logged_recipients successes].
    split; [by destruct (reaches_log env dry_run i phone) | reflexivity].
Qed.

Lemma send_change_alert_rows env self event_id new_sectors dry_run db :
  let out := send_change_alert env self event_id new_sectors dry_run db in
  exists rows,
    sms_logs (final out) = sms_logs db ++ rows
    /\ Forall (fun r => sl_message r = ALERT_MESSAGE) rows
    /\ (forall b, value out = Batch b -> length rows <= total_phones b)
    /\ ((forall j, db_raises env (LogSmsAttempt j) = false) ->
        length (List.filter sl_success rows) = sent_of (value out)
        /\ forall b, value out = Batch b ->
                     map sl_phone rows
                     = logged_recipients env dry_run 0
                         (value (_get_active_phone_numbers env db))).
Proof.
  assert (Hnone : forall r : AlertResult,
             (forall b, r <> Batch b) -> sent_of r = 0 ->
             exists rows : list SMSLog,
               sms_logs db = sms_logs db ++ rows
               /\ Forall (fun r => sl_message r = ALERT_MESSAGE) rows
               /\ (forall b, r = Batch b -> length rows <= total_phones b)
               /\ ((forall j, db_raises env (LogSmsAttempt j) = false) ->
                   length (List.filter sl_success rows) = sent_of r
                   /\ forall b, r = Batch b ->
                                map sl_phone rows
                                = logged_recipients env dry_run 0
                                    (value (_get_active_phone_numbers env db)))).
  { intros r Hr Hs. exists []. rewrite app_nil_r, Hs.
    split; [reflexivity|]. split; [constructor|].
    split; [intros b Hb; by destruct (Hr b)|]. intros _.
    split; [reflexivity|]. intros b Hb. by destruct (Hr b). }
  cbv zeta. unfold send_change_alert.
  destruct (is_configured self); cbn [negb].
  2:{ exact (Hnone (Failure _) ltac:(discriminate) eq_refl). }
  rewrite value_bind, final_bind.
  destruct (dedup_keeps_db env event_id db) as [-> _].
  destruct (value (_should_skip_due_to_deduplication env event_id db)).
  { exact (Hnone (Skipped _) ltac:(discriminate) eq_refl). }
  rewrite value_bind, final_bind.
  destruct (active_phones_keeps_db env db) as [-> _].
  destruct (value (_get_active_phone_numbers env db)) as [|p ps] eqn:Hact.
  { exact (Hnone (Skipped _) ltac:(discriminate) eq_refl). }
  rewrite value_bind, final_bind.
  match goal with
  | |- context [fan_out ?e ?d ?i ?l ?r ?b] =>
      destruct (fan_out_rows e d l i r b) as [rows [E [F [L H]]]];
      destruct (fan_out_summary e d l i r b) as [errs [Hv _]]
  end.
  exists rows. cbn [final value ret fst snd]. rewrite Hv. cbn [sent_of sent_count].
  split; [exact E|]. split; [exact F|].
  split; [intros b [= <-]; exact L|].
  intros Hlog. destruct (H Hlog) as [M S0]. split; [exact S0|].
  intros b [= <-]. exact M.
Qed.

(** X16.  [send_change_alert] changes nothing in the database but the
    delivery log, and the log only grows: the rows from before stay in
    place, followed by new rows that all carry the alert text, at most one
    per active recipient.  When every write of the log answers, a batch
    adds, in table order, exactly one row for each active recipient whose
    attempt reaches the log (all of them, unless the carrier raised a
    [TwilioException] without [msg]), and as many successful rows as its
    [sent_count]. *)
Theorem send_change_alert_appends_to_log
  (env : Env) (self : SMSAlertService) (db : Database)
  (event_id : string) (new_sectors : list string) (dry_run : bool) :
  let out := send_change_alert env self event_id new_sectors dry_run db in
  let phones := value (_get_active_phone_numbers env db) in
  only_logs_differ db (final out)
  /\ exists rows,
       sms_logs (final out) = sms_logs db ++ rows
       /\ Forall (fun r => sl_message r = ALERT_MESSAGE) rows
       /\ (forall b, value out = Batch b -> length rows <= total_phones b)
       /\ ((forall j, db_raises env (LogSmsAttempt j) = false) ->
           length (List.filter sl_success rows) = sent_of (value out)
           /\ forall b, value out = Batch b ->
                map sl_phone rows = logged_recipients env dry_run 0 phones
                /\ ((forall j p, reaches_log env dry_run j p = true) ->
                    map sl_phone rows = phones
                    /\ length rows = total_phones b)).
Proof.
  intros out phones. subst out phones.
  split; [apply send_change_alert_only_logs|].
  destruct (send_change_alert_rows env self event_id new_sectors dry_run db)
    as [rows [E [F [L H]]]].
  exists rows. split; [exact E|]. split; [exact F|]. split; [exact L|].
  intros Hlog. destruct (H Hlog) as [Hs Hb]. split; [exact Hs|].
  intros b Eb. pose proof (Hb b Eb) as Hm. split; [exact Hm|].
  intros Hall. rewrite (logged_recipients_all _ _ _ 0 Hall) in Hm.
  split; [exact Hm|].
  rewrite <- (length_map sl_phone), Hm.
  revert Eb. unfold send_change_alert.
  destruct (is_configured self); cbn [negb]; [|discriminate].
  rewrite value_bind.
  destruct (dedup_keeps_db env event_id db) as [-> _].
  destruct (value (_should_skip_due_to_deduplication env event_id db));
    [discriminate|].
  rewrite value_bind.
  destruct (active_phones_keeps_db env db) as [-> _].
  destruct (value (_get_active_phone_numbers env db)) as [|p ps] eqn:Hact;
    [discriminate|].
  rewrite value_bind.
  match goal with
  | |- context [fan_out ?e ?d ?i ?l ?r ?b0] =>
      destruct (fan_out_summary e d l i r b0) as [errs [Hv _]]
  end.
  cbn [value ret fst]. rewrite Hv. intros [= <-]. reflexivity.
Qed.

Lemma send_change_alert_appends_to_log_witness :
  exists rows,
    sms_logs (final (send_change_alert Scenarios.env_no_msg
                       Examples.service "pq23" ["sector_1"] false
                       Examples.db_three))
    = sms_logs Examples.db_three ++ rows
    /\ length (List.filter sl_success rows) = 2
    /\ map sl_phone rows = [ "+573001234567"; "+573001234569" ].
Proof.
  destruct (proj2 (send_change_alert_appends_to_log Scenarios.env_no_msg
                     Examples.service Examples.db_three "pq23" ["sector_1"]
                     false)) as [rows [E [_ [_ H]]]].
  exists rows. split; [exact E|].
  destruct (H (fun j => eq_refl)) as [Hs Hb].
  split; [exact Hs|]. exact (proj1 (Hb _ eq_refl)).
Defined.

End FanOutFacts.

Section SecondAlertWitness.
Import Storage World Spec Sms.

Lemma second_alert_is_skipped_witness :
  value (send_change_alert Examples.env_second_fails Examples.service
           "pq24" ["sector_9"] false
           (final (send_change_alert Examples.env_second_fails
                     Examples.service "pq23" ["sector_1"] true
                     Examples.db_three)))
  = Skipped "deduplication".
Proof.
  rewrite (second_alert_is_skipped Examples.env_second_fails
             Examples.env_second_fails Examples.service Examples.db_three
             "pq23" "pq24" ["sector_1"] ["sector_9"] true false
             {| b_success := true; total_phones := 3; sent_count := 3;
                failed_count := 0; errors := []; b_dry_run := true |}).
  - reflexivity.
  - reflexivity.
  - vm_compute. reflexivity.
  - simpl. lia.
  - intros j. reflexivity.
  - reflexivity.
  - intros j. vm_compute. reflexivity.
Defined.

End SecondAlertWitness.

(* ===================================================================== *)
(** * The endpoints                                                      *)
(* ===================================================================== *)

Section EndpointFacts.
Import Storage World Spec Sms Web Notions.

(** X18.  When every write of the log answers, the metrics read after a
    call of [send_change_alert] differ from the metrics read before it only
    in [total_sms_sent], which has grown by the [sent_count] of the batch
    (by nothing when the call was skipped or refused).  Simulated
    deliveries of a dry run are counted like real ones. *)
Theorem metrics_after_alert
  (env : Env) (self : SMSAlertService) (db : Database)
  (event_id : string) (new_sectors : list string) (dry_run : bool)
  (a s c n : nat) (configured : bool) :
  (forall j, db_raises env (LogSmsAttempt j) = false) ->
  value (metrics false self db) = Metrics a s c n configured ->
  let out := send_change_alert env self event_id new_sectors dry_run db in
  value (metrics false self (final out))
  = Metrics a (s + sent_of (value out)) c n configured.
Proof.
  intros Hlog Hm out.
  destruct (send_change_alert_only_logs env self event_id new_sectors
              dry_run db) as [_ [Hsn [Hcl Hph]]].
  destruct (send_change_alert_rows env self event_id new_sectors dry_run db)
    as [rows [E [_ [_ H]]]].
  destruct (H Hlog) as [Hs _]. fold out in Hsn, Hcl, Hph, E, Hs.
  revert Hm. unfold metrics, bind, read, ret, value. simpl.
  intros [= <- <- <- <- <-].
  rewrite Hph, Hsn, Hcl, E, List.filter_app, length_app, Hs. reflexivity.
Qed.

Lemma metrics_after_alert_witness :
  value (metrics false Examples.service
           (final (send_change_alert Examples.env_second_fails
                     Examples.service "pq23" ["sector_1"] false
                     Examples.db_three)))
  = Metrics 3 2 0 0 true.
Proof.
  apply (metrics_after_alert Examples.env_second_fails Examples.service
           Examples.db_three "pq23" ["sector_1"] false 3 0 0 0 true).
  - intros j. reflexivity.
  - reflexivity.
Defined.

(** X19.  [POST /register] answers 200 or 400.  With 400 the database is
    as it was.  With 200 the response carries the number that
    [validate_phone_number] made of the input, and that number is among the
    active recipients afterwards.  [POST /unregister] answers 200 or 400 as well,
    with 400 leaving the database as it was and 200 carrying a message and
    no phone. *)
Theorem endpoints_answer (env : Env) (phone : string) (db : Database) :
  let reg := register_phone env phone db in
  let unreg := unregister_phone env phone db in
  ((status_code (value reg) = 400 /\ js_success (value reg) = false
    /\ final reg = db)
   \/ (status_code (value reg) = 200 /\ js_success (value reg) = true
       /\ exists n, js_phone (value reg) = Some n
                    /\ validate_phone_number phone = (true, n)
                    /\ In n (active_phones (final reg))))
  /\ ((status_code (value unreg) = 400 /\ js_success (value unreg) = false
       /\ final unreg = db)
      \/ (status_code (value unreg) = 200 /\ js_success (value unreg) = true
          /\ js_phone (value unreg) = None
          /\ is_Some (js_message (value unreg)))).
Proof.
  cbv zeta. unfold register_phone, unregister_phone. rewrite !run_bind.
  split.
  - destruct (register_cases env phone db)
      as [[e E]|[n [db' [Hv [Hl [Hc [m E]]]]]]].
    + rewrite E. left. repeat split.
    + destruct (first_after_register env phone db n Hv Hl Hc) as [r [Hf Ha]].
      pose proof (first_active_listed n _ r Hf Ha) as Hin.
      rewrite E in *. right. cbn [value final fst snd ret status_code
                                    js_success js_phone default].
      split; [reflexivity|]. split; [reflexivity|]. exists n.
      split; [reflexivity|]. split; [exact Hv | exact Hin].
  - destruct (unregister_cases env phone db) as [[e E]|[n [r [Hv [Hf E]]]]];
      rewrite E.
    + left. repeat split.
    + right. repeat split. by eexists.
Qed.

End EndpointFacts.

(* ===================================================================== *)
(** * More on the monitoring cycle                                       *)
(* ===================================================================== *)

Section CycleWrites.
Import Storage World Spec Monitor Notions.

(** What each helper of the cycle leaves alone. *)
Lemma save_snapshot_frame env event_id sectors db :
  let db' := final (_save_snapshot env event_id sectors db) in
  events db' = events db /\ change_logs db' = change_logs db
  /\ phone_numbers db' = phone_numbers db /\ sms_logs db' = sms_logs db.
Proof.
  unfold _save_snapshot, bind, emit, read, write, ret, final.
  destruct (db_raises env SaveSnapshot); repeat split.
Qed.

Lemma update_timestamp_frame env event_id db :
  let db' := final (_update_event_timestamp env event_id db) in
  snapshots db' = snapshots db /\ change_logs db' = change_logs db
  /\ phone_numbers db' = phone_numbers db /\ sms_logs db' = sms_logs db
  /\ map ev_event_id (events db') = map ev_event_id (events db).
Proof.
  unfold _update_event_timestamp, bind, emit, read, write, ret, final.
  destruct (db_raises env UpdateEventTimestamp); simpl; repeat split.
  by apply map_update_first.
Qed.

Lemma log_change_frame env self event_id new db :
  let db' := final (_log_change env self event_id new db) in
  events db' = events db /\ snapshots db' = snapshots db
  /\ phone_numbers db' = phone_numbers db /\ sms_logs db' = sms_logs db
  /\ change_logs db'
     = change_logs db
       ++ (if db_raises env LogChange then []
           else [ {| cl_event_id := event_id; cl_new_sectors := new;
                     cl_timestamp := utcnow env LogChange;
                     cl_sms_sent := negb (dry_run self) |} ]).
Proof.
  unfold _log_change, bind, emit, read, write, ret, final.
  destruct (db_raises env LogChange); simpl; repeat split.
  by rewrite app_nil_r.
Qed.

(** The result of a cycle whose observation succeeds. *)
Lemma monitor_single_event_value env self event_id event_url db raw_sectors :
  browser_start env = None ->
  page env event_url = Some raw_sectors ->
  let current := Parse.normalize_sectors raw_sectors in
  let previous := value (_get_previous_snapshot env event_id db) in
  let change_info :=
    Diff.detect_changes (utcnow env DetectChanges) previous
      (list_to_set (elements current)) in
  value (monitor_single_event env self event_id event_url db)
  = {| event_id := event_id;
       success := true;
       sectors_found := length (elements current);
       changes_detected := Diff.has_changes change_info;
       new_sectors := Diff.new_sectors change_info;
       sms_sent := Diff.should_send_alert change_info
                   && Sms.is_configured (sms_service self);
       error := None |}.
Proof.
  intros Hb Hpage. cbv zeta. unfold monitor_single_event. rewrite Hb.
  rewrite value_bind, (scrape_event_run _ _ _ _ _ Hpage).
  cbn [value final fst snd].
  destruct (get_previous_run env event_id db) as [Hpf _].
  rewrite value_bind, Hpf, !value_bind.
  destruct (Diff.should_send_alert _) eqn:Halert.
  - rewrite !value_bind. cbn [value ret fst].
    match goal with
    | |- context [Sms.send_change_alert ?e ?s ?i ?n ?d ?b] =>
        set (alert := Sms.send_change_alert e s i n d b)
    end.
    assert (Hs : Sms.get_success (value alert)
                 = Sms.is_configured (sms_service self)).
    { subst alert. destruct (Sms.is_configured (sms_service self)) eqn:Hc.
      - by apply send_change_alert_success.
      - unfold Sms.send_change_alert. rewrite Hc. reflexivity. }
    rewrite Hs. reflexivity.
  - reflexivity.
Qed.

(** The tables after a cycle whose observation succeeds. *)
Lemma monitor_single_event_tables env self event_id event_url db raw_sectors :
  browser_start env = None ->
  page env event_url = Some raw_sectors ->
  let current := Parse.normalize_sectors raw_sectors in
  let previous := value (_get_previous_snapshot env event_id db) in
  let change_info :=
    Diff.detect_changes (utcnow env DetectChanges) previous
      (list_to_set (elements current)) in
  let out := monitor_single_event env self event_id event_url db in
  snapshots (final out)
  = snapshots db
    ++ (if db_raises env SaveSnapshot then []
        else [ {| sn_event_id := event_id;
                  sn_sectors_data := elements current;
                  sn_timestamp := utcnow env SaveSnapshot |} ])
  /\ change_logs (final out)
     = change_logs db
       ++ (if Diff.should_send_alert change_info
              && negb (db_raises env LogChange)
           then [ {| cl_event_id := event_id;
                     cl_new_sectors := Diff.new_sectors change_info;
                     cl_timestamp := utcnow env LogChange;
                     cl_sms_sent := negb (dry_run self) |} ]
           else [])
  /\ phone_numbers (final out) = phone_numbers db
  /\ map ev_event_id (events (final out)) = map ev_event_id (events db).
Proof.
  intros Hb Hpage. cbv zeta.
  destruct (monitor_single_event_run env self event_id event_url db
              raw_sectors Hb Hpage) as [_ [_ [_ Hrun]]].
  cbv zeta in Hrun.
  set (cur := elements (Parse.normalize_sectors raw_sectors)) in *.
  destruct (save_snapshot_run env event_id cur db) as [_ Hsave].
  destruct (save_snapshot_frame env event_id cur db)
    as [Se [Sc [Sp Sl]]].
  set (db1 := final (_save_snapshot env event_id cur db)) in *.
  destruct (update_timestamp_frame env event_id db1)
    as [Us [Uc [Up [Ul Ue]]]].
  set (db2 := final (_update_event_timestamp env event_id db1)) in *.
  assert (Hsn : snapshots db1
                = snapshots db
                  ++ (if db_raises env SaveSnapshot then []
                      else [ {| sn_event_id := event_id;
                                sn_sectors_data := cur;
                                sn_timestamp := utcnow env SaveSnapshot |} ])).
  { rewrite Hsave. destruct (db_raises env SaveSnapshot);
      [by rewrite app_nil_r | reflexivity]. }
  destruct (Diff.should_send_alert _) eqn:Halert.
  - destruct Hrun as [-> _].
    match goal with
    | |- context [Sms.send_change_alert ?e ?s ?i ?n ?d ?b] =>
        destruct (send_change_alert_only_logs e s i n d b)
          as [Ae [As [Ac Ap]]];
        set (alert := Sms.send_change_alert e s i n d b) in *
    end.
    match type of Ae with
    | context [_log_change ?e ?s ?i ?n ?d] =>
        destruct (log_change_frame e s i n d) as [Le [Ls [Lp [Ll Lc]]]]
    end.
    rewrite As, Ac, Ap, Ae, Ls, Lc, Lp, Le, Us, Uc, Up, Ue, Hsn, Sc, Sp, Se.
    cbn [andb]. repeat split.
    by destruct (db_raises env LogChange).
  - destruct Hrun as [-> _].
    rewrite Us, Uc, Up, Ue, Hsn, Sc, Sp, Se, app_nil_r. repeat split.
Qed.

(** X20.  When the browser does not start or the scrape of the page fails,
    the cycle is reported as failed with an error text, without changes and
    without alert, and the database is exactly as before: no snapshot is
    written and the last-checked time is not touched.  At most the
    observation itself was attempted. *)
Theorem observation_failure_changes_nothing
  (env : Env) (self : TicketmasterMonitor) (event_id event_url : string)
  (db : Database) :
  browser_start env <> None \/ page env event_url = None ->
  let out := monitor_single_event env self event_id event_url db in
  success (value out) = false
  /\ is_Some (error (value out))
  /\ changes_detected (value out) = false
  /\ sms_sent (value out) = false
  /\ final out = db
  /\ (trace out = [] \/ trace out = [ActObserve event_id]).
Proof.
  intros H. cbv zeta. unfold monitor_single_event.
  destruct (browser_start env) as [e|] eqn:Hb.
  - repeat split; try reflexivity; [by eexists | by left].
  - destruct H as [H|H]; [by destruct H|].
    unfold scrape_event. rewrite H.
    unfold bind, emit, ret, value, final, trace. simpl.
    repeat split; try reflexivity; [by eexists | by right].
Qed.

Lemma observation_failure_changes_nothing_witness :
  final (monitor_single_event Scenarios.env_page_fails Examples.monitor
           "pq23" Examples.url_pq23 Examples.db_three) = Examples.db_three.
Proof.
  apply (observation_failure_changes_nothing Scenarios.env_page_fails
           Examples.monitor "pq23" Examples.url_pq23 Examples.db_three).
  right. reflexivity.
Defined.

Lemma should_alert_iff_new (ci : Diff.ChangeInfo) :
  Diff.should_send_alert ci = true <-> Diff.new_sectors ci <> [].
Proof.
  unfold Diff.should_send_alert. rewrite Nat.ltb_lt.
  destruct (Diff.new_sectors ci); simpl; split; try discriminate; try lia.
  intros H. by destruct H.
Qed.

(** X21.  In a cycle whose observation succeeds, [sms_sent] is true exactly
    when new sectors were found and the transport is configured, and that
    whether or not any recipient was reached: a deduplication skip, an empty
    recipient list and a batch in which every delivery failed all count as
    sent. *)
Theorem sms_sent_iff_new_and_configured
  (env : Env) (self : TicketmasterMonitor) (event_id event_url : string)
  (db : Database) (raw_sectors : list Parse.Sector) :
  browser_start env = None ->
  page env event_url = Some raw_sectors ->
  let out := monitor_single_event env self event_id event_url db in
  sms_sent (value out) = true
  <-> new_sectors (value out) <> []
      /\ Sms.is_configured (sms_service self) = true.
Proof.
  intros Hb Hpage out. subst out.
  rewrite (monitor_single_event_value env self event_id event_url db
             raw_sectors Hb Hpage).
  cbn [sms_sent new_sectors]. by rewrite andb_true_iff, should_alert_iff_new.
Qed.

Lemma sms_sent_iff_new_and_configured_witness :
  sms_sent (value (monitor_single_event Scenarios.env_carrier_down
                     Examples.monitor "pq23" Examples.url_pq23
                     Examples.db_three)) = true
  /\ carrier_sends
       (trace (monitor_single_event Scenarios.env_carrier_down
                 Examples.monitor "pq23" Examples.url_pq23
                 Examples.db_three))
     = [ ("+573001234567", Sms.ALERT_MESSAGE);
         ("+573001234568", Sms.ALERT_MESSAGE);
         ("+573001234569", Sms.ALERT_MESSAGE) ]
  /\ List.filter sl_success
       (sms_logs (final (monitor_single_event Scenarios.env_carrier_down
                           Examples.monitor "pq23" Examples.url_pq23
                           Examples.db_three))) = [].
Proof.
  split; [|split; vm_compute; reflexivity].
  apply (sms_sent_iff_new_and_configured Scenarios.env_carrier_down
           Examples.monitor "pq23" Examples.url_pq23 Examples.db_three
           [Examples.sector_1] eq_refl eq_refl).
  split; [vm_compute; discriminate | reflexivity].
Defined.

(** X22.  In a cycle whose observation succeeds and whose snapshot write
    answers, exactly one snapshot row is added, for this event, holding
    without repetition the identifiers of [normalize_sectors]; this happens
    whether or not an alert is due and whatever becomes of it.
    [sectors_found] is the number of those identifiers, and the recipient
    table is untouched. *)
Theorem cycle_writes_snapshot
  (env : Env) (self : TicketmasterMonitor) (event_id event_url : string)
  (db : Database) (raw_sectors : list Parse.Sector) :
  browser_start env = None ->
  page env event_url = Some raw_sectors ->
  db_raises env SaveSnapshot = false ->
  let out := monitor_single_event env self event_id event_url db in
  exists sectors,
    snapshots (final out)
    = snapshots db
      ++ [ {| sn_event_id := event_id; sn_sectors_data := sectors;
              sn_timestamp := utcnow env SaveSnapshot |} ]
    /\ list_to_set sectors = Parse.normalize_sectors raw_sectors
    /\ NoDup sectors
    /\ sectors_found (value out) = length sectors
    /\ sectors_found (value out) = size (Parse.normalize_sectors raw_sectors)
    /\ phone_numbers (final out) = phone_numbers db.
Proof.
  intros Hb Hpage Hsave out. subst out.
  destruct (monitor_single_event_tables env self event_id event_url db
              raw_sectors Hb Hpage) as [Hsn [_ [Hph _]]].
  rewrite Hsave in Hsn.
  rewrite (monitor_single_event_value env self event_id event_url db
             raw_sectors Hb Hpage).
  exists (elements (Parse.normalize_sectors raw_sectors)).
  split; [exact Hsn|]. split; [apply list_to_set_elements_L|].
  split; [apply NoDup_elements|]. repeat split. exact Hph.
Qed.

Lemma cycle_writes_snapshot_witness :
  exists sectors,
    snapshots (final (monitor_single_event Scenarios.env_carrier_down
                        Examples.monitor "pq23" Examples.url_pq23
                        Examples.db_three))
    = [ {| sn_event_id := "pq23"; sn_sectors_data := sectors;
           sn_timestamp := 1120000000 |} ]
    /\ list_to_set sectors = Parse.normalize_sectors [Examples.sector_1].
Proof.
  destruct (cycle_writes_snapshot Scenarios.env_carrier_down Examples.monitor
              "pq23" Examples.url_pq23 Examples.db_three [Examples.sector_1]
              eq_refl eq_refl eq_refl) as [sectors [H1 [H2 _]]].
  exists sectors. split; [exact H1 | exact H2].
Defined.

(** X23.  In a cycle whose observation succeeds, a change record is written
    exactly when new sectors were found (and the write answers): one row,
    for this event, listing the new sectors.  Its [sms_sent] flag is the
    negation of the dry-run flag, whatever the dispatcher did afterwards,
    also when the transport is not configured. *)
Theorem cycle_writes_change_record
  (env : Env) (self : TicketmasterMonitor) (event_id event_url : string)
  (db : Database) (raw_sectors : list Parse.Sector) :
  browser_start env = None ->
  page env event_url = Some raw_sectors ->
  let out := monitor_single_event env self event_id event_url db in
  (new_sectors (value out) = [] -> change_logs (final out) = change_logs db)
  /\ (db_raises env LogChange = true ->
      change_logs (final out) = change_logs db)
  /\ (new_sectors (value out) <> [] -> db_raises env LogChange = false ->
      change_logs (final out)
      = change_logs db
        ++ [ {| cl_event_id := event_id;
                cl_new_sectors := new_sectors (value out);
                cl_timestamp := utcnow env LogChange;
                cl_sms_sent := negb (dry_run self) |} ]).
Proof.
  intros Hb Hpage out. subst out.
  destruct (monitor_single_event_tables env self event_id event_url db
              raw_sectors Hb Hpage) as [_ [Hcl _]].
  rewrite (monitor_single_event_value env self event_id event_url db
             raw_sectors Hb Hpage).
  cbn [new_sectors]. cbv zeta in Hcl. rewrite Hcl.
  split; [|split].
  - intros Hnil.
    destruct (Diff.should_send_alert _) eqn:Ha;
      [|by rewrite app_nil_r].
    apply should_alert_iff_new in Ha. by destruct Ha.
  - intros ->. by rewrite andb_false_r, app_nil_r.
  - intros Hnew ->. apply should_alert_iff_new in Hnew. by rewrite Hnew.
Qed.

Lemma cycle_writes_change_record_witness :
  change_logs (final (monitor_single_event Scenarios.env_carrier_down
                        {| sms_service := {| Sms.client := None |};
                           dry_run := false |}
                        "pq23" Examples.url_pq23 Examples.db_three))
  = [ {| cl_event_id := "pq23"; cl_new_sectors := ["sector_1"];
         cl_timestamp := 1120000000; cl_sms_sent := true |} ].
Proof.
  apply (proj2 (proj2 (cycle_writes_change_record Scenarios.env_carrier_down
                         {| sms_service := {| Sms.client := None |};
                            dry_run := false |}
                         "pq23" Examples.url_pq23 Examples.db_three
                         [Examples.sector_1] eq_refl eq_refl))).
  - vm_compute. discriminate.
  - reflexivity.
Defined.

End CycleWrites.

Section SuccessiveCycles.
Import Storage World Spec Monitor Notions.

Lemma newer_fold rows : forall acc b,
  fold_left newer rows acc = Some b -> In b rows \/ acc = Some b.
Proof.
  induction rows as [|r rows IH]; intros acc b; simpl; [auto|].
  intros H. apply IH in H as [H|H]; [auto|].
  destruct acc as [a|]; simpl in H.
  - destruct (Z.ltb (sn_timestamp a) (sn_timestamp r)); injection H as <-;
      auto.
  - injection H as <-. auto.
Qed.

(** A row newer than all the others is the latest. *)
Lemma latest_snoc rows row :
  (forall r, In r rows -> (sn_timestamp r < sn_timestamp row)%Z) ->
  latest (rows ++ [row]) = Some row.
Proof.
  intros Hnew. unfold latest. rewrite fold_left_app. simpl.
  destruct (fold_left newer rows None) as [b|] eqn:E; [|reflexivity].
  apply newer_fold in E as [E|E]; [|discriminate].
  simpl. apply Hnew, Z.ltb_lt in E. by rewrite E.
Qed.

Lemma previous_after_save env event_id db sectors now :
  db_raises env GetPreviousSnapshot = false ->
  (forall r, In r (snapshots db) -> sn_event_id r = event_id ->
             (sn_timestamp r < now)%Z) ->
  forall db',
    snapshots db'
    = snapshots db
      ++ [ {| sn_event_id := event_id; sn_sectors_data := sectors;
              sn_timestamp := now |} ] ->
    value (_get_previous_snapshot env event_id db') = list_to_set sectors.
Proof.
  intros Hr Hold db' Hsn. unfold _get_previous_snapshot. rewrite Hr.
  unfold bind, emit, read, ret, value. simpl.
  rewrite Hsn, List.filter_app. simpl. unfold of_event at 2. simpl.
  rewrite String.eqb_refl, latest_snoc; [reflexivity|].
  intros r [Hin Hev]%filter_In. simpl. apply Hold; [assumption|].
  by apply String.eqb_eq.
Qed.

(** X24.  Two cycles of one event in a row, the snapshot write of the first
    and the snapshot read of the second answering, and the first snapshot
    being newer than the stored ones of that event: the second cycle
    compares against what the first one observed.  Its new sectors are the
    identifiers observed now and not then; and when both cycles observe the
    same identifiers it reports no change, sends no alert and writes no
    change record. *)
Theorem second_cycle_compares_with_first
  (env1 env2 : Env) (self : TicketmasterMonitor) (event_id event_url : string)
  (db : Database) (raw1 raw2 : list Parse.Sector) :
  browser_start env1 = None -> page env1 event_url = Some raw1 ->
  db_raises env1 SaveSnapshot = false ->
  (forall r, In r (snapshots db) -> sn_event_id r = event_id ->
             (sn_timestamp r < utcnow env1 SaveSnapshot)%Z) ->
  browser_start env2 = None -> page env2 event_url = Some raw2 ->
  db_raises env2 GetPreviousSnapshot = false ->
  let db1 := final (monitor_single_event env1 self event_id event_url db) in
  let out2 := monitor_single_event env2 self event_id event_url db1 in
  list_to_set (new_sectors (value out2))
  = Parse.normalize_sectors raw2 ∖ Parse.normalize_sectors raw1
  /\ (Parse.normalize_sectors raw2 = Parse.normalize_sectors raw1 ->
      success (value out2) = true
      /\ changes_detected (value out2) = false
      /\ new_sectors (value out2) = []
      /\ sms_sent (value out2) = false
      /\ carrier_sends (trace out2) = []
      /\ change_logs (final out2) = change_logs db1
      /\ sms_logs (final out2) = sms_logs db1).
Proof.
  intros Hb1 Hp1 Hs1 Hold Hb2 Hp2 Hr2 db1 out2.
  destruct (monitor_single_event_tables env1 self event_id event_url db raw1
              Hb1 Hp1) as [Hsn _].
  rewrite Hs1 in Hsn. fold db1 in Hsn.
  pose proof (previous_after_save env2 event_id db _ _ Hr2 Hold db1 Hsn)
    as Hprev.
  rewrite list_to_set_elements_L in Hprev.
  pose proof (monitor_single_event_value env2 self event_id event_url db1 raw2
                Hb2 Hp2) as Hval.
  cbv zeta in Hval. rewrite Hprev, list_to_set_elements_L in Hval.
  fold out2 in Hval.
  split.
  - rewrite Hval. cbn [new_sectors Diff.new_sectors Diff.detect_changes].
    apply list_to_set_elements_L.
  - intros Heq.
    destruct (monitor_single_event_run env2 self event_id event_url db1 raw2
                Hb2 Hp2) as [_ [_ [_ Hrun]]].
    destruct (monitor_single_event_tables env2 self event_id event_url db1
                raw2 Hb2 Hp2) as [_ [Hcl _]].
    cbv zeta in Hrun, Hcl.
    rewrite Hprev, list_to_set_elements_L, Heq in Hrun, Hcl.
    fold out2 in Hrun, Hcl. rewrite Heq in Hval.
    assert (Hno : Diff.should_send_alert
                    (Diff.detect_changes (utcnow env2 DetectChanges)
                       (Parse.normalize_sectors raw1)
                       (Parse.normalize_sectors raw1)) = false).
    { unfold Diff.should_send_alert, Diff.detect_changes. cbn.
      by rewrite difference_diag_L. }
    rewrite Hno in Hrun, Hcl. destruct Hrun as [Hfin Htr].
    rewrite Hval.
    cbn [success changes_detected new_sectors sms_sent Diff.has_changes
           Diff.new_sectors Diff.detect_changes].
    rewrite Hno, difference_diag_L.
    split; [reflexivity|]. split; [reflexivity|]. split; [reflexivity|].
    split; [reflexivity|]. split; [by rewrite Htr|].
    split; [by rewrite Hcl, app_nil_r|].
    rewrite Hfin.
    match goal with
    | |- context [_update_event_timestamp ?e ?i ?d] =>
        destruct (update_timestamp_frame e i d) as [_ [_ [_ [-> _]]]]
    end.
    match goal with
    | |- context [_save_snapshot ?e ?i ?s ?d] =>
        destruct (save_snapshot_frame e i s d) as [_ [_ [_ ->]]]
    end.
    reflexivity.
Qed.

Lemma second_cycle_compares_with_first_witness :
  changes_detected
    (value (monitor_single_event Scenarios.env_minute_later Examples.monitor
              "pq23" Examples.url_pq23
              (final (monitor_single_event Scenarios.env_carrier_down
                        Examples.monitor "pq23" Examples.url_pq23
                        Examples.db_three)))) = false.
Proof.
  apply (proj2 (second_cycle_compares_with_first Scenarios.env_carrier_down
                  Scenarios.env_minute_later Examples.monitor "pq23"
                  Examples.url_pq23 Examples.db_three [Examples.sector_1]
                  [Examples.sector_1] eq_refl eq_refl eq_refl
                  (fun r (H : In r []) => match H with end)
                  eq_refl eq_refl eq_refl)).
  reflexivity.
Defined.

(** X25.  A cycle that finds new sectors while the log holds a recent
    successful alert (transport configured, look-up answering): the
    dispatcher skips, so the carrier is not called, no attempt is logged
    and the delivery log stays as it was; yet the cycle reports
    [sms_sent = true]. *)
Theorem cycle_alert_suppressed_reports_sent
  (env : Env) (self : TicketmasterMonitor) (event_id event_url : string)
  (db : Database) (raw_sectors : list Parse.Sector) (row : SMSLog) :
  browser_start env = None ->
  page env event_url = Some raw_sectors ->
  Sms.is_configured (sms_service self) = true ->
  db_raises env Deduplication = false ->
  In row (sms_logs db) ->
  sl_success row = true ->
  sl_message row = Sms.ALERT_MESSAGE ->
  (utcnow env Deduplication
   - Sms.timedelta_minutes Sms.DEDUPLICATION_WINDOW_MINUTES
   < sl_timestamp row)%Z ->
  let out := monitor_single_event env self event_id event_url db in
  new_sectors (value out) <> [] ->
  sms_sent (value out) = true
  /\ carrier_sends (trace out) = []
  /\ logged_attempts (trace out) = []
  /\ sms_logs (final out) = sms_logs db.
Proof.
  intros Hb Hpage Hconf Hdb Hin Hok Hmsg Hts out Hnew. subst out.
  pose proof (monitor_single_event_value env self event_id event_url db
                raw_sectors Hb Hpage) as Hval.
  destruct (monitor_single_event_run env self event_id event_url db
              raw_sectors Hb Hpage) as [_ [_ [_ Hrun]]].
  cbv zeta in Hval, Hrun. rewrite Hval in Hnew |- *.
  cbn [new_sectors sms_sent] in Hnew |- *.
  apply should_alert_iff_new in Hnew. rewrite Hnew in Hrun |- *.
  destruct Hrun as [Hfin Htr].
  match type of Htr with
  | context [Sms.send_change_alert ?e ?s ?i ?n ?d ?b] =>
      assert (Hgate : Sms.send_change_alert e s i n d b
                      = (Sms.Skipped "deduplication", b, []));
      [apply (dedup_gate_run e s b i n d row); try assumption|]
  end.
  - match goal with
    | |- context [_log_change ?e ?s ?i ?n ?d] =>
        destruct (log_change_frame e s i n d) as [_ [_ [_ [-> _]]]]
    end.
    match goal with
    | |- context [_update_event_timestamp ?e ?i ?d] =>
        destruct (update_timestamp_frame e i d) as [_ [_ [_ [-> _]]]]
    end.
    match goal with
    | |- context [_save_snapshot ?e ?i ?s ?d] =>
        destruct (save_snapshot_frame e i s d) as [_ [_ [_ ->]]]
    end.
    exact Hin.
  - apply recent_alert_iff. auto.
  - rewrite Hfin, Htr, Hgate, Hconf. cbn [final trace fst snd].
    split; [reflexivity|]. split; [reflexivity|]. split; [reflexivity|].
    match goal with
    | |- context [_log_change ?e ?s ?i ?n ?d] =>
        destruct (log_change_frame e s i n d) as [_ [_ [_ [-> _]]]]
    end.
    match goal with
    | |- context [_update_event_timestamp ?e ?i ?d] =>
        destruct (update_timestamp_frame e i d) as [_ [_ [_ [-> _]]]]
    end.
    match goal with
    | |- context [_save_snapshot ?e ?i ?s ?d] =>
        destruct (save_snapshot_frame e i s d) as [_ [_ [_ ->]]]
    end.
    reflexivity.
Qed.

Lemma cycle_alert_suppressed_reports_sent_witness :
  sms_sent (value (monitor_single_event Examples.env_second_fails
                     Examples.monitor "pq24" Examples.url_pq23
                     Examples.db_alerted)) = true
  /\ carrier_sends
       (trace (monitor_single_event Examples.env_second_fails
                 Examples.monitor "pq24" Examples.url_pq23
                 Examples.db_alerted)) = [].
Proof.
  destruct (cycle_alert_suppressed_reports_sent Examples.env_second_fails
              Examples.monitor "pq24" Examples.url_pq23 Examples.db_alerted
              [Examples.sector_1] Examples.alert_row)
    as [H1 [H2 _]].
  - reflexivity.
  - reflexivity.
  - reflexivity.
  - reflexivity.
  - left. reflexivity.
  - reflexivity.
  - reflexivity.
  - vm_compute. reflexivity.
  - vm_compute. discriminate.
  - split; [exact H1 | exact H2].
Defined.

End SuccessiveCycles.

Section RoundFacts.
Import Storage World Spec Monitor Notions.

Lemma alert_implies_changes now (A B : gset string) :
  Diff.should_send_alert (Diff.detect_changes now A B) = true ->
  Diff.has_changes (Diff.detect_changes now A B) = true.
Proof.
  intros H. change (Nat.ltb 0 (size (B ∖ A)) = true) in H.
  change (Nat.ltb 0 (size (B ∖ A)) || Nat.ltb 0 (size (A ∖ B)) = true).
  by rewrite H.
Qed.

(** What holds of the result of every cycle. *)
Lemma cycle_result_shape env self event_id event_url db :
  let r := value (monitor_single_event env self event_id event_url db) in
  Monitor.event_id r = event_id
  /\ (success r = true <-> observed env event_url)
  /\ (sms_sent r = true -> changes_detected r = true)
  /\ (changes_detected r = true -> success r = true).
Proof.
  cbv zeta. unfold observed.
  destruct (browser_start env) as [e|] eqn:Hb.
  { unfold monitor_single_event. rewrite Hb. cbn.
    repeat split; try discriminate. intros [H _]. discriminate. }
  destruct (page env event_url) as [raw|] eqn:Hp.
  - rewrite (monitor_single_event_value env self event_id event_url db raw
               Hb Hp).
    cbn [Monitor.event_id success sms_sent changes_detected].
    split; [reflexivity|]. split; [split; auto; discriminate|].
    split; [|reflexivity].
    intros [Ha _]%andb_true_iff. by apply alert_implies_changes.
  - unfold monitor_single_event, scrape_event. rewrite Hb, Hp.
    unfold bind, emit, ret, value. simpl.
    repeat split; try discriminate. intros [_ H]. by destruct H.
Qed.

Lemma filter_length_le {T : Type} (p q : T -> bool) (l : list T) :
  Forall (fun x => p x = true -> q x = true) l ->
  length (List.filter p l) <= length (List.filter q l).
Proof.
  induction 1 as [|x l Hx Hl IH]; simpl; [lia|].
  destruct (p x) eqn:Hp.
  - rewrite (Hx eq_refl). simpl. lia.
  - destruct (q x); simpl; lia.
Qed.

Lemma filter_length_bound {T : Type} (p : T -> bool) (l : list T) :
  length (List.filter p l) <= length l.
Proof.
  induction l as [|x l IH]; simpl; [lia|]. destruct (p x); simpl; lia.
Qed.

Lemma monitor_events_shape envs self events : forall i db,
  let results := value (monitor_events envs self i events db) in
  map Monitor.event_id results = map ec_id events
  /\ Forall (fun r => (sms_sent r = true -> changes_detected r = true)
                      /\ (changes_detected r = true -> success r = true))
       results
  /\ forall k ev r,
       events !! k = Some ev -> results !! k = Some r ->
       (success r = true <-> observed (envs (i + k)) (ec_url ev)).
Proof.
  induction events as [|ev events IH]; intros i db; cbv zeta.
  - split; [reflexivity|]. split; [constructor|]. intros k e r H.
    by rewrite lookup_nil in H.
  - cbn [monitor_events]. rewrite !value_bind. cbn [value ret fst].
    destruct (cycle_result_shape (envs i) self (ec_id ev) (ec_url ev) db)
      as [Hid [Hs [H1 H2]]].
    match goal with
    | |- context [monitor_events envs self (S i) events ?d] =>
        destruct (IH (S i) d) as [Hmap [Hall Hk]]
    end.
    split; [simpl; by rewrite Hid, Hmap|]. split; [by constructor|].
    intros [|k] e r He Hr; simpl in He, Hr.
    + injection He as <-. injection Hr as <-. by rewrite Nat.add_0_r.
    + replace (i + S k) with (S i + k) by lia. by apply Hk.
Qed.

(** X26.  A round over the events gives one result per configured event,
    in the order of the configuration, and every event gets its cycle: the
    result of an event is a success exactly when its own observation
    succeeded, whatever happened to the events before it.  In the logged
    summary the cycles with [sms_sent] are among those with changes, which
    are among the successful ones.  [monitor_all_events] returns results
    for pq23, pq24 and pq25. *)
Theorem monitor_events_one_result_each
  (envs : nat -> Env) (self : TicketmasterMonitor)
  (events : list EventConfig) (i : nat) (db : Database) :
  let results := value (monitor_events envs self i events db) in
  map Monitor.event_id results = map ec_id events
  /\ (forall k ev r,
        events !! k = Some ev -> results !! k = Some r ->
        (success r = true <-> observed (envs (i + k)) (ec_url ev)))
  /\ (summary results).2 <= (summary results).1.2
  /\ (summary results).1.2 <= (summary results).1.1
  /\ (summary results).1.1 <= length events
  /\ map Monitor.event_id (value (monitor_all_events envs self db))
     = ["pq23"; "pq24"; "pq25"].
Proof.
  cbv zeta.
  destruct (monitor_events_shape envs self events i db) as [Hmap [Hall Hk]].
  split; [exact Hmap|]. split; [exact Hk|]. unfold summary. cbn [fst snd].
  split; [|split; [|split]].
  - apply filter_length_le.
    eapply Forall_impl; [exact Hall | by intros x [H1 H2]].
  - apply filter_length_le.
    eapply Forall_impl; [exact Hall | by intros x [H1 H2]].
  - etrans; [apply filter_length_bound|].
    by rewrite <- (length_map Monitor.event_id), Hmap, length_map.
  - unfold monitor_all_events.
    destruct (monitor_events_shape envs self EVENTS 0 db) as [-> _].
    reflexivity.
Qed.

Lemma monitor_events_one_result_each_witness :
  exists r,
    value (monitor_events Scenarios.round_envs Examples.monitor 0 EVENTS
             Examples.db_three) !! 2 = Some r
    /\ success r = true.
Proof.
  eexists. split; [vm_compute; reflexivity|].
  apply (proj1 (proj2 (monitor_events_one_result_each Scenarios.round_envs
                         Examples.monitor EVENTS 0 Examples.db_three))
           2 {| ec_id := "pq25";
                ec_url := "https://www.ticketmaster.co/event/bad-bunny-pq25" |}).
  - reflexivity.
  - vm_compute. reflexivity.
  - split; [reflexivity | discriminate].
Defined.

End RoundFacts.
